(** * Streamlink plugins [chzzk] and [afreeca]: a shallow embedding

    The development follows the two plugin modules
    [streamlink/plugins/chzzk.py] and [streamlink/plugins/afreeca.py].

    - [Py] holds the part of the Python runtime the plugins rely on:
      values, exceptions, [str] methods, sequence unpacking.
    - [Validate] is the schema language of [streamlink.plugin.api.validate].
    - [Chzzk] and [Afreeca] embed the plugin code, method by method.
    - The remaining modules state and prove the properties. *)

From Stdlib Require Import String Ascii List ZArith QArith Bool Lia.
From Stdlib Require Import Permutation.
From Stdlib Require Import Floats.SpecFloat.
Import ListNotations.

Open Scope string_scope.
Open Scope Z_scope.

(* ================================================================== *)
(** * The Python runtime *)
(* ================================================================== *)

Module Py.

(** ** Values

    A [str] is a sequence of code points; the plugins only inspect the
    slash, the digits and the letters of a few keywords, so code points
    are taken in the Latin-1 range, where [\d] is exactly [0-9].  A
    [float] is its IEEE 754 value.  A [dict] keeps its insertion order
    and is read by key; JSON objects only have [str] keys. *)

#[warnings="-register-all"]
Inductive pyval : Type :=
| PNone
| PBool (b : bool)
| PInt (n : Z)
| PFloat (f : spec_float)
| PStr (s : string)
| PList (l : list pyval)
| PTuple (l : list pyval)
| PDict (d : list (string * pyval)).

(** ** Exceptions *)

(** Modelled from the spec: the HTTP status that the transport error
    under a failed fetch may carry.  The classes are declared outside the
    plugin files: the transport error holds the response, or [None] when
    none was received. *)
Record Response := { status_code : Z }.

Record RequestException := { response : option Response }.

(** Modelled from the spec: the stream error of [streamlink.exceptions],
    declared outside the plugin files.  The one raised for a failed fetch
    has the transport error in its [err] attribute; the one the plugin
    raises itself has no such attribute.  The other constructors are the
    exceptions of the Python runtime the plugins can meet. *)
Inductive exn : Type :=
| StreamError (arg : pyval) (err : option RequestException)
| PluginError (arg : string)
| ValidationError
| AttributeError
| IndexError
| KeyError (key : string)
| TypeError
| ValueError
| UnboundLocalError.

Inductive result (A : Type) : Type :=
| Ok (a : A)
| Raise (e : exn).

Arguments Ok {A} a.
Arguments Raise {A} e.

Definition rbind {A B} (r : result A) (k : A -> result B) : result B :=
  match r with
  | Ok a => k a
  | Raise e => Raise e
  end.

(** ** [str] *)

(** [s.startswith(p)] *)
Fixpoint startswith (s p : string) {struct p} : bool :=
  match p with
  | EmptyString => true
  | String a p' =>
      match s with
      | EmptyString => false
      | String b s' => Ascii.eqb a b && startswith s' p'
      end
  end.

(** [sub in s] *)
Fixpoint contains (sub s : string) : bool :=
  startswith s sub
  || match s with
     | EmptyString => false
     | String _ s' => contains sub s'
     end.

(** Number of positions of [s] at which [sub] starts (overlaps counted). *)
Fixpoint occurrences (sub s : string) : nat :=
  ((if startswith s sub then 1 else 0)
   + match s with
     | EmptyString => 0
     | String _ s' => occurrences sub s'
     end)%nat.

(** [s.replace(old, new)] for a non-empty [old]: scan from the left, and
    at each occurrence of [old] emit [new] and jump over the occurrence.
    [skip] counts the characters of a matched occurrence still to jump. *)
Fixpoint replace_from (old new : string) (skip : nat) (s : string) : string :=
  match s with
  | EmptyString => EmptyString
  | String c s' =>
      match skip with
      | S k => replace_from old new k s'
      | O =>
          if startswith s old
          then new ++ replace_from old new (String.length old - 1) s'
          else String c (replace_from old new 0 s')
      end
  end.

(** [s.replace("", new)]: [new] goes before every character and at the end. *)
Fixpoint interleave (new s : string) : string :=
  match s with
  | EmptyString => new
  | String c s' => new ++ String c (interleave new s')
  end.

(** [s.replace(old, new)] *)
Definition replace (s old new : string) : string :=
  match old with
  | EmptyString => interleave new s
  | String _ _ => replace_from old new 0 s
  end.

(** [s.split(sep)] for a separator of one character; never empty. *)
Fixpoint split (sep : ascii) (s : string) : list string :=
  match s with
  | EmptyString => [EmptyString]
  | String c s' =>
      if Ascii.eqb c sep then EmptyString :: split sep s'
      else match split sep s' with
           | seg :: segs => String c seg :: segs
           | [] => [String c EmptyString]
           end
  end.

(** [l[i]], negative indices counting from the end. *)
Definition getitem {A} (l : list A) (i : Z) : result A :=
  let len := Z.of_nat (List.length l) in
  let j := if i <? 0 then i + len else i in
  if (j <? 0) || (len <=? j) then Raise IndexError
  else match nth_error l (Z.to_nat j) with
       | Some x => Ok x
       | None => Raise IndexError
       end.

(** [s[n:]] *)
Fixpoint drop (n : nat) (s : string) : string :=
  match n, s with
  | O, _ => s
  | S n', String _ s' => drop n' s'
  | S _, EmptyString => EmptyString
  end.

(** [\d] *)
Definition isdigit (c : ascii) : bool :=
  let n := nat_of_ascii c in (48 <=? n)%nat && (n <=? 57)%nat.

Definition digit_value (c : ascii) : Z := Z.of_nat (nat_of_ascii c) - 48.

(** The longest run of digits at the start of [s]: what a greedy [\d*]
    matches there. *)
Fixpoint take_digits (s : string) : string :=
  match s with
  | EmptyString => EmptyString
  | String c s' => if isdigit c then String c (take_digits s') else EmptyString
  end.

Fixpoint digits_only (s : string) : bool :=
  match s with
  | EmptyString => true
  | String c s' => isdigit c && digits_only s'
  end.

(** [int(ds)] on a string of digits. *)
Fixpoint int_of_digits_acc (acc : Z) (ds : string) : Z :=
  match ds with
  | EmptyString => acc
  | String c ds' => int_of_digits_acc (10 * acc + digit_value c) ds'
  end.

Definition int (ds : string) : Z := int_of_digits_acc 0 ds.

Definition digit_char (d : Z) : ascii := ascii_of_nat (48 + Z.to_nat d).

(** [str(n)] for [n >= 0], most significant digit first; [fuel] bounds
    the number of digits. *)
Fixpoint decimal_digits (fuel : nat) (n : Z) : string :=
  match fuel with
  | O => EmptyString
  | S fuel' =>
      if n <? 10 then String (digit_char n) EmptyString
      else decimal_digits fuel' (n / 10) ++ String (digit_char (n mod 10)) EmptyString
  end.

Definition decimal (n : Z) : string := decimal_digits (S (Z.to_nat (Z.log2 n))) n.

(** ** Comparisons with constants *)

(** The numeric value of a float when it is an integer. *)
Definition float_eq_int (f : spec_float) (z : Z) : bool :=
  match f with
  | S754_zero _ => z =? 0
  | S754_finite s m e =>
      let sm := if s then Z.neg m else Z.pos m in
      if 0 <=? e then sm * 2 ^ e =? z else sm =? z * 2 ^ (- e)
  | _ => false
  end.

(** [v == z] for an [int] constant [z]: [bool] is a subclass of [int],
    and a float compares by value. *)
Definition eq_int (v : pyval) (z : Z) : bool :=
  match v with
  | PInt n => n =? z
  | PBool b => (if b then 1 else 0) =? z
  | PFloat f => float_eq_int f z
  | _ => false
  end.

(** [v == s] for a [str] constant [s]. *)
Definition eq_str (v : pyval) (s : string) : bool :=
  match v with
  | PStr t => String.eqb t s
  | _ => false
  end.

(** [v is None] *)
Definition is_None (v : pyval) : bool :=
  match v with
  | PNone => true
  | _ => false
  end.

(** ** [dict] *)

Fixpoint dict_get (k : string) (d : list (string * pyval)) : option pyval :=
  match d with
  | [] => None
  | (k', v) :: d' => if String.eqb k' k then Some v else dict_get k d'
  end.

(** [value[key]] *)
Definition subscript (value : pyval) (key : string) : result pyval :=
  match value with
  | PDict d =>
      match dict_get key d with
      | Some v => Ok v
      | None => Raise (KeyError key)
      end
  | _ => Raise TypeError
  end.

(** The same JSON value, up to the order of the keys of its objects:
    every object binds the same keys to the same values. *)
#[warnings="-register-all"]
Inductive reordered : pyval -> pyval -> Prop :=
| reordered_None : reordered PNone PNone
| reordered_Bool b : reordered (PBool b) (PBool b)
| reordered_Int n : reordered (PInt n) (PInt n)
| reordered_Float f : reordered (PFloat f) (PFloat f)
| reordered_Str s : reordered (PStr s) (PStr s)
| reordered_List l l' :
    Forall2 reordered l l' -> reordered (PList l) (PList l')
| reordered_Tuple l l' :
    Forall2 reordered l l' -> reordered (PTuple l) (PTuple l')
| reordered_Dict d d' :
    (forall k, dict_get k d = None <-> dict_get k d' = None) ->
    (forall k v v', dict_get k d = Some v -> dict_get k d' = Some v' ->
                    reordered v v') ->
    reordered (PDict d) (PDict d').

(** ** Iteration and unpacking *)

Fixpoint chars (s : string) : list pyval :=
  match s with
  | EmptyString => []
  | String c s' => PStr (String c EmptyString) :: chars s'
  end.

(** [iter(v)], run to the end. *)
Definition iter (v : pyval) : result (list pyval) :=
  match v with
  | PList l | PTuple l => Ok l
  | PStr s => Ok (chars s)
  | PDict d => Ok (map (fun kv => PStr (fst kv)) d)
  | _ => Raise TypeError
  end.

(** [a, b = v] *)
Definition unpack2 (v : pyval) : result (pyval * pyval) :=
  rbind (iter v) (fun l =>
    match l with
    | [a; b] => Ok (a, b)
    | _ => Raise ValueError
    end).

(** [a, b, c = v] *)
Definition unpack3 (v : pyval) : result (pyval * pyval * pyval) :=
  rbind (iter v) (fun l =>
    match l with
    | [a; b; c] => Ok (a, b, c)
    | _ => Raise ValueError
    end).

(** [a, b, *_ = v] *)
Definition unpack2_star (v : pyval) : result (pyval * pyval) :=
  rbind (iter v) (fun l =>
    match l with
    | a :: b :: _ => Ok (a, b)
    | _ => Raise ValueError
    end).

(** ** Logging *)

Inductive level := TRACE | DEBUG | INFO | WARNING | ERROR.

(** A formatted message: literal text and interpolated values. *)
Inductive fragment :=
| Text (s : string)
| Str (s : string)
| Exn (e : exn).

Definition log_record : Type := level * list fragment.

End Py.

(* ================================================================== *)
(** * The schema language of [streamlink.plugin.api.validate] *)
(* ================================================================== *)

Module Validate.
Import Py.

Inductive pytype := Tint | Tstr | Tbool | Tdict | Tlist.

(** [isinstance(v, t)]; [bool] is a subclass of [int]. *)
Definition isinstance (v : pyval) (t : pytype) : bool :=
  match t, v with
  | Tint, PInt _ | Tint, PBool _ => true
  | Tstr, PStr _ => true
  | Tbool, PBool _ => true
  | Tdict, PDict _ => true
  | Tlist, PList _ => true
  | _, _ => false
  end.

(** The constants the plugins use as schemas: [200] and [None]. *)
Inductive literal := LInt (z : Z) | LNone.

Definition equals (c : literal) (v : pyval) : bool :=
  match c with
  | LInt z => eq_int v z
  | LNone => is_None v
  end.

(** A key of a [dict] schema: plain, or [validate.optional(key)]. *)
Inductive key := Required (k : string) | Optional (k : string).

(** Modelled from the spec: the schema combinators of
    [streamlink.plugin.api.validate], which the plugins import and whose
    code is not part of the two plugin files.  A schema is a tagged
    variant over a type or constant to compare with, an object (field to
    schema, required or optional), an ordered list of alternatives, a
    sequence of steps, a projection of fields into a tuple, a transform
    and the parse-then-validate step for JSON text. *)
#[warnings="-register-all"]
Inductive schema : Type :=
| SType (t : pytype)
| SLiteral (c : literal)
| SDict (fields : list (key * schema))
| SList (alts : list schema)
| SAll (steps : list schema)
| SAny (alts : list schema)
| SNoneOrAll (steps : list schema)
| SGet (item : string)
| SUnion (parts : list schema)
| STransform (f : pyval -> result pyval)
| SParseJson
| SUrl.

(** Modelled from the spec: [validate.union_get(k1, ..., kn)], the
    projection of the fields [k1], ..., [kn] into a tuple. *)
Definition union_get (items : list string) : schema :=
  SUnion (map SGet items).

Section Interpreter.

(** [json.loads] and the URL test of [validate.url()] (a [str] with a
    network location) belong to the Python library. *)
Variable parse_json : string -> option pyval.
Variable is_url : string -> bool.

(** Modelled from the spec: the validation of a value against a schema.
    Alternatives are tried in order and the first that validates wins;
    only a validation failure moves on to the next alternative.  An
    object schema reads the declared fields and ignores every other key
    of the value; a required field that is absent is a mismatch, an
    optional one is left out.  The result of an object schema holds the
    declared fields in the declared order. *)
Fixpoint validate (sch : schema) (value : pyval) {struct sch} : result pyval :=
  match sch with
  | SType t =>
      if isinstance value t then Ok value else Raise ValidationError
  | SLiteral c =>
      if equals c value then Ok value else Raise ValidationError
  | SDict fields =>
      match value with
      | PDict d =>
          rbind
            ((fix each (fs : list (key * schema)) : result (list (string * pyval)) :=
                match fs with
                | [] => Ok []
                | (Optional k, sub) :: fs' =>
                    match dict_get k d with
                    | None => each fs'
                    | Some v =>
                        rbind (validate sub v) (fun x =>
                        rbind (each fs') (fun new => Ok ((k, x) :: new)))
                    end
                | (Required k, sub) :: fs' =>
                    match dict_get k d with
                    | None => Raise ValidationError
                    | Some v =>
                        rbind (validate sub v) (fun x =>
                        rbind (each fs') (fun new => Ok ((k, x) :: new)))
                    end
                end) fields)
            (fun new => Ok (PDict new))
      | _ => Raise ValidationError
      end
  | SList alts =>
      match value with
      | PList vs =>
          let any_schemas :=
            (fix any (l : list schema) (v : pyval) : result pyval :=
               match l with
               | [] => Raise ValidationError
               | s :: l' =>
                   match validate s v with
                   | Raise ValidationError => any l' v
                   | r => r
                   end
               end) alts in
          rbind
            ((fix each (l : list pyval) : result (list pyval) :=
                match l with
                | [] => Ok []
                | v :: l' =>
                    rbind (any_schemas v) (fun x =>
                    rbind (each l') (fun xs => Ok (x :: xs)))
                end) vs)
            (fun xs => Ok (PList xs))
      | _ => Raise ValidationError
      end
  | SAll steps =>
      (fix all (l : list schema) (v : pyval) : result pyval :=
         match l with
         | [] => Ok v
         | s :: l' => rbind (validate s v) (all l')
         end) steps value
  | SAny alts =>
      (fix any (l : list schema) : result pyval :=
         match l with
         | [] => Raise ValidationError
         | s :: l' =>
             match validate s value with
             | Raise ValidationError => any l'
             | r => r
             end
         end) alts
  | SNoneOrAll steps =>
      if is_None value then Ok value
      else
        (fix all (l : list schema) (v : pyval) : result pyval :=
           match l with
           | [] => Ok v
           | s :: l' => rbind (validate s v) (all l')
           end) steps value
  | SGet item =>
      match value with
      | PDict d =>
          match dict_get item d with
          | Some v => Ok v
          | None => Ok PNone
          end
      | _ => Raise TypeError
      end
  | SUnion parts =>
      rbind
        ((fix each (l : list schema) : result (list pyval) :=
            match l with
            | [] => Ok []
            | s :: l' =>
                rbind (validate s value) (fun x =>
                rbind (each l') (fun xs => Ok (x :: xs)))
            end) parts)
        (fun xs => Ok (PTuple xs))
  | STransform f => f value
  | SParseJson =>
      match value with
      | PStr text =>
          match parse_json text with
          | Some v => Ok v
          | None => Raise ValidationError
          end
      | _ => Raise ValidationError
      end
  | SUrl =>
      match value with
      | PStr s => if is_url s then Ok value else Raise ValidationError
      | _ => Raise ValidationError
      end
  end.

(** Modelled from the spec: [validate.Schema(...)] applied by the HTTP
    session to a response text: the steps in sequence; a value that no
    shape matches fails the call, with a [PluginError]. *)
Definition Schema (steps : list schema) (value : pyval) : result pyval :=
  match validate (SAll steps) value with
  | Raise ValidationError => Raise (PluginError "Unable to validate response text")
  | r => r
  end.

End Interpreter.

End Validate.

(* ================================================================== *)
(** * [streamlink/plugins/chzzk.py] *)
(* ================================================================== *)

Module Chzzk.
Import Py Validate.

(** ** [ChzzkAPI] *)

Definition _CHANNELS_LIVE_DETAIL_URL (channel_id : string) : string :=
  "https://api.chzzk.naver.com/service/v2/channels/" ++ channel_id ++ "/live-detail".

(** The three shapes of a response, in the order [validate.any] tries
    them; [schemas] is what the endpoint declares for [content]. *)
Definition error_shape : schema :=
  SAll [ SDict [ (Required "code", SType Tint);
                 (Required "message", SType Tstr) ];
         STransform (fun data =>
           rbind (subscript data "message") (fun message =>
           Ok (PTuple [PStr "error"; message]))) ].

Definition empty_shape : schema :=
  SAll [ SDict [ (Required "code", SLiteral (LInt 200));
                 (Required "content", SLiteral LNone) ];
         STransform (fun _ => Ok (PTuple [PStr "success"; PNone])) ].

Definition data_shape (schemas : list schema) : schema :=
  SAll ([ SDict [ (Required "code", SLiteral (LInt 200));
                  (Required "content", SType Tdict) ];
          SGet "content" ]
        ++ schemas
        ++ [ STransform (fun data => Ok (PTuple [PStr "success"; data])) ]).

Definition _query_api_schema (schemas : list schema) : list schema :=
  [ SParseJson;
    SAny [ error_shape; empty_shape; data_shape schemas ] ].

(** The schema [get_live_detail] declares for [content]. *)
Definition media_schema : schema :=
  SAll [ SDict [ (Required "mediaId", SType Tstr);
                 (Required "protocol", SType Tstr);
                 (Required "path", SUrl) ];
         union_get ["mediaId"; "protocol"; "path"] ].

(** [validate.any(str, None)] *)
Definition any_str_None : schema := SAny [SType Tstr; SLiteral LNone].

Definition channel_schema : schema :=
  SAll [ SDict [ (Required "channelName", SType Tstr) ];
         SGet "channelName" ].

Definition playback_schema : schema :=
  SNoneOrAll [ SType Tstr;
               SParseJson;
               SDict [ (Required "media", SList [ media_schema ]) ];
               SGet "media" ].

Definition live_detail_fields : schema :=
  SDict [ (Required "status", SType Tstr);
          (Required "liveId", SType Tint);
          (Required "liveTitle", any_str_None);
          (Required "liveCategory", any_str_None);
          (Required "adult", SType Tbool);
          (Required "channel", channel_schema);
          (Required "livePlaybackJson", playback_schema) ].

Definition live_detail_schemas : list schema :=
  [ live_detail_fields;
    union_get [ "livePlaybackJson"; "status"; "liveId"; "channel";
                "liveCategory"; "liveTitle"; "adult" ] ].

(** What one call of the stream handle sees of the outside: the reply
    of the HTTP session to a GET with [acceptable_status=(200, 400, 404)]
    (the response text, or the error raised), the variant playlist at a
    media path with the URIs of the playlists [parse_m3u8] finds in it,
    and the clock. *)
Record network := {
  http_get : string -> result string;
  _fetch_variant_playlist : pyval -> result string;
  parse_m3u8 : string -> result (list string);
  time : Q
}.

Section WithLibrary.

Variable parse_json : string -> option pyval.
Variable is_url : string -> bool.

(** The schema applied to a response text. *)
Definition classify (schemas : list schema) (text : string) : result pyval :=
  Schema parse_json is_url (_query_api_schema schemas) (PStr text).

Definition _query_api (net : network) (url : string) (schemas : list schema)
  : result pyval :=
  rbind (http_get net url) (classify schemas).

Definition get_live_detail (net : network) (channel_id : string) : result pyval :=
  _query_api net (_CHANNELS_LIVE_DETAIL_URL channel_id) live_detail_schemas.

(** ** [ChzzkHLSStream] *)

Record ChzzkHLSStream := {
  _url : string;
  _channel_id : string
}.

(** The handle and the module logger. *)
Record world := {
  stream : ChzzkHLSStream;
  log : list log_record
}.

(** A method: it may update the world and then returns or raises. *)
Definition M (A : Type) : Type := world -> result A * world.

Definition ret {A} (a : A) : M A := fun w => (Ok a, w).

Definition raise {A} (e : exn) : M A := fun w => (Raise e, w).

Definition bind {A B} (m : M A) (k : A -> M B) : M B :=
  fun w =>
    match m w with
    | (Ok a, w') => k a w'
    | (Raise e, w') => (Raise e, w')
    end.

Definition lift {A} (r : result A) : M A := fun w => (r, w).

Definition get_url : M string := fun w => (Ok (_url (stream w)), w).

(** The world after [self._url = u]. *)
Definition url_set (u : string) (w : world) : world :=
  {| stream := {| _url := u; _channel_id := _channel_id (stream w) |};
     log := log w |}.

(** The world after one more record went to the logger. *)
Definition logged (lv : level) (msg : list fragment) (w : world) : world :=
  {| stream := stream w; log := log w ++ [(lv, msg)] |}.

Definition set_url (u : string) : M unit := fun w => (Ok tt, url_set u w).

Definition get_channel_id : M string :=
  fun w => (Ok (_channel_id (stream w)), w).

Definition log_ (lv : level) (msg : list fragment) : M unit :=
  fun w => (Ok tt, logged lv msg w).

Notation "x <- m ;; k" := (bind m (fun x => k))
  (at level 61, m at next level, right associativity).
Notation "' pat <- m ;; k" := (bind m (fun x => match x with pat => k end))
  (at level 61, pat pattern, m at next level, right associativity).
Notation "m ;; k" := (bind m (fun _ => k))
  (at level 61, right associativity).

(** [_EXPIRE.match(s)], group 1 of a match of [exp=(\d+)] at the start
    of [s]: the literal, then as many digits as there are, at least one. *)
Definition _EXPIRE_match (s : string) : option string :=
  if startswith s "exp=" then
    match take_digits (drop 4 s) with
    | EmptyString => None
    | ds => Some ds
    end
  else None.

(** [_EXPIRE.search(s)], group 1 of the leftmost match of [exp=(\d+)]. *)
Fixpoint _EXPIRE_search (s : string) : option string :=
  match _EXPIRE_match s with
  | Some ds => Some ds
  | None =>
      match s with
      | EmptyString => None
      | String _ s' => _EXPIRE_search s'
      end
  end.

Definition _REFRESH_BEFORE : Z := 3 * 60 * 60.

Definition _get_media_uri (net : network) (media_path : pyval) : result string :=
  rbind (_fetch_variant_playlist net media_path) (fun res =>
  rbind (parse_m3u8 net res) (fun playlists =>
  getitem playlists 0)).

Definition _get_token_from (path : string) : result string :=
  getitem (split "/" path) (-2).

Definition _replace_token_from (media_uri : string) : M unit :=
  url <- get_url ;;
  prev_token <- lift (_get_token_from url) ;;
  current_token <- lift (_get_token_from media_uri) ;;
  set_url (replace url prev_token current_token).

(** The loop of [refresh_playlist] over the media descriptors. *)
Fixpoint refresh_from_media (net : network) (media : list pyval) : M unit :=
  match media with
  | [] => ret tt
  | item :: rest =>
      '(media_id, media_protocol, media_path) <- lift (unpack3 item) ;;
      if eq_str media_protocol "HLS" && eq_str media_id "HLS" then
        media_uri <- lift (_get_media_uri net media_path) ;;
        _replace_token_from media_uri ;;
        url <- get_url ;;
        log_ DEBUG [Text "Refreshed the stream URL to "; Str url]
      else refresh_from_media net rest
  end.

Definition refresh_playlist (net : network) : M unit :=
  log_ DEBUG [Text "Refreshing the stream URL to get a new token."] ;;
  channel_id <- get_channel_id ;;
  detail <- lift (get_live_detail net channel_id) ;;
  '(datatype, data) <- lift (unpack2 detail) ;;
  if eq_str datatype "error" then raise (StreamError data None)
  else
    '(media, status) <- lift (unpack2_star data) ;;
    if negb (eq_str status "OPEN") || is_None media then
      raise (StreamError (PStr "Error occurred while refreshing the stream URL.") None)
    else
      items <- lift (iter media) ;;
      refresh_from_media net items.

Definition _expire (url : string) : option Z :=
  match _EXPIRE_search url with
  | Some ds => Some (int ds)
  | None => None
  end.

Definition _should_refresh (net : network) : M bool :=
  url <- get_url ;;
  match _expire url with
  | None => ret false
  | Some expire => ret (Qle_bool (inject_Z (expire - _REFRESH_BEFORE)) (time net))
  end.

(** The [url] property. *)
Definition url (net : network) : M string :=
  should <- _should_refresh net ;;
  (if should : bool then refresh_playlist net else ret tt) ;;
  get_url.

(** ** [ChzzkHLSStreamWorker] *)

(** [err.err.response.status_code]; an attribute that is missing, or read
    on [None], raises [AttributeError]. *)
Definition status_code_of (e : option RequestException) : result Z :=
  match e with
  | None => Raise AttributeError
  | Some rerr =>
      match response rerr with
      | None => Raise AttributeError
      | Some res => Ok (status_code res)
      end
  end.

(** [super_fetch] is [HLSStreamWorker._fetch_playlist]. *)
Definition _fetch_playlist (super_fetch : M string) (net : network) : M string :=
  fun w =>
    match super_fetch w with
    | (Raise (StreamError arg e), w') =>
        (status <- lift (status_code_of e) ;;
         (if 400 <=? status then
            refresh_playlist net ;;
            log_ WARNING [Text "Force-reloading the channel playlist on error: ";
                          Exn (StreamError arg e)]
          else ret tt) ;;
         raise (StreamError arg e)) w'
    | r => r
    end.

End WithLibrary.

(** ** The live-detail payload, field by field

    The values a [content] object must hold for the schema of
    [get_live_detail], and the tuple they make. *)

(** A value that is a [str] or [None]. *)
Definition str_or_None (o : option string) : pyval :=
  match o with
  | Some s => PStr s
  | None => PNone
  end.

(** A media descriptor: id, protocol, path. *)
Definition descriptor : Type := string * string * string.

Definition descriptor_tuple (m : descriptor) : pyval :=
  let '(media_id, protocol, path) := m in
  PTuple [PStr media_id; PStr protocol; PStr path].

(** The JSON object [item] declares the descriptor [m]. *)
Definition declares (is_url : string -> bool) (item : pyval) (m : descriptor)
  : Prop :=
  let '(media_id, protocol, path) := m in
  exists d,
    item = PDict d
    /\ dict_get "mediaId" d = Some (PStr media_id)
    /\ dict_get "protocol" d = Some (PStr protocol)
    /\ dict_get "path" d = Some (PStr path)
    /\ is_url path = true.

(** The value of [livePlaybackJson]: [None], or a text that parses to an
    object whose [media] lists the descriptors. *)
Definition playback_declares (parse_json : string -> option pyval)
    (is_url : string -> bool) (v : pyval) (media : option (list descriptor))
  : Prop :=
  match media with
  | None => v = PNone
  | Some ms =>
      exists text d items,
        v = PStr text
        /\ parse_json text = Some (PDict d)
        /\ dict_get "media" d = Some (PList items)
        /\ Forall2 (declares is_url) items ms
  end.

Definition media_value (media : option (list descriptor)) : pyval :=
  match media with
  | None => PNone
  | Some ms => PList (map descriptor_tuple ms)
  end.

(** The response object [d] with code [code] is not of the error shape:
    the code is not an [int], or there is no [str] under [message]. *)
Definition not_error_shape (d : list (string * pyval)) (code : pyval) : Prop :=
  isinstance code Tint = false
  \/ forall message, dict_get "message" d <> Some (PStr message).

(** ** The anatomy of a playlist URL

    The token is the segment before the last one: the URL reads
    [pre/token/last], where [last] is the final segment with its query
    string. *)

Definition with_token (pre token last : string) : string :=
  pre ++ "/" ++ token ++ "/" ++ last.

(** The token is not empty and is found at one place of the URL only. *)
Definition single_token (pre token last : string) : Prop :=
  token <> "" /\ occurrences token (with_token pre token last) = 1%nat.

(** What a refresh through [net] may leave of the URL [pre/token/last]:
    the URL itself, or the URL with the token of a media URI that [net]
    resolves in the place of [token]. *)
Definition token_swapped (net : network) (pre token last url' : string) : Prop :=
  url' = with_token pre token last
  \/ exists media_path media_uri token',
       _get_media_uri net media_path = Ok media_uri
       /\ _get_token_from media_uri = Ok token'
       /\ url' = with_token pre token' last.

(** A media descriptor that the loop of [refresh_playlist] passes over. *)
Definition not_hls (item : pyval) : Prop :=
  exists media_id media_protocol media_path,
    item = PTuple [media_id; media_protocol; media_path]
    /\ eq_str media_protocol "HLS" && eq_str media_id "HLS" = false.

(** The record [refresh_playlist] logs first. *)
Definition is_refresh_record (r : log_record) : bool :=
  match r with
  | (DEBUG, [Text s]) =>
      String.eqb s "Refreshing the stream URL to get a new token."
  | _ => false
  end.

(** How often [refresh_playlist] was entered, read off the log. *)
Definition refreshes (l : list log_record) : nat :=
  List.length (filter is_refresh_record l).

(** The world after the record that opens a refresh. *)
Definition refreshing (w : world) : world :=
  logged DEBUG [Text "Refreshing the stream URL to get a new token."] w.

(** The world after [url'] became the URL of the handle and went to the
    logger, as at the end of a refresh that found a token. *)
Definition refreshed (url' : string) (w : world) : world :=
  logged DEBUG [Text "Refreshed the stream URL to "; Str url'] (url_set url' w).

(** A failed fetch whose stream error carries a response with a status
    of 400 or more: the test of [ChzzkHLSStreamWorker._fetch_playlist]. *)
Definition http_error {A} (r : result A) : bool :=
  match r with
  | Raise (StreamError _ (Some rerr)) =>
      match response rerr with
      | Some res => 400 <=? status_code res
      | None => false
      end
  | _ => false
  end.

(** ** A sample session

    The texts stand for a live-detail response and for the value of its
    [livePlaybackJson] field; [sample_parse_json] is [json.loads] on
    them.  The response announces an open session with one HLS media
    descriptor, and may carry a [message] next to its [content]. *)

Definition sample_content : pyval :=
  PDict [ ("status", PStr "OPEN");
          ("liveId", PInt 5);
          ("liveTitle", PStr "t");
          ("liveCategory", PStr "c");
          ("adult", PBool false);
          ("channel", PDict [ ("channelName", PStr "n") ]);
          ("livePlaybackJson", PStr "<livePlaybackJson>") ].

Definition sample_playback : pyval :=
  PDict [ ("media",
           PList [ PDict [ ("mediaId", PStr "HLS");
                           ("protocol", PStr "HLS");
                           ("path", PStr "https://x/hls.m3u8") ] ]) ].

Definition sample_low_latency : pyval :=
  PDict [ ("media",
           PList [ PDict [ ("mediaId", PStr "LLHLS");
                           ("protocol", PStr "HLS");
                           ("path", PStr "https://x/llhls.m3u8") ] ]) ].

Definition sample_parse_json (text : string) : option pyval :=
  if String.eqb text "<live-detail, low latency only>" then
    Some (PDict [ ("code", PInt 200); ("message", PNone);
                  ("content",
                   PDict [ ("status", PStr "OPEN");
                           ("liveId", PInt 5);
                           ("liveTitle", PStr "t");
                           ("liveCategory", PStr "c");
                           ("adult", PBool false);
                           ("channel", PDict [ ("channelName", PStr "n") ]);
                           ("livePlaybackJson", PStr "<livePlaybackJson, low latency>") ]) ])
  else if String.eqb text "<livePlaybackJson, low latency>" then
    Some sample_low_latency
  else if String.eqb text "<live-detail, keys in another order>" then
    Some (PDict [ ("content",
                   PDict [ ("livePlaybackJson", PStr "<livePlaybackJson>");
                           ("channel", PDict [ ("channelName", PStr "n") ]);
                           ("adult", PBool false);
                           ("liveCategory", PStr "c");
                           ("liveTitle", PStr "t");
                           ("liveId", PInt 5);
                           ("status", PStr "OPEN") ]);
                  ("message", PNone); ("code", PInt 200) ])
  else if String.eqb text "<live-detail>" then
    Some (PDict [ ("code", PInt 200); ("message", PNone);
                  ("content", sample_content) ])
  else if String.eqb text "<live-detail with message>" then
    Some (PDict [ ("code", PInt 200); ("message", PStr "OK");
                  ("content", sample_content) ])
  else if String.eqb text "<not found>" then
    Some (PDict [ ("code", PInt 4004); ("message", PStr "CHANNEL_NOT_FOUND") ])
  else if String.eqb text "<livePlaybackJson>" then Some sample_playback
  else None.

Definition sample_is_url (s : string) : bool := startswith s "https://".

(** A network whose live-detail endpoint answers [text] and whose
    variant playlist lists [media_uri] first. *)
Definition sample_network (text media_uri : string) (now : Q) : network :=
  {| http_get := fun _ => Ok text;
     _fetch_variant_playlist := fun _ => Ok "#EXTM3U";
     parse_m3u8 := fun _ => Ok [media_uri];
     time := now |}.

Definition sample_world (url : string) : world :=
  {| stream := {| _url := url; _channel_id := "c0ffee" |}; log := [] |}.

(** Two more answers of the live-detail endpoint: a success without
    content, and an open session with three media descriptors, a
    low-latency one before two HLS ones; [sample_more_json] is
    [json.loads] on their texts. *)
Definition sample_more_json (text : string) : option pyval :=
  if String.eqb text "<live-detail, no content>" then
    Some (PDict [ ("code", PInt 200); ("message", PNone); ("content", PNone) ])
  else if String.eqb text "<live-detail, three media>" then
    Some (PDict [ ("code", PInt 200); ("message", PNone);
                  ("content",
                   PDict [ ("status", PStr "OPEN");
                           ("liveId", PInt 5);
                           ("liveTitle", PStr "t");
                           ("liveCategory", PStr "c");
                           ("adult", PBool false);
                           ("channel", PDict [ ("channelName", PStr "n") ]);
                           ("livePlaybackJson",
                            PStr "<livePlaybackJson, three media>") ]) ])
  else if String.eqb text "<livePlaybackJson, three media>" then
    Some (PDict [ ("media",
                   PList [ PDict [ ("mediaId", PStr "LLHLS");
                                   ("protocol", PStr "HLS");
                                   ("path", PStr "https://x/llhls.m3u8") ];
                           PDict [ ("mediaId", PStr "HLS");
                                   ("protocol", PStr "HLS");
                                   ("path", PStr "https://x/hls.m3u8") ];
                           PDict [ ("mediaId", PStr "HLS");
                                   ("protocol", PStr "HLS");
                                   ("path", PStr "https://x/backup.m3u8") ] ]) ])
  else None.

End Chzzk.

(* ================================================================== *)
(** * [streamlink/plugins/afreeca.py] *)
(* ================================================================== *)

Module Afreeca.
Import Py.

(** ** [AfreecaHLSStreamWriter] *)

Record Segment := { uri : string }.

(** [super_should_filter_segment] is [HLSStreamWriter.should_filter_segment]. *)
Definition should_filter_segment
    (super_should_filter_segment : Segment -> bool) (segment : Segment) : bool :=
  contains "preloading" (uri segment) || super_should_filter_segment segment.

(** ** [AfreecaTV] *)

Definition CHANNEL_API_URL : string :=
  "https://live.afreecatv.com/afreeca/player_live_api.php".
Definition CHANNEL_RESULT_OK : Z := 1.
Definition CHANNEL_LOGIN_REQUIRED : Z := -6.

Record Preset := { label : string; name : string }.

(** A value that went through [_schema_channel]: [RESULT] is an [int],
    every other key is optional and read with [channel.get]. *)
Record Channel := {
  RESULT : Z;
  BPWD : option string;
  BNO : option string;
  RMD : option string;
  AID : option string;
  CDN : option string;
  BJNICK : option string;
  TITLE : option string;
  VIEWPRESET : option (list Preset)
}.

(** A value that went through [_schema_stream]. *)
Record StreamInfo := {
  view_url : option string;
  stream_status : string
}.

(** [AfreecaHLSStream(session, url, params={"aid": key})] *)
Record AfreecaHLSStream := {
  stream_url : string;
  aid : option string
}.

Definition streams : Type := list (string * AfreecaHLSStream).

(** [d[k] = v] on a [dict] kept in insertion order. *)
Fixpoint dict_set {V} (k : string) (v : V) (d : list (string * V))
  : list (string * V) :=
  match d with
  | [] => [(k, v)]
  | (k', v') :: d' =>
      if String.eqb k' k then (k, v) :: d' else (k', v') :: dict_set k v d'
  end.

Inductive message :=
| Msg (s : string)
| ReprData (v : pyval)
| ReprChannel (c : Channel).

Inductive cookie_op := clear_cookies | save_cookies.

(** The plugin object, the headers of its HTTP session, what was done to
    the cookie cache, and the module logger. *)
Record AfreecaTV := {
  _authed : bool;
  id : option string;
  author : option string;
  title : option string;
  broadcast_start_time : option string;
  is_live : bool;
  headers : list (string * string);
  cookie_ops : list cookie_op;
  log : list (level * message)
}.

(** What the plugin reads from outside: its options, the match of its
    URL, the replies to its requests, the searches of its four page
    patterns and [datetime.strptime]. *)
Record site := {
  option_username : option string;
  option_password : option string;
  option_stream_password : option string;
  option_purge_credentials : bool;
  plugin_url : string;
  match_username : string;
  match_bno : option string;
  login_reply : string -> string -> result pyval;
  page_text : string -> result string;
  channel_reply : string -> string -> result Channel;
  hls_key_reply : string -> string -> string -> option string -> result Channel;
  stream_info_reply : string -> string -> string -> result StreamInfo;
  _re_bno : string -> option string;
  _re_bjnick : string -> option string;
  _re_title : string -> option string;
  _re_bstart_time : string -> option string;
  strptime : string -> string -> result string
}.

(** *** Control flow

    A statement either falls through to the next one, returns from the
    enclosing function, or raises; what follows a [return] or a raised
    exception in the same block is not run. *)

Inductive outcome (R A : Type) : Type :=
| Next (a : A)
| Return (v : R)
| Raised (e : exn).

Arguments Next {R A} a.
Arguments Return {R A} v.
Arguments Raised {R A} e.

Definition M (R A : Type) : Type := AfreecaTV -> outcome R A * AfreecaTV.

Definition next {R A} (a : A) : M R A := fun st => (Next a, st).

Definition return_ {R A} (v : R) : M R A := fun st => (Return v, st).

Definition raise {R A} (e : exn) : M R A := fun st => (Raised e, st).

Definition bind {R A B} (m : M R A) (k : A -> M R B) : M R B :=
  fun st =>
    match m st with
    | (Next a, st') => k a st'
    | (Return v, st') => (Return v, st')
    | (Raised e, st') => (Raised e, st')
    end.

Definition lift {R A} (r : result A) : M R A :=
  fun st =>
    match r with
    | Ok a => (Next a, st)
    | Raise e => (Raised e, st)
    end.

(** A function body run to its end; falling off the end returns [None]. *)
Definition def {R} (body : M (option R) unit) (st : AfreecaTV)
  : result (option R) * AfreecaTV :=
  match body st with
  | (Next _, st') => (Ok None, st')
  | (Return v, st') => (Ok v, st')
  | (Raised e, st') => (Raise e, st')
  end.

(** A call of a method whose body always returns. *)
Definition call {R A} (f : AfreecaTV -> result A * AfreecaTV) : M R A :=
  fun st =>
    match f st with
    | (Ok a, st') => (Next a, st')
    | (Raise e, st') => (Raised e, st')
    end.

Definition update {R} (f : AfreecaTV -> AfreecaTV) : M R unit :=
  fun st => (Next tt, f st).

Definition read {R A} (f : AfreecaTV -> A) : M R A :=
  fun st => (Next (f st), st).

Notation "x <- m ;; k" := (bind m (fun x => k))
  (at level 61, m at next level, right associativity).
Notation "m ;; k" := (bind m (fun _ => k))
  (at level 61, right associativity).

(** A statement of [_get_streams] that, when it returns, returns [None]. *)
Definition returns_None {A} (m : M (option streams) A) : Prop :=
  forall st v st', m st = (Return v, st') -> v = None.

(** The plugin after one more record went to the logger. *)
Definition logged (lv : level) (msg : message) (st : AfreecaTV) : AfreecaTV :=
  {| _authed := _authed st; id := id st; author := author st; title := title st;
     broadcast_start_time := broadcast_start_time st; is_live := is_live st;
     headers := headers st; cookie_ops := cookie_ops st;
     log := log st ++ [(lv, msg)] |}.

Definition log_ {R} (lv : level) (msg : message) : M R unit :=
  update (logged lv msg).

Definition set__authed {R} (b : bool) : M R unit :=
  update (fun st =>
    {| _authed := b; id := id st; author := author st; title := title st;
       broadcast_start_time := broadcast_start_time st; is_live := is_live st;
       headers := headers st; cookie_ops := cookie_ops st; log := log st |}).

Definition set_id {R} (v : option string) : M R unit :=
  update (fun st =>
    {| _authed := _authed st; id := v; author := author st; title := title st;
       broadcast_start_time := broadcast_start_time st; is_live := is_live st;
       headers := headers st; cookie_ops := cookie_ops st; log := log st |}).

Definition set_author {R} (v : option string) : M R unit :=
  update (fun st =>
    {| _authed := _authed st; id := id st; author := v; title := title st;
       broadcast_start_time := broadcast_start_time st; is_live := is_live st;
       headers := headers st; cookie_ops := cookie_ops st; log := log st |}).

Definition set_title {R} (v : option string) : M R unit :=
  update (fun st =>
    {| _authed := _authed st; id := id st; author := author st; title := v;
       broadcast_start_time := broadcast_start_time st; is_live := is_live st;
       headers := headers st; cookie_ops := cookie_ops st; log := log st |}).

Definition set_broadcast_start_time {R} (v : option string) : M R unit :=
  update (fun st =>
    {| _authed := _authed st; id := id st; author := author st; title := title st;
       broadcast_start_time := v; is_live := is_live st;
       headers := headers st; cookie_ops := cookie_ops st; log := log st |}).

Definition set_is_live {R} (b : bool) : M R unit :=
  update (fun st =>
    {| _authed := _authed st; id := id st; author := author st; title := title st;
       broadcast_start_time := broadcast_start_time st; is_live := b;
       headers := headers st; cookie_ops := cookie_ops st; log := log st |}).

Definition headers_update {R} (new : list (string * string)) : M R unit :=
  update (fun st =>
    {| _authed := _authed st; id := id st; author := author st; title := title st;
       broadcast_start_time := broadcast_start_time st; is_live := is_live st;
       headers := fold_left (fun h kv => dict_set (fst kv) (snd kv) h) new (headers st);
       cookie_ops := cookie_ops st; log := log st |}).

Definition cookies {R} (op : cookie_op) : M R unit :=
  update (fun st =>
    {| _authed := _authed st; id := id st; author := author st; title := title st;
       broadcast_start_time := broadcast_start_time st; is_live := is_live st;
       headers := headers st; cookie_ops := cookie_ops st ++ [op]; log := log st |}).

Section Plugin.

Variable env : site.

Definition _get_channel_info (broadcast username : string) : result Channel :=
  channel_reply env broadcast username.

Definition _get_hls_key (broadcast username quality : string)
    (stream_password : option string) : result Channel :=
  hls_key_reply env broadcast username quality stream_password.

Definition _get_stream_info (broadcast quality rmd : string) : result StreamInfo :=
  stream_info_reply env broadcast quality rmd.

Definition _get_hls_stream (broadcast username quality rmd : string)
    (stream_password : option string) : result (option AfreecaHLSStream) :=
  rbind (_get_hls_key broadcast username quality stream_password) (fun keyjson =>
  if negb (RESULT keyjson =? CHANNEL_RESULT_OK) then Ok None
  else
    let key := AID keyjson in
    rbind (_get_stream_info broadcast quality rmd) (fun info =>
    match view_url info with
    | Some u => Ok (Some {| stream_url := u; aid := key |})
    | None => Ok None
    end)).

(** [data.get("RESULT") != self.CHANNEL_RESULT_OK] on unvalidated JSON. *)
Definition login_failed (data : pyval) : result bool :=
  match data with
  | PDict d =>
      match dict_get "RESULT" d with
      | Some v => Ok (negb (eq_int v CHANNEL_RESULT_OK))
      | None => Ok true
      end
  | _ => Raise AttributeError
  end.

Definition _login (username password : string)
  : AfreecaTV -> result (option bool) * AfreecaTV :=
  def (
    data <- lift (login_reply env username password) ;;
    log_ TRACE (ReprData data) ;;
    failed <- lift (login_failed data) ;;
    (if failed : bool then return_ (Some false) else next tt) ;;
    cookies save_cookies ;;
    return_ (Some true)).

(** The statements written after the [return] of the live-check branch;
    [res] is the page when it was fetched. *)
Definition bstart_time_again (res : option string) : M (option streams) unit :=
  text <- match res with
          | Some text => next text
          | None => raise UnboundLocalError
          end ;;
  match _re_bstart_time env text with
  | None =>
      log_ ERROR (Msg "Could not find broadcast start time.") ;;
      return_ None
  | Some bstart_time =>
      t <- lift (strptime env (bstart_time ++ "+0900") "%Y-%m-%d %H:%M:%S%z") ;;
      set_broadcast_start_time (Some t)
  end.

(** The page branch of [_get_streams], taken when the URL has no
    broadcast number: it yields the number and the page. *)
Definition scrape_page : M (option streams) (string * option string) :=
  text <- lift (page_text env (plugin_url env)) ;;
  match _re_bno env text with
  | None =>
      log_ INFO (Msg "Could not find broadcast number.") ;;
      return_ None
  | Some bno =>
      set_id (Some bno) ;;
      match _re_bjnick env text with
      | None =>
          log_ ERROR (Msg "Could not find BJ nickname.") ;;
          return_ None
      | Some bjnick =>
          set_author (Some bjnick) ;;
          match _re_title env text with
          | None =>
              log_ ERROR (Msg "Could not find broadcast title.") ;;
              return_ None
          | Some title =>
              set_title (Some title) ;;
              match _re_bstart_time env text with
              | None =>
                  log_ ERROR (Msg "Could not find broadcast start time.") ;;
                  return_ None
              | Some bstart_time =>
                  t <- lift (strptime env (bstart_time ++ "+0900")
                                      "%Y-%m-%d %H:%M:%S%z") ;;
                  set_broadcast_start_time (Some t) ;;
                  set_is_live true ;;
                  next (bno, Some text)
              end
          end
      end
  end.

(** [_get_streams] up to the live check: it yields the broadcast number,
    the user name, the stream password and the page when it was fetched. *)
Definition before_live_check
  : M (option streams) (string * string * option string * option string) :=
  let login_username := option_username env in
  let login_password := option_password env in
  let stream_password := option_stream_password env in
  headers_update [("Referer", plugin_url env);
                  ("Origin", "https://play.afreecatv.com")] ;;
  (if option_purge_credentials env then
     cookies clear_cookies ;;
     set__authed false ;;
     log_ INFO (Msg "All credentials were successfully removed")
   else next tt) ;;
  authed <- read _authed ;;
  (if authed : bool then
     log_ DEBUG (Msg "Attempting to authenticate using cached cookies")
   else
     match login_username, login_password with
     | Some (String a u), Some (String b p) =>
         log_ DEBUG (Msg "Attempting to login using username and password") ;;
         ok <- call (_login (String a u) (String b p)) ;;
         match ok with
         | Some true => log_ INFO (Msg "Login was successful")
         | _ => log_ ERROR (Msg "Failed to login")
         end
     | _, _ => next tt
     end) ;;
  let username := match_username env in
  found <- match match_bno env with
           | Some bno => next (bno, None)
           | None => scrape_page
           end ;;
  next (fst found, username, stream_password, snd found).

(** The loop of [_get_streams] over the view presets. *)
Fixpoint each_preset (broadcast username rmd : string)
    (stream_password : option string) (items : list Preset) (acc : streams)
  : M (option streams) streams :=
  match items with
  | [] => next acc
  | item :: rest =>
      if String.eqb (name item) "auto" then
        each_preset broadcast username rmd stream_password rest acc
      else
        hls_stream <- lift (_get_hls_stream broadcast username (name item) rmd
                                            stream_password) ;;
        match hls_stream with
        | Some hls =>
            each_preset broadcast username rmd stream_password rest
                        (dict_set (label item) hls acc)
        | None =>
            each_preset broadcast username rmd stream_password rest acc
        end
  end.

(** [_get_streams] from the call of the channel API on. *)
Definition from_channel (bno username : string) (stream_password : option string)
  : M (option streams) unit :=
  channel <- lift (_get_channel_info bno username) ;;
  log_ TRACE (ReprChannel channel) ;;
  if RESULT channel =? CHANNEL_LOGIN_REQUIRED then
    log_ ERROR (Msg "Login required") ;;
    return_ None
  else if negb (RESULT channel =? CHANNEL_RESULT_OK) then
    return_ None
  else
    match BNO channel, RMD channel with
    | Some (String a b'), Some (String c r') =>
        let broadcast := String a b' in
        let rmd := String c r' in
        set_id (BNO channel) ;;
        set_author (BJNICK channel) ;;
        set_title (TITLE channel) ;;
        set_is_live true ;;
        items <- match VIEWPRESET channel with
                 | Some items => next items
                 | None => raise TypeError
                 end ;;
        found <- each_preset broadcast username rmd stream_password items [] ;;
        match found, BPWD channel with
        | [], Some "Y" =>
            log_ ERROR (Msg "Stream is password protected") ;;
            return_ None
        | _, _ => return_ (Some found)
        end
    | _, _ => return_ None
    end.

(** [_get_streams]; [after_return] stands at the place of the statements
    written after the [return] of the live-check branch. *)
Definition _get_streams_with
    (after_return : option string -> M (option streams) unit)
    (live_check_only : bool) : AfreecaTV -> result (option streams) * AfreecaTV :=
  def (
    vars <- before_live_check ;;
    let '(bno, username, stream_password, res) := vars in
    (if live_check_only : bool then
       @return_ _ unit None ;;
       after_return res
     else next tt) ;;
    from_channel bno username stream_password).

Definition _get_streams (live_check_only : bool)
  : AfreecaTV -> result (option streams) * AfreecaTV :=
  _get_streams_with bstart_time_again live_check_only.

End Plugin.

(** *** A sample run

    A plugin object just created without cached cookies, and a site
    reached by a URL that carries the broadcast number, whose channel API
    answers with the given [RESULT]. *)

Definition new_plugin : AfreecaTV :=
  {| _authed := false; id := None; author := None; title := None;
     broadcast_start_time := None; is_live := false;
     headers := []; cookie_ops := []; log := [] |}.

Definition sample_channel (result : Z) : Channel :=
  {| RESULT := result; BPWD := None; BNO := Some "250001";
     RMD := Some "https://rmd.example"; AID := None; CDN := None;
     BJNICK := Some "bj"; TITLE := Some "on air";
     VIEWPRESET := Some [ {| label := "original"; name := "original" |} ] |}.

Definition sample_site (result : Z) : site :=
  {| option_username := None;
     option_password := None;
     option_stream_password := None;
     option_purge_credentials := false;
     plugin_url := "https://play.afreecatv.com/bj/250001";
     match_username := "bj";
     match_bno := Some "250001";
     login_reply := fun _ _ => Raise (PluginError "unreachable");
     page_text := fun _ => Raise (PluginError "unreachable");
     channel_reply := fun _ _ => Ok (sample_channel result);
     hls_key_reply := fun _ _ _ _ =>
       Ok {| RESULT := 1; BPWD := None; BNO := None; RMD := None;
             AID := Some "key"; CDN := None; BJNICK := None; TITLE := None;
             VIEWPRESET := None |};
     stream_info_reply := fun _ _ _ =>
       Ok {| view_url := Some "https://cdn.example/live/playlist.m3u8";
             stream_status := "1" |};
     _re_bno := fun _ => None;
     _re_bjnick := fun _ => None;
     _re_title := fun _ => None;
     _re_bstart_time := fun _ => None;
     strptime := fun _ _ => Raise ValueError |}.

End Afreeca.

(* ================================================================== *)
(** * The plugin class of [streamlink/plugins/chzzk.py] *)
(* ================================================================== *)

Module ChzzkPlugin.
Import Py Validate Chzzk.

(** ** The plugin matchers *)

(** [[^/?]+] at the start of [s], greedy: the longest run of characters
    that are neither a slash nor a question mark. *)
Fixpoint take_id (s : string) : string :=
  match s with
  | EmptyString => EmptyString
  | String c s' =>
      if Ascii.eqb c "/" || Ascii.eqb c "?" then EmptyString
      else String c (take_id s')
  end.

(** What is left of [s] after the literal [p], when [s] starts with it. *)
Definition after (p s : string) : option string :=
  if startswith s p then Some (drop (String.length p) s) else None.

(** [re.match] of [https?://chzzk\.naver\.com/<kind>/(?P<id>[^/?]+)] on a
    URL: the named group of the match at the start of the URL. *)
Definition pattern_match (kind url : string) : option string :=
  match after "http" url with
  | None => None
  | Some rest =>
      let rest := match after "s" rest with
                  | Some rest' => rest'
                  | None => rest
                  end in
      match after ("://chzzk.naver.com/" ++ kind ++ "/") rest with
      | None => None
      | Some rest =>
          match take_id rest with
          | EmptyString => None
          | id => Some id
          end
      end
  end.

Definition live_match : string -> option string := pattern_match "live".
Definition video_match : string -> option string := pattern_match "video".
Definition clip_match : string -> option string := pattern_match "clips".

(** ** The other endpoints of [ChzzkAPI] *)

Definition _VIDEOS_URL (video_id : string) : string :=
  "https://api.chzzk.naver.com/service/v2/videos/" ++ video_id.

Definition _CLIP_URL (clip_id : string) : string :=
  "https://api.chzzk.naver.com/service/v1/play-info/clip/" ++ clip_id.

(** [validate.any(int, None)] *)
Definition any_int_None : schema := SAny [SType Tint; SLiteral LNone].

Definition videos_fields : schema :=
  SDict [ (Required "inKey", any_str_None);
          (Required "videoNo", any_int_None);
          (Required "videoId", any_str_None);
          (Required "videoTitle", any_str_None);
          (Required "videoCategory", any_str_None);
          (Required "adult", SType Tbool);
          (Required "channel", channel_schema) ].

Definition videos_schemas : list schema :=
  [ videos_fields;
    union_get [ "adult"; "inKey"; "videoId"; "videoNo"; "channel";
                "videoTitle"; "videoCategory" ] ].

Definition clips_fields : schema :=
  SDict [ (Optional "inKey", any_str_None);
          (Optional "videoId", any_str_None);
          (Required "contentId", SType Tstr);
          (Required "contentTitle", SType Tstr);
          (Required "adult", SType Tbool);
          (Required "ownerChannel", channel_schema) ].

Definition clips_schemas : list schema :=
  [ clips_fields;
    SUnion [ SGet "adult"; SGet "inKey"; SGet "videoId"; SGet "contentId";
             SGet "ownerChannel"; SGet "contentTitle";
             STransform (fun _ => Ok PNone) ] ].

(** ** [Chzzk] *)

Definition _API_VOD_PLAYBACK_URL (video_id in_key : string) : string :=
  "https://apis.naver.com/neonplayer/vodplay/v2/playback/" ++ video_id
  ++ "?key=" ++ in_key.

Definition _STATUS_OPEN : string := "OPEN".

(** What goes to the module logger: a value handed over as it is, or a
    text. *)
Inductive message :=
| Value (v : pyval)
| Literal (s : string).

(** The plugin object with the metadata of the [Plugin] base class, and
    the module logger. *)
Record plugin := {
  id : pyval;
  author : pyval;
  category : pyval;
  title : pyval;
  is_live : bool;
  log : list (level * message)
}.

Definition logged (lv : level) (msg : message) (self : plugin) : plugin :=
  {| id := id self; author := author self; category := category self;
     title := title self; is_live := is_live self;
     log := log self ++ [(lv, msg)] |}.

(** The plugin after [self.id], [self.author], [self.category] and
    [self.title] were assigned. *)
Definition with_metadata (id' author' category' title' : pyval) (self : plugin)
  : plugin :=
  {| id := id'; author := author'; category := category'; title := title';
     is_live := is_live self; log := log self |}.

Definition with_is_live (b : bool) (self : plugin) : plugin :=
  {| id := id self; author := author self; category := category self;
     title := title self; is_live := b; log := log self |}.

(** [bool(v)] *)
Definition truthy (v : pyval) : bool :=
  match v with
  | PNone => false
  | PBool b => b
  | PInt n => negb (n =? 0)
  | PFloat f => match f with S754_zero _ => false | _ => true end
  | PStr s => negb (String.eqb s "")
  | PList l | PTuple l => match l with [] => false | _ => true end
  | PDict d => match d with [] => false | _ => true end
  end.

(** [f"This stream is {'for adults only' if adult else 'unavailable'}"] *)
Definition unavailable (adult : pyval) : message :=
  Literal ("This stream is "
           ++ (if truthy adult then "for adults only" else "unavailable")).

(** [a, b, c, d, e, f, g = v] *)
Definition unpack7 (v : pyval)
  : result (pyval * pyval * pyval * pyval * pyval * pyval * pyval) :=
  rbind (iter v) (fun l =>
    match l with
    | [a; b; c; d; e; f; g] => Ok (a, b, c, d, e, f, g)
    | _ => Raise ValueError
    end).

(** [a, b, c, *rest = v] *)
Definition unpack3_star (v : pyval) : result (pyval * pyval * pyval * list pyval) :=
  rbind (iter v) (fun l =>
    match l with
    | a :: b :: c :: rest => Ok (a, b, c, rest)
    | _ => Raise ValueError
    end).

(** [a, b, c, d = l] for a list [l] *)
Definition unpack4 (l : list pyval) : result (pyval * pyval * pyval * pyval) :=
  match l with
  | [a; b; c; d] => Ok (a, b, c, d)
  | _ => Raise ValueError
  end.

Section WithSession.

Variable parse_json : string -> option pyval.
Variable is_url : string -> bool.

Definition get_videos (net : network) (video_id : string) : result pyval :=
  _query_api parse_json is_url net (_VIDEOS_URL video_id) videos_schemas.

Definition get_clips (net : network) (clip_id : string) : result pyval :=
  _query_api parse_json is_url net (_CLIP_URL clip_id) clips_schemas.

(** *** [_get_live] *)

(** The streams of a variant playlist, and
    [ChzzkHLSStream.parse_variant_playlist] on a media path for a
    channel: what it returns, or the exception it raises. *)
Variable Streams : Type.
Variable parse_variant_playlist : pyval -> string -> result Streams.

(** The loop of [_get_live] over the media descriptors. *)
Fixpoint live_from_media (channel_id : string) (media : list pyval)
  : result (option Streams) :=
  match media with
  | [] => Ok None
  | item :: rest =>
      rbind (unpack3 item) (fun '(media_id, media_protocol, media_path) =>
      if eq_str media_protocol "HLS" && eq_str media_id "HLS" then
        rbind (parse_variant_playlist media_path channel_id) (fun found =>
        Ok (Some found))
      else live_from_media channel_id rest)
  end.

Definition _get_live (net : network) (channel_id : string) (live_check_only : bool)
    (self : plugin) : result (option Streams) * plugin :=
  match rbind (get_live_detail parse_json is_url net channel_id) unpack2 with
  | Raise e => (Raise e, self)
  | Ok (datatype, data) =>
      if eq_str datatype "error" then (Ok None, logged ERROR (Value data) self)
      else if is_None data then (Ok None, self)
      else
        match unpack7 data with
        | Raise e => (Raise e, self)
        | Ok (media, status, id', author', category', title', adult) =>
            let self := with_metadata id' author' category' title' self in
            if negb (eq_str status _STATUS_OPEN) then
              (Ok None, logged DEBUG (Literal "The stream is not live.") self)
            else if is_None media then
              (Ok None, logged ERROR (unavailable adult) self)
            else
              let self := with_is_live true self in
              if live_check_only then (Ok None, self)
              else
                (rbind (iter media) (live_from_media channel_id), self)
        end
  end.

(** *** [_get_vod_playback]

    The method is a generator; it is modelled run to its end: the items
    it yielded in order, how it ended, and the plugin it left. *)

(** The streams of a DASH manifest; [DASHStream.parse_manifest] on a URL
    with the items of the [dict] it returns; the value of
    [stream.video_representation.mimeType], or the exception its
    evaluation raises; and the text [str.format] puts for a value, which
    for a [str] is the string itself. *)
Variable DASH : Type.
Variable parse_manifest : string -> result (list (string * DASH)).
Variable mimeType : DASH -> result pyval.
Variable format_ : pyval -> string.

(** The loop of [_get_vod_playback] over the streams of the manifest. *)
Fixpoint each_stream (items : list (string * DASH))
  : list (string * DASH) * result unit :=
  match items with
  | [] => ([], Ok tt)
  | (name, stream) :: rest =>
      match mimeType stream with
      | Raise e => ([], Raise e)
      | Ok m =>
          if eq_str m "video/mp2t" then
            let '(yielded, r) := each_stream rest in
            ((name, stream) :: yielded, r)
          else each_stream rest
      end
  end.

Definition _get_vod_playback (datatype data : pyval) (self : plugin)
  : list (string * DASH) * result unit * plugin :=
  if eq_str datatype "error" then ([], Ok tt, logged ERROR (Value data) self)
  else
    match unpack3_star data with
    | Raise e => ([], Raise e, self)
    | Ok (adult, in_key, vod_id, metadata) =>
        if is_None in_key || is_None vod_id then
          ([], Ok tt, logged ERROR (unavailable adult) self)
        else
          match unpack4 metadata with
          | Raise e => ([], Raise e, self)
          | Ok (id', author', title', category') =>
              let self := with_metadata id' author' category' title' self in
              match parse_manifest
                      (_API_VOD_PLAYBACK_URL (format_ vod_id) (format_ in_key)) with
              | Raise e => ([], Raise e, self)
              | Ok items => (each_stream items, self)
              end
          end
    end.

(** The call of [_get_vod_playback] with the items of [args] as its two
    positional arguments (a starred argument). *)
Definition _get_vod_playback_star (args : pyval) (self : plugin)
  : list (string * DASH) * result unit * plugin :=
  match iter args with
  | Raise e => ([], Raise e, self)
  | Ok [datatype; data] => _get_vod_playback datatype data self
  | Ok _ => ([], Raise TypeError, self)
  end.

Definition _get_video (net : network) (video_id : string) (self : plugin)
  : list (string * DASH) * result unit * plugin :=
  match get_videos net video_id with
  | Raise e => ([], Raise e, self)
  | Ok args => _get_vod_playback_star args self
  end.

Definition _get_clip (net : network) (clip_id : string) (self : plugin)
  : list (string * DASH) * result unit * plugin :=
  match get_clips net clip_id with
  | Raise e => ([], Raise e, self)
  | Ok args => _get_vod_playback_star args self
  end.

End WithSession.

Arguments live_from_media {Streams} parse_variant_playlist channel_id media.
Arguments _get_live parse_json is_url {Streams} parse_variant_playlist
  net channel_id live_check_only self.
Arguments each_stream {DASH} mimeType items.
Arguments _get_vod_playback {DASH} parse_manifest mimeType format_
  datatype data self.
Arguments _get_vod_playback_star {DASH} parse_manifest mimeType format_ args self.
Arguments _get_video parse_json is_url {DASH} parse_manifest mimeType format_
  net video_id self.
Arguments _get_clip parse_json is_url {DASH} parse_manifest mimeType format_
  net clip_id self.

(** A media descriptor that the loop of [_get_live] passes over. *)
Definition passed_over (item : pyval) : Prop :=
  exists media_id media_protocol media_path,
    item = PTuple [media_id; media_protocol; media_path]
    /\ eq_str media_protocol "HLS" && eq_str media_id "HLS" = false.

(** A stream of a manifest that [_get_vod_playback] yields. *)
Definition is_mp2t {DASH} (mimeType : DASH -> result pyval) (item : string * DASH)
  : bool :=
  match mimeType (snd item) with
  | Ok m => eq_str m "video/mp2t"
  | Raise _ => false
  end.

(** A plugin object just created. *)
Definition new_plugin : plugin :=
  {| id := PNone; author := PNone; category := PNone; title := PNone;
     is_live := false; log := [] |}.

(** A value that is an [int] or [None]. *)
Definition int_or_None (o : option Z) : pyval :=
  match o with
  | Some n => PInt n
  | None => PNone
  end.

(** *** A sample video

    The texts stand for two answers of the video endpoint, one for a
    video that can be played and one for a video kept from the viewer;
    [sample_video_json] is [json.loads] on them. *)

Definition sample_video_json (text : string) : option pyval :=
  if String.eqb text "<video>" then
    Some (PDict [ ("code", PInt 200); ("message", PNone);
                  ("content",
                   PDict [ ("inKey", PStr "key");
                           ("videoNo", PInt 7);
                           ("videoId", PStr "vod");
                           ("videoTitle", PStr "t");
                           ("videoCategory", PStr "c");
                           ("adult", PBool false);
                           ("channel", PDict [ ("channelName", PStr "n") ]) ]) ])
  else if String.eqb text "<adult video>" then
    Some (PDict [ ("code", PInt 200); ("message", PNone);
                  ("content",
                   PDict [ ("inKey", PNone);
                           ("videoNo", PInt 8);
                           ("videoId", PNone);
                           ("videoTitle", PStr "t");
                           ("videoCategory", PNone);
                           ("adult", PBool true);
                           ("channel", PDict [ ("channelName", PStr "n") ]) ]) ])
  else None.

(** A network whose endpoints all answer [text]. *)
Definition sample_video_network (text : string) : network :=
  {| http_get := fun _ => Ok text;
     _fetch_variant_playlist := fun _ => Raise (PluginError "unreachable");
     parse_m3u8 := fun _ => Raise (PluginError "unreachable");
     time := 0 |}.

End ChzzkPlugin.

(* ================================================================== *)
(** * The plugin matcher of [streamlink/plugins/afreeca.py], and what a
      run of the plugin keeps *)
(* ================================================================== *)

Module AfreecaUrl.
Import Py Afreeca.

Section Pattern.

(** [\w], the word characters of the regular expression. *)
Variable word : ascii -> bool.

(** [\w*] at the start of [s], greedy. *)
Fixpoint take_word (s : string) : string :=
  match s with
  | EmptyString => EmptyString
  | String c s' => if word c then String c (take_word s') else EmptyString
  end.

(** [re.match] of
    [https?://play\.afreecatv\.com/(?P<username>\w+)(?:/(?P<bno>:\d+))?]
    on a URL: the groups [username] and [bno] of the match at the start
    of the URL.  The user name is the longest run of word characters; the
    optional group is taken when a slash, a colon and at least one digit
    follow it, with as many digits as there are. *)
Definition url_match (url : string) : option (string * option string) :=
  match ChzzkPlugin.after "http" url with
  | None => None
  | Some rest =>
      let rest := match ChzzkPlugin.after "s" rest with
                  | Some rest' => rest'
                  | None => rest
                  end in
      match ChzzkPlugin.after "://play.afreecatv.com/" rest with
      | None => None
      | Some rest =>
          match take_word rest with
          | EmptyString => None
          | username =>
              let rest := drop (String.length username) rest in
              Some (username,
                    match ChzzkPlugin.after "/" rest with
                    | None => None
                    | Some rest =>
                        match ChzzkPlugin.after ":" rest with
                        | None => None
                        | Some rest =>
                            match take_digits rest with
                            | EmptyString => None
                            | ds => Some (":" ++ ds)
                            end
                        end
                    end)
          end
      end
  end.

End Pattern.

(** Every character of [s] is a word character. *)
Fixpoint all_word (word : ascii -> bool) (s : string) : bool :=
  match s with
  | EmptyString => true
  | String c s' => word c && all_word word s'
  end.

(** [\w] on the ASCII characters: the letters, the digits and the
    underscore. *)
Definition ascii_word (c : ascii) : bool :=
  let n := nat_of_ascii c in
  ((48 <=? n) && (n <=? 57) || (65 <=? n) && (n <=? 90)
   || (97 <=? n) && (n <=? 122) || (n =? 95))%nat.

(** ** What a statement keeps *)

(** The statement [m] leaves the attribute [f] of the plugin as it was,
    however it ends. *)
Definition keeps {R A B} (f : AfreecaTV -> B) (m : M R A) : Prop :=
  forall st o st', m st = (o, st') -> f st' = f st.

(** [d.get(k)] on a [dict] kept in insertion order. *)
Fixpoint lookup {V} (k : string) (d : list (string * V)) : option V :=
  match d with
  | [] => None
  | (k', v) :: d' => if String.eqb k' k then Some v else lookup k d'
  end.

(** The same site with another login endpoint. *)
Definition with_login_reply (f : string -> string -> result pyval) (env : site)
  : site :=
  {| option_username := option_username env;
     option_password := option_password env;
     option_stream_password := option_stream_password env;
     option_purge_credentials := option_purge_credentials env;
     plugin_url := plugin_url env;
     match_username := match_username env;
     match_bno := match_bno env;
     login_reply := f;
     page_text := page_text env;
     channel_reply := channel_reply env;
     hls_key_reply := hls_key_reply env;
     stream_info_reply := stream_info_reply env;
     _re_bno := _re_bno env;
     _re_bjnick := _re_bjnick env;
     _re_title := _re_title env;
     _re_bstart_time := _re_bstart_time env;
     strptime := strptime env |}.

(** The statements of [_get_streams] that authenticate the session:
    with the cached cookies, or with the user name and the password. *)
Definition authenticate (env : site) : M (option streams) unit :=
  authed <- read _authed ;;
  if authed : bool then
    log_ DEBUG (Msg "Attempting to authenticate using cached cookies")
  else
    match option_username env, option_password env with
    | Some (String a u), Some (String b p) =>
        log_ DEBUG (Msg "Attempting to login using username and password") ;;
        ok <- call (_login env (String a u) (String b p)) ;;
        match ok with
        | Some true => log_ INFO (Msg "Login was successful")
        | _ => log_ ERROR (Msg "Failed to login")
        end
    | _, _ => next tt
    end.

(** The metadata of [st1] are those of [st]. *)
Definition same_metadata (st1 st : AfreecaTV) : Prop :=
  id st1 = id st /\ author st1 = author st /\ title st1 = title st
  /\ broadcast_start_time st1 = broadcast_start_time st
  /\ is_live st1 = is_live st.

(** The plugin after the channel answer gave it its metadata and
    marked it as live. *)
Definition marked_live (channel : Channel) (st : AfreecaTV) : AfreecaTV :=
  {| _authed := _authed st; id := BNO channel; author := BJNICK channel;
     title := TITLE channel; broadcast_start_time := broadcast_start_time st;
     is_live := true; headers := headers st; cookie_ops := cookie_ops st;
     log := log st |}.

(** An option of the plugin that is not set, or set to the empty text. *)
Definition unset (o : option string) : Prop := o = None \/ o = Some "".

(** A sample site reached by a URL with a broadcast number, as the
    matcher reads it: the page is fetched and none of the patterns is
    found in it. *)
Definition sample_page_site : site :=
  {| option_username := None;
     option_password := None;
     option_stream_password := None;
     option_purge_credentials := true;
     plugin_url := "https://play.afreecatv.com/bj/250001";
     match_username := "bj";
     match_bno := None;
     login_reply := fun _ _ => Ok (PDict [("RESULT", PInt 1)]);
     page_text := fun _ => Raise (PluginError "Unable to open URL");
     channel_reply := fun _ _ => Raise (PluginError "unreachable");
     hls_key_reply := fun _ _ _ _ => Raise (PluginError "unreachable");
     stream_info_reply := fun _ _ _ => Raise (PluginError "unreachable");
     _re_bno := fun _ => None;
     _re_bjnick := fun _ => None;
     _re_title := fun _ => None;
     _re_bstart_time := fun _ => None;
     strptime := fun _ _ => Raise ValueError |}.

(** A sample site whose broadcast is password protected: the channel
    answer has the only preset ["auto"] and a [BPWD] of ["Y"]. *)
Definition sample_protected_channel : Channel :=
  {| RESULT := 1; BPWD := Some "Y"; BNO := Some "250001";
     RMD := Some "https://rmd.example"; AID := None; CDN := None;
     BJNICK := Some "bj"; TITLE := Some "on air";
     VIEWPRESET := Some [ {| label := "auto"; name := "auto" |} ] |}.

Definition sample_protected_site : site :=
  {| option_username := None;
     option_password := None;
     option_stream_password := None;
     option_purge_credentials := false;
     plugin_url := "https://play.afreecatv.com/bj/:250001";
     match_username := "bj";
     match_bno := Some ":250001";
     login_reply := fun _ _ => Raise (PluginError "unreachable");
     page_text := fun _ => Raise (PluginError "unreachable");
     channel_reply := fun _ _ => Ok sample_protected_channel;
     hls_key_reply := fun _ _ _ _ => Raise (PluginError "unreachable");
     stream_info_reply := fun _ _ _ => Raise (PluginError "unreachable");
     _re_bno := fun _ => None;
     _re_bjnick := fun _ => None;
     _re_title := fun _ => None;
     _re_bstart_time := fun _ => None;
     strptime := fun _ _ => Raise ValueError |}.

End AfreecaUrl.

(* ================================================================== *)
(** * Facts about [str] *)
(* ================================================================== *)

Module PyFacts.
Import Py.

(** *** The methods on small inputs *)

Example split_url :
  split "/" "https://cdn/abc123/chunklist.m3u8?exp=1000"
  = ["https:"; ""; "cdn"; "abc123"; "chunklist.m3u8?exp=1000"].
Proof. reflexivity. Qed.

Example split_empty : split "/" "" = [""].
Proof. reflexivity. Qed.

Example getitem_from_end : getitem ["a"; "b"; "c"] (-2) = Ok "b".
Proof. reflexivity. Qed.

Example getitem_out_of_range : getitem ["a"] (-2) = Raise IndexError.
Proof. reflexivity. Qed.

Example replace_every_occurrence : replace "aaaa" "aa" "b" = "bb".
Proof. reflexivity. Qed.

Example replace_left_to_right : replace "aaa" "aa" "b" = "ba".
Proof. reflexivity. Qed.

Example replace_empty : replace "abc" "" "-" = "-a-b-c-".
Proof. reflexivity. Qed.

Example contains_substring : contains "preloading" "seg-preloading-1.ts" = true.
Proof. reflexivity. Qed.

Example int_leading_zero : int "0042" = 42.
Proof. reflexivity. Qed.

Example decimal_epoch : decimal 1700000000 = "1700000000".
Proof. vm_compute. reflexivity. Qed.

Lemma append_nil_r (s : string) : s ++ "" = s.
Proof. induction s as [|c s IH]; simpl; [reflexivity | now rewrite IH]. Qed.

Lemma append_assoc (a b c : string) : (a ++ b) ++ c = a ++ b ++ c.
Proof. induction a as [|x a IH]; simpl; [reflexivity | now rewrite IH]. Qed.

Lemma length_append (a b : string) :
  String.length (a ++ b) = (String.length a + String.length b)%nat.
Proof. induction a as [|x a IH]; simpl; [reflexivity | now rewrite IH]. Qed.

(** [startswith] is the prefix relation. *)
Lemma startswith_iff (s p : string) :
  startswith s p = true <-> exists r, s = p ++ r.
Proof.
  revert s; induction p as [|a p IH]; intros s; simpl.
  - split; [intros _; now exists s | reflexivity].
  - destruct s as [|b s].
    + split; [discriminate | intros [r H]; discriminate].
    + rewrite andb_true_iff, Ascii.eqb_eq, IH. split.
      * intros [-> [r ->]]. now exists r.
      * intros [r H]. injection H as -> ->. split; [reflexivity | now exists r].
Qed.

Lemma startswith_app (p r : string) : startswith (p ++ r) p = true.
Proof. apply startswith_iff. now exists r. Qed.

(** [contains] is the substring relation. *)
Lemma contains_iff (sub s : string) :
  contains sub s = true <-> exists pre post, s = pre ++ sub ++ post.
Proof.
  induction s as [|c s IH]; simpl.
  - rewrite orb_false_r, startswith_iff. split.
    + intros [r H]. now exists "", r.
    + intros [pre [post H]]. destruct pre; [now exists post | discriminate].
  - rewrite orb_true_iff, startswith_iff, IH. split.
    + intros [[r H] | [pre [post H]]].
      * now exists "", r.
      * exists (String c pre), post. simpl. now rewrite H.
    + intros [pre [post H]]. destruct pre as [|x pre].
      * left. now exists post.
      * right. simpl in H. injection H as _ H. now exists pre, post.
Qed.

Lemma contains_false_iff (sub s : string) :
  contains sub s = false <-> ~ exists pre post, s = pre ++ sub ++ post.
Proof.
  rewrite <- contains_iff. destruct (contains sub s); split; congruence.
Qed.

(** *** [replace] *)

Lemma occurrences_app_le (sub x r : string) :
  (occurrences sub r <= occurrences sub (x ++ r))%nat.
Proof.
  induction x as [|c x IH]; simpl; [destruct r; simpl; lia | lia].
Qed.

Lemma occurrences_here (sub x r : string) :
  (1 <= occurrences sub (x ++ sub ++ r))%nat.
Proof.
  eapply Nat.le_trans; [| apply occurrences_app_le].
  destruct (sub ++ r) eqn:E; simpl; rewrite <- E, startswith_app; lia.
Qed.

Lemma replace_from_skip (old new x r : string) :
  replace_from old new (String.length x) (x ++ r) = replace_from old new 0 r.
Proof.
  induction x as [|c x IH]; simpl; [destruct r; reflexivity | exact IH].
Qed.

(** Without an occurrence of [old] nothing is replaced. *)
Lemma replace_from_absent (old new s : string) :
  occurrences old s = 0%nat -> replace_from old new 0 s = s.
Proof.
  induction s as [|c s IH]; [reflexivity |].
  cbn [occurrences replace_from].
  destruct (startswith (String c s) old) eqn:E; [discriminate |].
  intros H. now rewrite IH.
Qed.

(** A single occurrence of a non-empty [old] is replaced where it is,
    and the text around it is kept. *)
Lemma replace_from_single (old new a b : string) :
  old <> "" ->
  occurrences old (a ++ old ++ b) = 1%nat ->
  replace_from old new 0 (a ++ old ++ b) = a ++ new ++ b.
Proof.
  intros Hne. induction a as [|c a IH]; intros Hocc.
  - destruct old as [|o old]; [congruence |].
    cbn [append] in *. cbn [replace_from].
    pose proof (startswith_app (String o old) b) as Hs. cbn [append] in Hs.
    rewrite Hs. cbn [occurrences] in Hocc. rewrite Hs in Hocc.
    replace (String.length (String o old) - 1)%nat with (String.length old)
      by (cbn [String.length]; lia).
    rewrite (replace_from_skip (String o old) new old b).
    rewrite replace_from_absent; [reflexivity |].
    pose proof (occurrences_app_le (String o old) old b). lia.
  - cbn [append] in *. cbn [replace_from].
    pose proof (occurrences_here old a b) as Hge.
    cbn [occurrences] in Hocc.
    destruct (startswith (String c (a ++ old ++ b)) old) eqn:E; [lia |].
    rewrite IH by lia. reflexivity.
Qed.

Lemma replace_single (old new a b : string) :
  old <> "" ->
  occurrences old (a ++ old ++ b) = 1%nat ->
  replace (a ++ old ++ b) old new = a ++ new ++ b.
Proof.
  intros Hne Hocc. unfold replace. destruct old; [congruence |].
  now apply replace_from_single.
Qed.

(** *** [split] and indexing *)

Lemma contains_char_cons (sep c : ascii) (s : string) :
  contains (String sep "") (String c s) = false <->
  c <> sep /\ contains (String sep "") s = false.
Proof.
  cbn [contains startswith]. rewrite andb_true_r, orb_false_iff, Ascii.eqb_neq.
  split; intros [H1 H2]; split; auto.
Qed.

Lemma split_nonempty (sep : ascii) (s : string) :
  exists seg segs, split sep s = seg :: segs.
Proof.
  destruct s as [|c s]; simpl; [now eexists; eexists |].
  destruct (Ascii.eqb c sep); [now eexists; eexists |].
  destruct (split sep s); now eexists; eexists.
Qed.

Lemma split_no_sep (sep : ascii) (s : string) :
  contains (String sep "") s = false -> split sep s = [s].
Proof.
  induction s as [|c s IH]; [reflexivity |].
  rewrite contains_char_cons. intros [Hc Hs].
  cbn [split]. apply Ascii.eqb_neq in Hc. rewrite Hc, (IH Hs). reflexivity.
Qed.

Lemma split_app_sep (sep : ascii) (a b : string) :
  split sep (a ++ String sep b) = (split sep a ++ split sep b)%list.
Proof.
  induction a as [|c a IH]; cbn [append split].
  - now rewrite Ascii.eqb_refl.
  - destruct (Ascii.eqb c sep); [now rewrite IH |].
    rewrite IH. destruct (split_nonempty sep a) as [seg [segs ->]]. reflexivity.
Qed.

Lemma split_segments (sep : ascii) (s : string) :
  Forall (fun seg => contains (String sep "") seg = false) (split sep s).
Proof.
  induction s as [|c s IH]; cbn [split].
  - constructor; [reflexivity | constructor].
  - destruct (Ascii.eqb c sep) eqn:E.
    + constructor; [reflexivity | exact IH].
    + destruct (split sep s) as [|seg segs].
      * constructor; [| constructor].
        apply contains_char_cons. split; [now apply Ascii.eqb_neq | reflexivity].
      * inversion IH; subst. constructor; [| assumption].
        apply contains_char_cons. split; [now apply Ascii.eqb_neq | assumption].
Qed.

Lemma getitem_In {A} (l : list A) (i : Z) (x : A) :
  getitem l i = Ok x -> In x l.
Proof.
  unfold getitem.
  destruct ((_ <? 0) || _); [discriminate |].
  destruct (nth_error l _) eqn:E; [| discriminate].
  intros H; injection H as <-. eapply nth_error_In; eauto.
Qed.

Lemma getitem_penultimate {A} (l : list A) (x y : A) :
  getitem (l ++ [x; y])%list (-2) = Ok x.
Proof.
  unfold getitem. cbv zeta. rewrite length_app. cbn [List.length].
  change (-2 <? 0) with true. cbv iota.
  assert (H : (-2 + Z.of_nat (List.length l + 2) <? 0)
              || (Z.of_nat (List.length l + 2)
                  <=? -2 + Z.of_nat (List.length l + 2)) = false).
  { apply orb_false_iff. split; [apply Z.ltb_ge | apply Z.leb_gt]; lia. }
  rewrite H.
  replace (Z.to_nat (-2 + Z.of_nat (List.length l + 2))) with (List.length l + 0)%nat
    by lia.
  rewrite nth_error_app2 by lia.
  replace (List.length l + 0 - List.length l)%nat with 0%nat by lia. reflexivity.
Qed.

(** *** Digits *)

Lemma startswith_drop (s p : string) :
  startswith s p = true -> s = p ++ drop (String.length p) s.
Proof.
  revert s; induction p as [|a p IH]; intros s; [reflexivity |].
  destruct s as [|b s]; cbn [startswith]; [discriminate |].
  rewrite andb_true_iff, Ascii.eqb_eq. intros [-> H].
  cbn [String.length drop append]. now rewrite <- (IH s H).
Qed.

Lemma take_digits_app (ds post : string) :
  digits_only ds = true ->
  (forall c r, post = String c r -> isdigit c = false) ->
  take_digits (ds ++ post) = ds.
Proof.
  intros Hds Hpost. induction ds as [|d ds IH]; cbn [append].
  - destruct post as [|c r]; [reflexivity |].
    cbn [take_digits]. now rewrite (Hpost c r eq_refl).
  - cbn [digits_only] in Hds. apply andb_true_iff in Hds as [Hd Hds].
    cbn [take_digits]. now rewrite Hd, IH.
Qed.

Lemma take_digits_split (s : string) :
  digits_only (take_digits s) = true
  /\ exists rest, s = take_digits s ++ rest.
Proof.
  induction s as [|c s [IH1 [rest IH2]]]; cbn [take_digits].
  - split; [reflexivity | now exists ""].
  - destruct (isdigit c) eqn:E.
    + split; [cbn [digits_only]; now rewrite E, IH1 |].
      exists rest. cbn [append]. now rewrite <- IH2.
    + split; [reflexivity | now exists (String c s)].
Qed.

Lemma digit_cases (d : Z) :
  0 <= d < 10 ->
  d = 0 \/ d = 1 \/ d = 2 \/ d = 3 \/ d = 4 \/ d = 5 \/ d = 6 \/ d = 7
  \/ d = 8 \/ d = 9.
Proof. lia. Qed.

Lemma digit_char_value (d : Z) :
  0 <= d < 10 -> digit_value (digit_char d) = d /\ isdigit (digit_char d) = true.
Proof.
  intros H. destruct (digit_cases d H) as [-> | [-> | [-> | [-> | [-> | [-> | [-> | [-> | [-> | ->]]]]]]]]];
    split; reflexivity.
Qed.

Lemma int_of_digits_acc_app (acc : Z) (a b : string) :
  int_of_digits_acc acc (a ++ b) = int_of_digits_acc (int_of_digits_acc acc a) b.
Proof.
  revert acc; induction a as [|c a IH]; intros acc; [reflexivity |].
  cbn [append int_of_digits_acc]. apply IH.
Qed.

(** [int] reads a positional decimal numeral. *)
Lemma int_snoc (ds : string) (d : ascii) :
  int (ds ++ String d "") = 10 * int ds + digit_value d.
Proof. unfold int. now rewrite int_of_digits_acc_app. Qed.

Lemma digits_only_app (a b : string) :
  digits_only (a ++ b) = digits_only a && digits_only b.
Proof.
  induction a as [|c a IH]; [reflexivity |].
  cbn [append digits_only]. now rewrite IH, andb_assoc.
Qed.

Lemma decimal_digits_S (fuel : nat) (n : Z) :
  decimal_digits (S fuel) n
  = if n <? 10 then String (digit_char n) ""
    else decimal_digits fuel (n / 10) ++ String (digit_char (n mod 10)) "".
Proof. reflexivity. Qed.

Lemma decimal_digits_spec (fuel : nat) (n : Z) :
  0 <= n < 2 ^ Z.of_nat (S fuel) ->
  int (decimal_digits (S fuel) n) = n
  /\ digits_only (decimal_digits (S fuel) n) = true
  /\ decimal_digits (S fuel) n <> "".
Proof.
  revert n; induction fuel as [|fuel IH]; intros n Hn;
    rewrite decimal_digits_S; destruct (Z.ltb_spec n 10) as [Hlt | Hge].
  - destruct (digit_char_value n) as [Hv Hd]; [lia |].
    split; [| split].
    + unfold int. cbn [int_of_digits_acc]. lia.
    + cbn [digits_only]. now rewrite Hd.
    + discriminate.
  - change (2 ^ Z.of_nat 1) with 2 in Hn. lia.
  - destruct (digit_char_value n) as [Hv Hd]; [lia |].
    split; [| split].
    + unfold int. cbn [int_of_digits_acc]. lia.
    + cbn [digits_only]. now rewrite Hd.
    + discriminate.
  - assert (Hq : 0 <= n / 10 < 2 ^ Z.of_nat (S fuel)).
    { split; [apply Z.div_pos; lia |].
      apply Z.div_lt_upper_bound; [lia |].
      replace (Z.of_nat (S (S fuel))) with (Z.succ (Z.of_nat (S fuel))) in Hn by lia.
      rewrite Z.pow_succ_r in Hn by lia. lia. }
    destruct (IH _ Hq) as [Hint [Hdigits _]].
    destruct (digit_char_value (n mod 10)) as [Hv Hd].
    { apply Z.mod_pos_bound; lia. }
    split; [| split].
    + rewrite int_snoc, Hint, Hv. symmetry. apply Z.div_mod. lia.
    + rewrite digits_only_app, Hdigits. cbn [digits_only]. now rewrite Hd.
    + destruct (decimal_digits (S fuel) (n / 10)); discriminate.
Qed.

Lemma decimal_spec (n : Z) :
  0 <= n ->
  int (decimal n) = n /\ digits_only (decimal n) = true /\ decimal n <> "".
Proof.
  intros Hn. apply decimal_digits_spec.
  rewrite Nat2Z.inj_succ, Z2Nat.id by apply Z.log2_nonneg.
  destruct (Z.eq_dec n 0) as [-> | Hpos]; [cbn; lia |].
  split; [lia | apply Z.log2_spec; lia].
Qed.

End PyFacts.

(* ================================================================== *)
(** * Properties of the AfreecaTV plugin *)
(* ================================================================== *)

Module AfreecaSpec.
Import Py Afreeca PyFacts.

(** Two continuations that agree give the same sequence. *)
Lemma bind_ext {R A B} (m : M R A) (k1 k2 : A -> M R B) (st : AfreecaTV) :
  (forall a st', k1 a st' = k2 a st') -> bind m k1 st = bind m k2 st.
Proof.
  intros H. unfold bind. destruct (m st) as [[a | v | e] st']; auto.
Qed.

(** C10: a segment whose URI contains ["preloading"] is filtered out;
    for every other segment the writer answers what the base writer
    answers. *)
Theorem should_filter_segment_preloading :
  forall (super_should_filter_segment : Segment -> bool) (segment : Segment),
    ((exists pre post, uri segment = pre ++ "preloading" ++ post) ->
     should_filter_segment super_should_filter_segment segment = true)
    /\ ((~ exists pre post, uri segment = pre ++ "preloading" ++ post) ->
        should_filter_segment super_should_filter_segment segment
        = super_should_filter_segment segment).
Proof.
  intros base segment. unfold should_filter_segment. split; intros H.
  - apply contains_iff in H. now rewrite H.
  - apply contains_false_iff in H. now rewrite H.
Qed.

Lemma should_filter_segment_preloading_witness :
  should_filter_segment (fun _ => false)
    {| uri := "https://cdn.example/live/preloading_0001.ts" |} = true
  /\ should_filter_segment (fun _ => false)
       {| uri := "https://cdn.example/live/seg_0001.ts" |} = false.
Proof.
  split.
  - apply (proj1 (should_filter_segment_preloading (fun _ => false)
                    {| uri := "https://cdn.example/live/preloading_0001.ts" |})).
    exists "https://cdn.example/live/", "_0001.ts". reflexivity.
  - apply (proj2 (should_filter_segment_preloading (fun _ => false)
                    {| uri := "https://cdn.example/live/seg_0001.ts" |})).
    apply contains_false_iff. reflexivity.
Defined.

(** *** Which statements can return a value other than [None] *)

Lemma returns_None_bind {A B} (m : M (option streams) A)
    (k : A -> M (option streams) B) :
  returns_None m -> (forall a, returns_None (k a)) -> returns_None (bind m k).
Proof.
  intros Hm Hk st v st'. unfold bind.
  destruct (m st) as [[a | v0 | e] st0] eqn:E.
  - apply Hk.
  - intros H; injection H as <- _. eapply Hm; eauto.
  - discriminate.
Qed.

Lemma returns_None_next {A} (a : A) : returns_None (next a).
Proof. intros st v st'; discriminate. Qed.

Lemma returns_None_update (f : AfreecaTV -> AfreecaTV) : returns_None (update f).
Proof. intros st v st'; discriminate. Qed.

Lemma returns_None_read {A} (f : AfreecaTV -> A) : returns_None (read f).
Proof. intros st v st'; discriminate. Qed.

Lemma returns_None_lift {A} (r : result A) : returns_None (lift r).
Proof. intros st v st'; unfold lift; destruct r; discriminate. Qed.

Lemma returns_None_call {A} (f : AfreecaTV -> result A * AfreecaTV) :
  returns_None (call f).
Proof.
  intros st v st'; unfold call; destruct (f st) as [[a | e] st0]; discriminate.
Qed.

Lemma returns_None_return {A} : returns_None (@return_ _ A None).
Proof. intros st v st' H; now injection H as <- _. Qed.

Ltac returns_None :=
  repeat first
    [ apply returns_None_next | apply returns_None_update
    | apply returns_None_read | apply returns_None_lift
    | apply returns_None_call | apply returns_None_return
    | apply returns_None_bind; [| intros ?]
    | match goal with
      | |- returns_None (match ?x with _ => _ end) => destruct x
      | |- returns_None (if ?x then _ else _) => destruct x
      end ].

Lemma scrape_page_returns_None (env : site) : returns_None (scrape_page env).
Proof.
  unfold scrape_page, log_, set_id, set_author, set_title,
    set_broadcast_start_time, set_is_live.
  returns_None.
Qed.

Lemma before_live_check_returns_None (env : site) :
  returns_None (before_live_check env).
Proof.
  unfold before_live_check, log_, headers_update, cookies, set__authed.
  returns_None; apply scrape_page_returns_None.
Qed.

(** *** The run after the live check *)

Lemma get_streams_after_check (env : site) after_return (st st1 : AfreecaTV)
    bno username stream_password res :
  before_live_check env st = (Next (bno, username, stream_password, res), st1) ->
  _get_streams_with env after_return false st
  = def (from_channel env bno username stream_password) st1.
Proof.
  intros H. unfold _get_streams_with, def. unfold bind at 1. now rewrite H.
Qed.

Lemma from_channel_login_required (env : site) bno username stream_password
    (st : AfreecaTV) (channel : Channel) :
  _get_channel_info env bno username = Ok channel ->
  RESULT channel = CHANNEL_LOGIN_REQUIRED ->
  from_channel env bno username stream_password st
  = (Return None,
     logged ERROR (Msg "Login required") (logged TRACE (ReprChannel channel) st)).
Proof.
  intros Hreply Hres. unfold from_channel, bind, lift, log_, update, return_.
  now rewrite Hreply, Hres.
Qed.

Lemma from_channel_not_ok (env : site) bno username stream_password
    (st : AfreecaTV) (channel : Channel) :
  _get_channel_info env bno username = Ok channel ->
  RESULT channel <> CHANNEL_LOGIN_REQUIRED ->
  RESULT channel <> CHANNEL_RESULT_OK ->
  from_channel env bno username stream_password st
  = (Return None, logged TRACE (ReprChannel channel) st).
Proof.
  intros Hreply Hlogin Hok. apply Z.eqb_neq in Hlogin, Hok.
  unfold from_channel, bind, lift, log_, update, return_.
  now rewrite Hreply, Hlogin, Hok.
Qed.

Lemma from_channel_streams (env : site) bno username stream_password
    (st st' : AfreecaTV) (found : streams) :
  from_channel env bno username stream_password st = (Return (Some found), st') ->
  exists channel,
    _get_channel_info env bno username = Ok channel
    /\ RESULT channel = CHANNEL_RESULT_OK.
Proof.
  unfold from_channel. unfold bind at 1. unfold lift.
  destruct (_get_channel_info env bno username) as [channel | e]; [| discriminate].
  intros H. exists channel. split; [reflexivity |].
  unfold bind at 1 in H. unfold log_, update in H.
  destruct (RESULT channel =? CHANNEL_LOGIN_REQUIRED); [discriminate |].
  destruct (RESULT channel =? CHANNEL_RESULT_OK) eqn:Hok; [| discriminate].
  now apply Z.eqb_eq in Hok.
Qed.

(** C7: once the channel API has answered, a [RESULT] of -6 ends
    [_get_streams] with the message "Login required" and no stream; any
    other [RESULT] that is not 1 ends it with no stream; streams are
    only ever returned after an answer whose [RESULT] is 1; and a key
    reply whose [RESULT] is not 1 gives no stream for its preset. *)
Theorem channel_result_gate :
  forall (env : site) (st : AfreecaTV),
    (forall bno username stream_password res st1 channel,
        before_live_check env st = (Next (bno, username, stream_password, res), st1) ->
        _get_channel_info env bno username = Ok channel ->
        (RESULT channel = CHANNEL_LOGIN_REQUIRED ->
         _get_streams env false st
         = (Ok None,
            logged ERROR (Msg "Login required")
              (logged TRACE (ReprChannel channel) st1)))
        /\ (RESULT channel <> CHANNEL_RESULT_OK ->
            exists st2, _get_streams env false st = (Ok None, st2)))
    /\ (forall live_check_only found st',
          _get_streams env live_check_only st = (Ok (Some found), st') ->
          exists bno username stream_password res st1 channel,
            before_live_check env st
            = (Next (bno, username, stream_password, res), st1)
            /\ _get_channel_info env bno username = Ok channel
            /\ RESULT channel = CHANNEL_RESULT_OK)
    /\ (forall broadcast username quality rmd stream_password keyjson,
          _get_hls_key env broadcast username quality stream_password = Ok keyjson ->
          RESULT keyjson <> CHANNEL_RESULT_OK ->
          _get_hls_stream env broadcast username quality rmd stream_password
          = Ok None).
Proof.
  intros env st. split; [| split].
  - intros bno username pw res st1 channel Hbefore Hreply.
    unfold _get_streams. rewrite (get_streams_after_check _ _ _ _ _ _ _ _ Hbefore).
    unfold def. split.
    + intros Hres. now rewrite (from_channel_login_required _ _ _ _ _ _ Hreply Hres).
    + intros Hok.
      destruct (Z.eq_dec (RESULT channel) CHANNEL_LOGIN_REQUIRED) as [Hres | Hres].
      * rewrite (from_channel_login_required _ _ _ _ _ _ Hreply Hres). eauto.
      * rewrite (from_channel_not_ok _ _ _ _ _ _ Hreply Hres Hok). eauto.
  - intros lco found st' Hrun.
    unfold _get_streams, _get_streams_with, def in Hrun. unfold bind at 1 in Hrun.
    destruct (before_live_check env st) as [[[[[bno username] pw] res] | v | e] st1]
      eqn:Hbefore; try discriminate.
    + destruct lco; [discriminate |]. cbn [bind next] in Hrun.
      destruct (from_channel env bno username pw st1) as [[[] | v | e] st2] eqn:Hfrom;
        try discriminate.
      injection Hrun as -> ->.
      destruct (from_channel_streams _ _ _ _ _ _ _ Hfrom) as [channel [Hreply Hok]].
      now exists bno, username, pw, res, st1, channel.
    + injection Hrun as -> _.
      now apply before_live_check_returns_None in Hbefore.
  - intros broadcast username quality rmd pw keyjson Hkey Hres.
    unfold _get_hls_stream. rewrite Hkey. cbn [rbind].
    apply Z.eqb_neq in Hres. now rewrite Hres.
Qed.

(** C8: whatever is written after the [return] of the live-check branch,
    [_get_streams] gives the same result and leaves the same state: with
    [live_check_only] the function returns [None] in the state reached at
    the check, and without it the branch is not entered. *)
Theorem bstart_time_again_unreachable :
  forall (env : site) (st : AfreecaTV),
    (forall after_return live_check_only,
        _get_streams_with env after_return live_check_only st
        = _get_streams env live_check_only st)
    /\ (forall after_return vars st1,
          before_live_check env st = (Next vars, st1) ->
          _get_streams_with env after_return true st = (Ok None, st1)).
Proof.
  intros env st. split.
  - intros after_return lco.
    unfold _get_streams, _get_streams_with, def.
    rewrite (bind_ext _ _
               (fun vars =>
                  let '(bno, username, stream_password, res) := vars in
                  (if lco then @return_ _ unit None ;; bstart_time_again env res
                   else next tt) ;;
                  from_channel env bno username stream_password)); [reflexivity |].
    intros [[[bno username] pw] res] st1. destruct lco; reflexivity.
  - intros after_return [[[bno username] pw] res] st1 Hbefore.
    unfold _get_streams_with, def. unfold bind at 1. rewrite Hbefore. reflexivity.
Qed.

Lemma channel_result_gate_witness :
  _get_streams (sample_site (-6)) false new_plugin
  = (Ok None,
     logged ERROR (Msg "Login required")
       (logged TRACE (ReprChannel (sample_channel (-6)))
          (snd (before_live_check (sample_site (-6)) new_plugin)))).
Proof.
  apply (proj1 (proj1 (channel_result_gate (sample_site (-6)) new_plugin)
                  "250001" "bj" None None
                  (snd (before_live_check (sample_site (-6)) new_plugin))
                  (sample_channel (-6)) eq_refl eq_refl)).
  reflexivity.
Defined.

Lemma bstart_time_again_unreachable_witness :
  _get_streams_with (sample_site 1) (fun _ => raise ValueError) true new_plugin
  = (Ok None, snd (before_live_check (sample_site 1) new_plugin)).
Proof.
  apply (proj2 (bstart_time_again_unreachable (sample_site 1) new_plugin)
           (fun _ => raise ValueError) ("250001", "bj", None, None)).
  reflexivity.
Defined.

End AfreecaSpec.

(* ================================================================== *)
(** * Properties of the Chzzk stream handle *)
(* ================================================================== *)

Module ChzzkStreamSpec.
Import Py Validate Chzzk PyFacts.

(** ** The token of a URL *)

Lemma get_token_from_with_token (pre token last : string) :
  contains "/" token = false ->
  contains "/" last = false ->
  _get_token_from (with_token pre token last) = Ok token.
Proof.
  intros Ht Hl. unfold _get_token_from, with_token. cbn [append].
  rewrite split_app_sep, split_app_sep.
  rewrite (split_no_sep _ _ Ht), (split_no_sep _ _ Hl).
  apply getitem_penultimate.
Qed.

Lemma get_token_from_no_slash (path token : string) :
  _get_token_from path = Ok token -> contains "/" token = false.
Proof.
  intros H. apply getitem_In in H.
  pose proof (split_segments "/" path) as Hall.
  rewrite Forall_forall in Hall. now apply Hall.
Qed.

Lemma with_token_replace (pre token token' last : string) :
  single_token pre token last ->
  replace (with_token pre token last) token token' = with_token pre token' last.
Proof.
  intros [Hne Hocc]. unfold with_token in *.
  rewrite <- (append_assoc pre "/" (token ++ "/" ++ last)) in *.
  rewrite replace_single by assumption.
  now rewrite append_assoc.
Qed.

(** ** [_replace_token_from] *)

Lemma replace_token_from_single (pre token last media_uri token' : string)
    (w : world) :
  _url (stream w) = with_token pre token last ->
  contains "/" token = false ->
  contains "/" last = false ->
  single_token pre token last ->
  _get_token_from media_uri = Ok token' ->
  _replace_token_from media_uri w = (Ok tt, url_set (with_token pre token' last) w).
Proof.
  intros Hurl Ht Hl Hsingle Hnew.
  unfold _replace_token_from, bind, get_url, lift, set_url.
  rewrite Hurl, (get_token_from_with_token _ _ _ Ht Hl), Hnew.
  now rewrite with_token_replace.
Qed.

Lemma replace_token_from_raises (media_uri : string) (w : world) (e : exn) (w' : world) :
  _replace_token_from media_uri w = (Raise e, w') -> w' = w.
Proof.
  unfold _replace_token_from, bind, get_url, lift, set_url.
  destruct (_get_token_from (_url (stream w))); [| now intros H; injection H].
  destruct (_get_token_from media_uri); [discriminate | now intros H; injection H].
Qed.

Section KeepsUrl.

Variables (net : network) (pre token last : string).
Hypothesis token_segment : contains "/" token = false.
Hypothesis last_segment : contains "/" last = false.
Hypothesis token_single : single_token pre token last.

Lemma replace_token_from_cases (media_uri : string) (w : world) :
  _url (stream w) = with_token pre token last ->
  _replace_token_from media_uri w
  = match _get_token_from media_uri with
    | Ok token' => (Ok tt, url_set (with_token pre token' last) w)
    | Raise e => (Raise e, w)
    end.
Proof.
  intros Hurl. destruct (_get_token_from media_uri) as [token' | e] eqn:Hnew.
  - now apply replace_token_from_single with (token := token).
  - unfold _replace_token_from, bind, get_url, lift.
    now rewrite Hurl, (get_token_from_with_token _ _ _ token_segment last_segment), Hnew.
Qed.

Lemma refresh_from_media_url (media : list pyval) (w : world) :
  _url (stream w) = with_token pre token last ->
  token_swapped net pre token last
    (_url (stream (snd (refresh_from_media net media w)))).
Proof.
  revert w. induction media as [|item rest IH]; intros w Hurl.
  - left. exact Hurl.
  - cbn [refresh_from_media]. unfold bind at 1. unfold lift at 1.
    destruct (unpack3 item) as [[[media_id media_protocol] media_path] | e];
      [| now left].
    destruct (eq_str media_protocol "HLS" && eq_str media_id "HLS"); [| now apply IH].
    unfold bind at 1. unfold lift at 1.
    destruct (_get_media_uri net media_path) as [media_uri | e] eqn:Huri;
      [| now left].
    unfold bind at 1. rewrite (replace_token_from_cases media_uri w Hurl).
    destruct (_get_token_from media_uri) as [token' | e] eqn:Hnew; [| now left].
    right. now exists media_path, media_uri, token'.
Qed.

Lemma refresh_playlist_url parse_json is_url (w : world) :
  _url (stream w) = with_token pre token last ->
  token_swapped net pre token last
    (_url (stream (snd (refresh_playlist parse_json is_url net w)))).
Proof.
  intros Hurl. unfold refresh_playlist.
  unfold bind at 1. unfold log_ at 1.
  unfold bind at 1. unfold get_channel_id at 1.
  unfold bind at 1. unfold lift at 1.
  destruct (get_live_detail parse_json is_url net _) as [detail | e]; [| now left].
  unfold bind at 1. unfold lift at 1.
  destruct (unpack2 detail) as [[datatype data] | e]; [| now left].
  destruct (eq_str datatype "error"); [now left |].
  unfold bind at 1. unfold lift at 1.
  destruct (unpack2_star data) as [[media status] | e]; [| now left].
  destruct (negb (eq_str status "OPEN") || is_None media); [now left |].
  unfold bind at 1. unfold lift at 1.
  destruct (iter media) as [items | e]; [| now left].
  now apply refresh_from_media_url.
Qed.

End KeepsUrl.

(** C1, where the code departs from it: the token is found by its place
    ([split("/")[-2]]) but put in by its text, and [str.replace] rewrites
    every occurrence of that text.  With the URL
    [https://live.cdn.net/live/chunklist.m3u8?exp=1000] the token is
    [live]; a refresh that resolves the token [fresh] also rewrites the
    host, so the part before the token is not kept. *)
Lemma refresh_rewrites_every_occurrence :
  let w := sample_world "https://live.cdn.net/live/chunklist.m3u8?exp=1000" in
  let net := sample_network "<live-detail>"
                            "https://live.cdn.net/fresh/chunklist.m3u8" 0 in
  let w' := snd (refresh_playlist sample_parse_json sample_is_url net w) in
  _url (stream w) = with_token "https://live.cdn.net" "live" "chunklist.m3u8?exp=1000"
  /\ _get_token_from (_url (stream w)) = Ok "live"
  /\ _url (stream w') = "https://fresh.cdn.net/fresh/chunklist.m3u8?exp=1000"
  /\ ~ exists token',
        _url (stream w')
        = with_token "https://live.cdn.net" token' "chunklist.m3u8?exp=1000".
Proof.
  cbv zeta. split; [reflexivity |]. split; [reflexivity |].
  split; [vm_compute; reflexivity |].
  intros [token' H].
  assert (Hurl : _url (stream (snd (refresh_playlist sample_parse_json sample_is_url
                   (sample_network "<live-detail>"
                      "https://live.cdn.net/fresh/chunklist.m3u8" 0)
                   (sample_world "https://live.cdn.net/live/chunklist.m3u8?exp=1000"))))
                 = "https://fresh.cdn.net/fresh/chunklist.m3u8?exp=1000")
    by (vm_compute; reflexivity).
  rewrite Hurl in H. unfold with_token in H. cbn [append] in H. discriminate H.
Qed.

(** Where the token is single, the refresh keeps the rest: when the
    token of the current URL is not empty and occurs at one place of the
    URL only, a refresh leaves the URL as it is or puts the token of the
    resolved media URI in its place, and keeps everything before and
    after the token, whatever the new token is; when the token the URL
    then holds is again not empty and single, a second refresh in
    succession does the same. *)
Theorem refresh_replaces_single_token :
  forall parse_json is_url (net1 net2 : network) (w : world)
         (pre token last : string),
    _url (stream w) = with_token pre token last ->
    contains "/" token = false ->
    contains "/" last = false ->
    single_token pre token last ->
    let w1 := snd (refresh_playlist parse_json is_url net1 w) in
    let w2 := snd (refresh_playlist parse_json is_url net2 w1) in
    token_swapped net1 pre token last (_url (stream w1))
    /\ exists token1,
         _url (stream w1) = with_token pre token1 last
         /\ contains "/" token1 = false
         /\ (single_token pre token1 last ->
             token_swapped net2 pre token1 last (_url (stream w2))).
Proof.
  intros parse_json is_url net1 net2 w pre token last Hurl Ht Hl Hsingle w1 w2.
  pose proof (refresh_playlist_url net1 pre token last Ht Hl Hsingle
                parse_json is_url w Hurl) as H1.
  fold w1 in H1. split; [exact H1 |].
  destruct H1 as [H1 | [media_path [media_uri [token1 [Huri [Hnew H1]]]]]].
  - exists token. split; [exact H1 |]. split; [exact Ht |].
    intros _. apply refresh_playlist_url; assumption.
  - exists token1. split; [exact H1 |].
    pose proof (get_token_from_no_slash _ _ Hnew) as Ht1.
    split; [exact Ht1 |].
    intros Hnext. apply refresh_playlist_url; assumption.
Qed.

Lemma refresh_replaces_single_token_witness :
  let w := sample_world "https://cdn.example/abc123/chunklist.m3u8?exp=1000" in
  let net1 := sample_network "<live-detail>"
                             "https://edge.example/cdn/chunklist.m3u8" 0 in
  let net2 := sample_network "<live-detail>"
                             "https://edge.example/ghi789/chunklist.m3u8" 0 in
  let w1 := snd (refresh_playlist sample_parse_json sample_is_url net1 w) in
  let w2 := snd (refresh_playlist sample_parse_json sample_is_url net2 w1) in
  token_swapped net1 "https://cdn.example" "abc123" "chunklist.m3u8?exp=1000"
    (_url (stream w1))
  /\ exists token1,
       _url (stream w1)
       = with_token "https://cdn.example" token1 "chunklist.m3u8?exp=1000"
       /\ contains "/" token1 = false
       /\ (single_token "https://cdn.example" token1 "chunklist.m3u8?exp=1000" ->
           token_swapped net2 "https://cdn.example" token1 "chunklist.m3u8?exp=1000"
             (_url (stream w2))).
Proof.
  apply (refresh_replaces_single_token sample_parse_json sample_is_url
           (sample_network "<live-detail>"
                           "https://edge.example/cdn/chunklist.m3u8" 0)
           (sample_network "<live-detail>"
                           "https://edge.example/ghi789/chunklist.m3u8" 0)
           (sample_world "https://cdn.example/abc123/chunklist.m3u8?exp=1000")
           "https://cdn.example" "abc123" "chunklist.m3u8?exp=1000").
  - reflexivity.
  - reflexivity.
  - reflexivity.
  - split; [discriminate | reflexivity].
Defined.

(** ** The [url] property, case by case *)

Lemma url_cases parse_json is_url (net : network) (w : world) :
  url parse_json is_url net w
  = match _expire (_url (stream w)) with
    | None => (Ok (_url (stream w)), w)
    | Some expire =>
        if Qle_bool (inject_Z (expire - _REFRESH_BEFORE)) (time net) then
          match refresh_playlist parse_json is_url net w with
          | (Ok _, w') => (Ok (_url (stream w')), w')
          | (Raise e, w') => (Raise e, w')
          end
        else (Ok (_url (stream w)), w)
    end.
Proof.
  unfold url, _should_refresh, get_url. unfold bind, ret.
  destruct (_expire (_url (stream w))) as [expire |]; [| reflexivity].
  destruct (Qle_bool _ _); [| reflexivity].
  destruct (refresh_playlist parse_json is_url net w) as [[[] | e] w'];
    reflexivity.
Qed.

(** The two refreshes of the sample session, run. *)
Example refresh_twice_sample :
  let w := sample_world "https://cdn.example/abc123/chunklist.m3u8?exp=1000" in
  let net1 := sample_network "<live-detail>"
                             "https://edge.example/def456/chunklist.m3u8" 0 in
  let net2 := sample_network "<live-detail>"
                             "https://edge.example/ghi789/chunklist.m3u8" 0 in
  let w1 := snd (refresh_playlist sample_parse_json sample_is_url net1 w) in
  let w2 := snd (refresh_playlist sample_parse_json sample_is_url net2 w1) in
  _url (stream w1) = "https://cdn.example/def456/chunklist.m3u8?exp=1000"
  /\ _url (stream w2) = "https://cdn.example/ghi789/chunklist.m3u8?exp=1000".
Proof. split; vm_compute; reflexivity. Qed.

(** The expiry of some URLs. *)
Example expire_sample :
  _expire "https://cdn/abc123/chunklist.m3u8?exp=1000" = Some 1000
  /\ _expire "https://cdn/abc123/chunklist.m3u8?hdnts=st=5~exp=1700000000~acl=*"
     = Some 1700000000
  /\ _expire "https://cdn/abc123/chunklist.m3u8" = None
  /\ _expire "https://cdn/abc123/chunklist.m3u8?exp=soon" = None.
Proof. repeat split; vm_compute; reflexivity. Qed.

(** ** The failures of [refresh_playlist] *)

Lemma refresh_playlist_error parse_json is_url (net : network) (w : world)
    (message : pyval) :
  get_live_detail parse_json is_url net (_channel_id (stream w))
  = Ok (PTuple [PStr "error"; message]) ->
  refresh_playlist parse_json is_url net w
  = (Raise (StreamError message None),
     logged DEBUG [Text "Refreshing the stream URL to get a new token."] w).
Proof.
  intros H. unfold refresh_playlist, bind, log_, get_channel_id, lift.
  cbn [logged stream]. now rewrite H.
Qed.

Lemma refresh_playlist_unavailable parse_json is_url (net : network) (w : world)
    (media status : pyval) (rest : list pyval) :
  get_live_detail parse_json is_url net (_channel_id (stream w))
  = Ok (PTuple [PStr "success"; PTuple (media :: status :: rest)]) ->
  eq_str status "OPEN" = false \/ media = PNone ->
  refresh_playlist parse_json is_url net w
  = (Raise (StreamError (PStr "Error occurred while refreshing the stream URL.") None),
     logged DEBUG [Text "Refreshing the stream URL to get a new token."] w).
Proof.
  intros H Hgone. unfold refresh_playlist, bind, log_, get_channel_id, lift.
  cbn [logged stream]. rewrite H. cbn.
  destruct Hgone as [-> | ->]; [reflexivity |].
  now rewrite orb_true_r.
Qed.

(** The stream errors of a refresh: when the live-detail query yields
    the error variant, the refresh raises a stream error that carries the
    message of the API; when it yields data whose status is not ["OPEN"]
    or whose media list is [None], the refresh raises a stream error; in
    both cases the URL of the handle is the one it had. *)
Theorem refresh_playlist_raises :
  forall parse_json is_url (net : network) (w : world),
    (forall message,
        get_live_detail parse_json is_url net (_channel_id (stream w))
        = Ok (PTuple [PStr "error"; message]) ->
        fst (refresh_playlist parse_json is_url net w)
        = Raise (StreamError message None)
        /\ _url (stream (snd (refresh_playlist parse_json is_url net w)))
           = _url (stream w))
    /\ (forall media status rest,
          get_live_detail parse_json is_url net (_channel_id (stream w))
          = Ok (PTuple [PStr "success"; PTuple (media :: status :: rest)]) ->
          eq_str status "OPEN" = false \/ media = PNone ->
          (exists reason,
              fst (refresh_playlist parse_json is_url net w)
              = Raise (StreamError reason None))
          /\ _url (stream (snd (refresh_playlist parse_json is_url net w)))
             = _url (stream w)).
Proof.
  intros parse_json is_url net w. split.
  - intros message H. now rewrite (refresh_playlist_error _ _ _ _ _ H).
  - intros media status rest H Hgone.
    rewrite (refresh_playlist_unavailable _ _ _ _ _ _ _ H Hgone).
    split; [now eexists | reflexivity].
Qed.

Lemma refresh_playlist_raises_witness :
  let net := sample_network "<not found>" "https://x/t/chunklist.m3u8" 0 in
  let w := sample_world "https://cdn.example/abc123/chunklist.m3u8?exp=1000" in
  fst (refresh_playlist sample_parse_json sample_is_url net w)
  = Raise (StreamError (PStr "CHANNEL_NOT_FOUND") None)
  /\ _url (stream (snd (refresh_playlist sample_parse_json sample_is_url net w)))
     = "https://cdn.example/abc123/chunklist.m3u8?exp=1000".
Proof.
  apply (proj1 (refresh_playlist_raises sample_parse_json sample_is_url
                  (sample_network "<not found>" "https://x/t/chunklist.m3u8" 0)
                  (sample_world "https://cdn.example/abc123/chunklist.m3u8?exp=1000"))).
  reflexivity.
Defined.

(** ** A refresh that finds no HLS descriptor *)

Lemma refresh_from_media_not_hls (net : network) (media : list pyval) (w : world) :
  Forall not_hls media -> refresh_from_media net media w = (Ok tt, w).
Proof.
  induction 1 as [|item rest [media_id [media_protocol [media_path [-> Hno]]]] _ IH].
  - reflexivity.
  - cbn [refresh_from_media]. unfold bind, lift. cbn [unpack3 iter rbind].
    now rewrite Hno.
Qed.

Lemma refresh_playlist_not_hls parse_json is_url (net : network) (w : world)
    (media rest : list pyval) :
  get_live_detail parse_json is_url net (_channel_id (stream w))
  = Ok (PTuple [PStr "success"; PTuple (PList media :: PStr "OPEN" :: rest)]) ->
  Forall not_hls media ->
  refresh_playlist parse_json is_url net w
  = (Ok tt, logged DEBUG [Text "Refreshing the stream URL to get a new token."] w).
Proof.
  intros H Hno. unfold refresh_playlist. unfold bind at 1. unfold log_ at 1.
  unfold bind at 1. unfold get_channel_id at 1. cbn [logged stream].
  unfold bind at 1. unfold lift at 1. rewrite H.
  unfold bind at 1. unfold lift at 1. cbn [unpack2 iter rbind].
  cbn [eq_str String.eqb Ascii.eqb Bool.eqb].
  unfold bind at 1. unfold lift at 1. cbn [unpack2_star iter rbind].
  cbn [eq_str is_None negb orb]. rewrite String.eqb_refl. cbn [negb orb].
  unfold bind at 1. unfold lift at 1.
  now apply refresh_from_media_not_hls.
Qed.

(** C9: when the live-detail query succeeds with status ["OPEN"] and a
    non-empty media list none of whose descriptors has both protocol
    ["HLS"] and id ["HLS"], [refresh_playlist] ends without raising and
    leaves the URL as it was, and the [url] property then returns that
    URL whatever the clock says. *)
Theorem refresh_without_hls_keeps_url :
  forall parse_json is_url (net : network) (w : world) (media rest : list pyval),
    get_live_detail parse_json is_url net (_channel_id (stream w))
    = Ok (PTuple [PStr "success"; PTuple (PList media :: PStr "OPEN" :: rest)]) ->
    media <> [] ->
    Forall not_hls media ->
    fst (refresh_playlist parse_json is_url net w) = Ok tt
    /\ _url (stream (snd (refresh_playlist parse_json is_url net w)))
       = _url (stream w)
    /\ fst (url parse_json is_url net w) = Ok (_url (stream w))
    /\ _url (stream (snd (url parse_json is_url net w))) = _url (stream w).
Proof.
  intros parse_json is_url net w media rest H _ Hno.
  pose proof (refresh_playlist_not_hls _ _ _ _ _ _ H Hno) as Hrefresh.
  rewrite Hrefresh. split; [reflexivity |]. split; [reflexivity |].
  rewrite url_cases.
  destruct (_expire (_url (stream w))) as [expire |]; [| split; reflexivity].
  destruct (Qle_bool (inject_Z (expire - _REFRESH_BEFORE)) (time net));
    [| split; reflexivity].
  rewrite Hrefresh. split; reflexivity.
Qed.

Lemma refresh_without_hls_keeps_url_witness :
  let net := sample_network "<live-detail, low latency only>"
                            "https://x/t/chunklist.m3u8" 999999997 in
  let w := sample_world "https://cdn.example/abc123/chunklist.m3u8?exp=1000" in
  fst (refresh_playlist sample_parse_json sample_is_url net w) = Ok tt
  /\ _url (stream (snd (refresh_playlist sample_parse_json sample_is_url net w)))
     = _url (stream w)
  /\ fst (url sample_parse_json sample_is_url net w) = Ok (_url (stream w))
  /\ _url (stream (snd (url sample_parse_json sample_is_url net w)))
     = _url (stream w).
Proof.
  apply (refresh_without_hls_keeps_url sample_parse_json sample_is_url
           (sample_network "<live-detail, low latency only>"
                           "https://x/t/chunklist.m3u8" 999999997)
           (sample_world "https://cdn.example/abc123/chunklist.m3u8?exp=1000")
           [PTuple [PStr "LLHLS"; PStr "HLS"; PStr "https://x/llhls.m3u8"]]
           [PInt 5; PStr "n"; PStr "c"; PStr "t"; PBool false]).
  - reflexivity.
  - discriminate.
  - constructor; [| constructor].
    exists (PStr "LLHLS"), (PStr "HLS"), (PStr "https://x/llhls.m3u8").
    split; reflexivity.
Defined.

(** ** The expiry of a URL *)

Lemma EXPIRE_match_here (ds post : string) :
  ds <> "" ->
  digits_only ds = true ->
  (forall c r, post = String c r -> isdigit c = false) ->
  _EXPIRE_match ("exp=" ++ ds ++ post) = Some ds.
Proof.
  intros Hne Hds Hpost. unfold _EXPIRE_match.
  rewrite startswith_app. cbn [append drop].
  rewrite (take_digits_app _ _ Hds Hpost). destruct ds; congruence.
Qed.

(** A match cannot start before the parameter and end inside it. *)
Lemma EXPIRE_match_straddle (c : ascii) (p rest : string) :
  _EXPIRE_match (String c p) = None ->
  _EXPIRE_match (String c p ++ "exp=" ++ rest) = None.
Proof.
  intros H. unfold _EXPIRE_match in *.
  destruct p as [|c2 [|c3 [|c4 [|c5 p]]]].
  - cbn [append startswith]. now rewrite !andb_false_r.
  - cbn [append startswith]. now rewrite !andb_false_r.
  - cbn [append startswith]. now rewrite !andb_false_r.
  - cbn [append drop]. destruct (startswith _ _); reflexivity.
  - cbn [append startswith drop take_digits] in *.
    destruct (_ && _); [| reflexivity].
    destruct (isdigit c5); [discriminate | reflexivity].
Qed.

Lemma EXPIRE_search_first (pre ds post : string) :
  _EXPIRE_search pre = None ->
  ds <> "" ->
  digits_only ds = true ->
  (forall c r, post = String c r -> isdigit c = false) ->
  _EXPIRE_search (pre ++ "exp=" ++ ds ++ post) = Some ds.
Proof.
  intros Hpre Hne Hds Hpost. induction pre as [|c pre IH].
  - change ("" ++ "exp=" ++ ds ++ post) with ("exp=" ++ ds ++ post).
    assert (Hm := EXPIRE_match_here ds post Hne Hds Hpost).
    cbn [append] in *. cbn [_EXPIRE_search]. now rewrite Hm.
  - cbn [_EXPIRE_search] in Hpre.
    destruct (_EXPIRE_match (String c pre)) eqn:Hm; [discriminate |].
    assert (Hs := EXPIRE_match_straddle c pre (ds ++ post) Hm).
    cbn [append] in *. cbn [_EXPIRE_search]. rewrite Hs. now apply IH.
Qed.

Lemma EXPIRE_match_some (s ds : string) :
  _EXPIRE_match s = Some ds ->
  exists d ds' post,
    ds = String d ds' /\ isdigit d = true /\ s = "exp=" ++ ds ++ post.
Proof.
  unfold _EXPIRE_match. destruct (startswith s "exp=") eqn:Hs; [| discriminate].
  apply startswith_drop in Hs. cbn [String.length] in Hs.
  destruct (take_digits_split (drop 4 s)) as [Hdigits [post Hsplit]].
  destruct (take_digits (drop 4 s)) as [|d ds'] eqn:Ht; [discriminate |].
  intros H; injection H as <-.
  cbn [digits_only] in Hdigits. apply andb_true_iff in Hdigits as [Hd _].
  exists d, ds', post. split; [reflexivity |]. split; [exact Hd |].
  rewrite Hs at 1. now rewrite Hsplit at 1.
Qed.

Lemma EXPIRE_search_some (s ds : string) :
  _EXPIRE_search s = Some ds ->
  exists pre d ds' post,
    isdigit d = true /\ s = pre ++ "exp=" ++ String d ds' ++ post.
Proof.
  induction s as [|c s IH]; cbn [_EXPIRE_search].
  - destruct (_EXPIRE_match "") eqn:Hm; [| discriminate].
    intros _. destruct (EXPIRE_match_some _ _ Hm) as [d [ds' [post [-> [Hd ->]]]]].
    now exists "", d, ds', post.
  - destruct (_EXPIRE_match (String c s)) eqn:Hm.
    + intros _. destruct (EXPIRE_match_some _ _ Hm) as [d [ds' [post [-> [Hd ->]]]]].
      now exists "", d, ds', post.
    + intros H. destruct (IH H) as [pre [d [ds' [post [Hd ->]]]]].
      now exists (String c pre), d, ds', post.
Qed.

Lemma expire_first (pre ds post : string) :
  _expire pre = None ->
  ds <> "" ->
  digits_only ds = true ->
  (forall c r, post = String c r -> isdigit c = false) ->
  _expire (pre ++ "exp=" ++ ds ++ post) = Some (int ds).
Proof.
  intros Hpre Hne Hds Hpost. unfold _expire in *.
  destruct (_EXPIRE_search pre) eqn:E; [discriminate |].
  now rewrite (EXPIRE_search_first _ _ _ E Hne Hds Hpost).
Qed.

Lemma expire_absent (u : string) :
  (forall pre d post, isdigit d = true -> u <> pre ++ "exp=" ++ String d post) ->
  _expire u = None.
Proof.
  intros H. unfold _expire. destruct (_EXPIRE_search u) as [ds |] eqn:E; [| reflexivity].
  destruct (EXPIRE_search_some _ _ E) as [pre [d [ds' [post [Hd Hu]]]]].
  exfalso. apply (H pre d (ds' ++ post) Hd). exact Hu.
Qed.

(** ** Counting the refreshes in the log *)

Lemma refreshes_app (l l' : list log_record) :
  refreshes (l ++ l') = (refreshes l + refreshes l')%nat.
Proof. unfold refreshes. now rewrite filter_app, length_app. Qed.

Lemma refresh_from_media_refreshes (net : network) (media : list pyval) (w : world) :
  refreshes (log (snd (refresh_from_media net media w))) = refreshes (log w).
Proof.
  revert w. induction media as [|item rest IH]; intros w; [reflexivity |].
  cbn [refresh_from_media]. unfold bind at 1. unfold lift at 1.
  destruct (unpack3 item) as [[[media_id media_protocol] media_path] | e];
    [| reflexivity].
  destruct (eq_str media_protocol "HLS" && eq_str media_id "HLS"); [| apply IH].
  unfold bind at 1. unfold lift at 1.
  destruct (_get_media_uri net media_path) as [media_uri | e]; [| reflexivity].
  unfold bind at 1.
  destruct (_replace_token_from media_uri w) as [[[] | e] w'] eqn:Hr.
  - assert (Hlog : log w' = log w).
    { revert Hr. unfold _replace_token_from, bind, get_url, lift, set_url.
      destruct (_get_token_from (_url (stream w))); [| discriminate].
      destruct (_get_token_from media_uri); [| discriminate].
      intros H; injection H as <-. reflexivity. }
    unfold bind, get_url, log_. cbn [snd logged log].
    rewrite refreshes_app, Hlog. cbn. lia.
  - apply replace_token_from_raises in Hr. now subst.
Qed.

(** Every run of [refresh_playlist] leaves exactly one refresh record. *)
Lemma refresh_playlist_refreshes parse_json is_url (net : network) (w : world) :
  refreshes (log (snd (refresh_playlist parse_json is_url net w)))
  = S (refreshes (log w)).
Proof.
  assert (Hfirst : refreshes (log (logged DEBUG
            [Text "Refreshing the stream URL to get a new token."] w))
          = S (refreshes (log w))).
  { cbn [logged log]. rewrite refreshes_app. cbn. lia. }
  unfold refresh_playlist.
  unfold bind at 1. unfold log_ at 1.
  unfold bind at 1. unfold get_channel_id at 1.
  unfold bind at 1. unfold lift at 1.
  destruct (get_live_detail parse_json is_url net _) as [detail | e]; [| exact Hfirst].
  unfold bind at 1. unfold lift at 1.
  destruct (unpack2 detail) as [[datatype data] | e]; [| exact Hfirst].
  destruct (eq_str datatype "error"); [exact Hfirst |].
  unfold bind at 1. unfold lift at 1.
  destruct (unpack2_star data) as [[media status] | e]; [| exact Hfirst].
  destruct (negb (eq_str status "OPEN") || is_None media); [exact Hfirst |].
  unfold bind at 1. unfold lift at 1.
  destruct (iter media) as [items | e]; [| exact Hfirst].
  now rewrite refresh_from_media_refreshes.
Qed.

(** C6, as stated, fails: the pattern [exp=(\d+)] is searched anywhere
    in the URL, so the text [exp=] at the end of another parameter's name
    is found too.  The URL below has the parameter [exp=99999999999], but
    its expiry is 5, read from [texp=5] before it; at the clock 0, long
    before the expiry of the parameter minus three hours, reading [url]
    runs a refresh. *)
Lemma expire_found_inside_a_name :
  let u := "https://cdn/abc123/chunklist.m3u8?texp=5&exp=99999999999" in
  let net := sample_network "<live-detail>"
                            "https://edge.example/def456/chunklist.m3u8" 0 in
  u = "https://cdn/abc123/chunklist.m3u8?texp=5&" ++ "exp=" ++ "99999999999" ++ ""
  /\ int "99999999999" = 99999999999
  /\ _expire u = Some 5
  /\ _expire u <> Some 99999999999
  /\ ~ (inject_Z (99999999999 - 3 * 60 * 60) <= time net)%Q
  /\ refreshes (log (snd (url sample_parse_json sample_is_url net (sample_world u))))
     = 1%nat.
Proof.
  cbv zeta. split; [reflexivity |]. split; [reflexivity |].
  split; [vm_compute; reflexivity |].
  split; [vm_compute; discriminate |].
  split; [unfold Qle; cbn; lia | vm_compute; reflexivity].
Qed.

(** C6, amended: the expiry of a URL is the integer written after the
    leftmost [exp=] that digits follow, wherever in the URL it stands; a
    URL in which no [exp=] is followed by a digit has no expiry, and the
    [url] property then returns it without a refresh; with an expiry, the
    property runs [refresh_playlist] (once, before it answers) exactly
    when the clock has reached the expiry minus three hours, and then
    returns the URL the handle holds. *)
Theorem url_refreshes_before_expiry :
  forall parse_json is_url (net : network) (w : world),
    (forall pre ds post,
        _expire pre = None ->
        ds <> "" ->
        digits_only ds = true ->
        (forall c r, post = String c r -> isdigit c = false) ->
        _expire (pre ++ "exp=" ++ ds ++ post) = Some (int ds))
    /\ (forall pre n post,
          0 <= n ->
          _expire pre = None ->
          (forall c r, post = String c r -> isdigit c = false) ->
          _expire (pre ++ "exp=" ++ decimal n ++ post) = Some n)
    /\ ((forall pre d post,
            isdigit d = true ->
            _url (stream w) <> pre ++ "exp=" ++ String d post) ->
        _expire (_url (stream w)) = None
        /\ url parse_json is_url net w = (Ok (_url (stream w)), w))
    /\ (forall expire,
          _expire (_url (stream w)) = Some expire ->
          (refreshes (log (snd (url parse_json is_url net w)))
           = S (refreshes (log w))
           <-> (inject_Z (expire - 3 * 60 * 60) <= time net)%Q)
          /\ ((inject_Z (expire - 3 * 60 * 60) <= time net)%Q ->
              url parse_json is_url net w
              = match refresh_playlist parse_json is_url net w with
                | (Ok _, w') => (Ok (_url (stream w')), w')
                | (Raise e, w') => (Raise e, w')
                end)
          /\ (~ (inject_Z (expire - 3 * 60 * 60) <= time net)%Q ->
              url parse_json is_url net w = (Ok (_url (stream w)), w))).
Proof.
  intros parse_json is_url net w. split; [| split; [| split]].
  - intros pre ds post. apply expire_first.
  - intros pre n post Hn Hpre Hpost.
    destruct (decimal_spec n Hn) as [Hint [Hdigits Hne]].
    rewrite expire_first by assumption. now rewrite Hint.
  - intros Habsent. pose proof (expire_absent _ Habsent) as Hnone.
    split; [exact Hnone |]. now rewrite url_cases, Hnone.
  - intros expire Hexpire. rewrite url_cases, Hexpire.
    change (3 * 60 * 60) with _REFRESH_BEFORE.
    destruct (Qle_bool (inject_Z (expire - _REFRESH_BEFORE)) (time net)) eqn:Hle.
    + assert (Hq := proj1 (Qle_bool_iff _ _) Hle).
      split; [| split].
      * split; [intros _; exact Hq | intros _].
        pose proof (refresh_playlist_refreshes parse_json is_url net w) as Hcount.
        destruct (refresh_playlist parse_json is_url net w) as [[[] | e] w'];
          exact Hcount.
      * reflexivity.
      * intros Hn. contradiction.
    + assert (Hq : ~ (inject_Z (expire - _REFRESH_BEFORE) <= time net)%Q).
      { intros Hq. apply Qle_bool_iff in Hq. congruence. }
      split; [| split].
      * split; [cbn [snd]; lia | intros Hn; contradiction].
      * intros Hn. contradiction.
      * reflexivity.
Qed.

Lemma url_refreshes_before_expiry_witness :
  let net := sample_network "<live-detail>"
                            "https://edge.example/fresh/chunklist.m3u8" 999999997 in
  let w := sample_world "https://cdn/abc123/chunklist.m3u8?exp=1000" in
  _expire ("https://cdn/abc123/chunklist.m3u8?" ++ "exp=" ++ decimal 1000 ++ "&n=1")
  = Some 1000
  /\ url sample_parse_json sample_is_url net (sample_world "https://cdn/abc123/chunklist.m3u8")
     = (Ok "https://cdn/abc123/chunklist.m3u8",
        sample_world "https://cdn/abc123/chunklist.m3u8")
  /\ url sample_parse_json sample_is_url net w
     = match refresh_playlist sample_parse_json sample_is_url net w with
       | (Ok _, w') => (Ok (_url (stream w')), w')
       | (Raise e, w') => (Raise e, w')
       end.
Proof.
  cbv zeta. split; [| split].
  - apply (proj1 (proj2 (url_refreshes_before_expiry sample_parse_json sample_is_url
             (sample_network "<live-detail>"
                "https://edge.example/fresh/chunklist.m3u8" 999999997)
             (sample_world "https://cdn/abc123/chunklist.m3u8?exp=1000")))).
    + lia.
    + reflexivity.
    + intros c r H. injection H as <- _. reflexivity.
  - apply (proj1 (proj2 (proj2 (url_refreshes_before_expiry sample_parse_json
             sample_is_url
             (sample_network "<live-detail>"
                "https://edge.example/fresh/chunklist.m3u8" 999999997)
             (sample_world "https://cdn/abc123/chunklist.m3u8"))))).
    intros pre d post _ H.
    apply (proj1 (contains_false_iff "exp=" "https://cdn/abc123/chunklist.m3u8")
             eq_refl).
    now exists pre, (String d post).
  - apply (proj1 (proj2 (proj2 (proj2 (proj2 (url_refreshes_before_expiry
             sample_parse_json sample_is_url
             (sample_network "<live-detail>"
                "https://edge.example/fresh/chunklist.m3u8" 999999997)
             (sample_world "https://cdn/abc123/chunklist.m3u8?exp=1000")))) 1000
             eq_refl))).
    unfold Qle; cbn; lia.
Defined.

(** ** The playlist worker *)

(** A failed fetch whose transport error carries a status of 400 or
    more: one refresh, then the original failure again, unless the
    refresh raises, in which case its exception goes up. *)
Lemma fetch_playlist_on_error_status parse_json is_url (super_fetch : M string)
    (net : network) (w w1 : world) (arg : pyval) (rerr : RequestException)
    (res : Response) :
  super_fetch w = (Raise (StreamError arg (Some rerr)), w1) ->
  response rerr = Some res ->
  400 <= status_code res ->
  _fetch_playlist parse_json is_url super_fetch net w
  = match refresh_playlist parse_json is_url net w1 with
    | (Ok _, w2) =>
        (Raise (StreamError arg (Some rerr)),
         logged WARNING [Text "Force-reloading the channel playlist on error: ";
                         Exn (StreamError arg (Some rerr))] w2)
    | (Raise e, w2) => (Raise e, w2)
    end
  /\ refreshes (log (snd (_fetch_playlist parse_json is_url super_fetch net w)))
     = S (refreshes (log w1)).
Proof.
  intros Hsuper Hres Hstatus. unfold _fetch_playlist. rewrite Hsuper.
  unfold status_code_of. rewrite Hres. unfold bind, lift, log_, raise, ret.
  apply Z.leb_le in Hstatus. rewrite Hstatus.
  pose proof (refresh_playlist_refreshes parse_json is_url net w1) as Hcount.
  destruct (refresh_playlist parse_json is_url net w1) as [[[] | e] w2];
    cbn [snd] in *.
  - split; [reflexivity |]. cbn [logged log]. rewrite refreshes_app, Hcount. cbn. lia.
  - split; [reflexivity | exact Hcount].
Qed.

(** A failed fetch with a status below 400 goes up as it is. *)
Lemma fetch_playlist_on_other_status parse_json is_url (super_fetch : M string)
    (net : network) (w w1 : world) (arg : pyval) (rerr : RequestException)
    (res : Response) :
  super_fetch w = (Raise (StreamError arg (Some rerr)), w1) ->
  response rerr = Some res ->
  status_code res < 400 ->
  _fetch_playlist parse_json is_url super_fetch net w
  = (Raise (StreamError arg (Some rerr)), w1).
Proof.
  intros Hsuper Hres Hstatus. unfold _fetch_playlist. rewrite Hsuper.
  unfold status_code_of. rewrite Hres. unfold bind, lift, raise, ret.
  apply Z.leb_gt in Hstatus. now rewrite Hstatus.
Qed.

(** A fetch that succeeds, or fails with another exception than a
    stream error, is not touched. *)
Lemma fetch_playlist_passes parse_json is_url (super_fetch : M string)
    (net : network) (w w1 : world) (r : result string) :
  super_fetch w = (r, w1) ->
  (forall arg e, r <> Raise (StreamError arg e)) ->
  _fetch_playlist parse_json is_url super_fetch net w = (r, w1).
Proof.
  intros Hsuper Hother. unfold _fetch_playlist. rewrite Hsuper.
  destruct r as [res | []]; try reflexivity. now elim (Hother arg err).
Qed.

(** C4, where the code departs from it: a failed fetch whose stream
    error has no transport error, or a transport error with no response
    (a connection error, a timeout), does not go up as it is.  Reading
    [status_code] raises [AttributeError], and that exception goes up in
    its place; no refresh is run and the world is the one the failed
    fetch left. *)
Theorem fetch_playlist_without_response :
  forall parse_json is_url (super_fetch : M string) (net : network)
         (w w1 : world) (arg : pyval) (e : option RequestException),
    super_fetch w = (Raise (StreamError arg e), w1) ->
    e = None \/ (exists rerr, e = Some rerr /\ response rerr = None) ->
    _fetch_playlist parse_json is_url super_fetch net w = (Raise AttributeError, w1).
Proof.
  intros parse_json is_url super_fetch net w w1 arg e Hsuper Hnone.
  unfold _fetch_playlist. rewrite Hsuper.
  assert (Hstatus : status_code_of e = Raise AttributeError).
  { destruct Hnone as [-> | [rerr [-> Hres]]]; [reflexivity |].
    unfold status_code_of. now rewrite Hres. }
  unfold bind, lift. now rewrite Hstatus.
Qed.

Lemma fetch_playlist_without_response_witness :
  _fetch_playlist sample_parse_json sample_is_url
    (fun w => (Raise (StreamError (PStr "Unable to open URL")
                                  (Some {| response := None |})), w))
    (sample_network "<live-detail>" "https://edge.example/fresh/chunklist.m3u8" 0)
    (sample_world "https://cdn.example/abc123/chunklist.m3u8?exp=1000")
  = (Raise AttributeError,
     sample_world "https://cdn.example/abc123/chunklist.m3u8?exp=1000").
Proof.
  apply (fetch_playlist_without_response sample_parse_json sample_is_url
           (fun w => (Raise (StreamError (PStr "Unable to open URL")
                                         (Some {| response := None |})), w))
           (sample_network "<live-detail>"
                           "https://edge.example/fresh/chunklist.m3u8" 0)
           (sample_world "https://cdn.example/abc123/chunklist.m3u8?exp=1000")
           (sample_world "https://cdn.example/abc123/chunklist.m3u8?exp=1000")
           (PStr "Unable to open URL") (Some {| response := None |})).
  - reflexivity.
  - right. now exists {| response := None |}.
Defined.

End ChzzkStreamSpec.

(* ================================================================== *)
(** * Properties of the Chzzk response classification *)
(* ================================================================== *)

Module ChzzkApiSpec.
Import Py Validate Chzzk PyFacts.

Section Classify.

Variable parse_json : string -> option pyval.
Variable is_url : string -> bool.

Lemma error_shape_matches (d : list (string * pyval)) (code : pyval)
    (message : string) :
  dict_get "code" d = Some code ->
  isinstance code Tint = true ->
  dict_get "message" d = Some (PStr message) ->
  validate parse_json is_url error_shape (PDict d)
  = Ok (PTuple [PStr "error"; PStr message]).
Proof.
  intros Hcode Hint Hmsg. unfold error_shape. cbn [validate rbind].
  rewrite Hcode. cbn [rbind]. rewrite Hint. cbn [rbind]. rewrite Hmsg.
  reflexivity.
Qed.

Lemma error_shape_fails (d : list (string * pyval)) (code : pyval) :
  dict_get "code" d = Some code ->
  not_error_shape d code ->
  validate parse_json is_url error_shape (PDict d) = Raise ValidationError.
Proof.
  intros Hcode Hnot. unfold error_shape. cbn [validate rbind]. rewrite Hcode.
  destruct Hnot as [Hint | Hmsg].
  - now rewrite Hint.
  - destruct (isinstance code Tint); [| reflexivity]. cbn [rbind].
    destruct (dict_get "message" d) as [v |] eqn:E; [| reflexivity].
    destruct v; try reflexivity. now elim (Hmsg s).
Qed.

(** C2: a response object with an [int] under [code] and a [str] under
    [message] is classified as the error variant carrying that message,
    whatever else the object holds and whatever the endpoint declares
    for [content]: the error shape is the first alternative. *)
Theorem classify_error :
  forall (schemas : list schema) (text : string) (d : list (string * pyval))
         (code : pyval) (message : string),
    parse_json text = Some (PDict d) ->
    dict_get "code" d = Some code ->
    isinstance code Tint = true ->
    dict_get "message" d = Some (PStr message) ->
    classify parse_json is_url schemas text
    = Ok (PTuple [PStr "error"; PStr message]).
Proof.
  intros schemas text d code message Hparse Hcode Hint Hmsg.
  pose proof (error_shape_matches d code message Hcode Hint Hmsg) as Hshape.
  unfold classify, Schema, _query_api_schema.
  cbn [validate rbind]. rewrite Hparse. cbn [rbind].
  change (validate parse_json is_url error_shape (PDict d)
          = Ok (PTuple [PStr "error"; PStr message])) in Hshape.
  now rewrite Hshape.
Qed.

(** ** The success shapes *)

Lemma empty_shape_matches (d : list (string * pyval)) (code : pyval) :
  dict_get "code" d = Some code ->
  eq_int code 200 = true ->
  dict_get "content" d = Some PNone ->
  validate parse_json is_url empty_shape (PDict d)
  = Ok (PTuple [PStr "success"; PNone]).
Proof.
  intros Hcode H200 Hcontent. unfold empty_shape. cbn [validate rbind].
  rewrite Hcode. cbn [equals rbind]. rewrite H200. cbn [rbind].
  now rewrite Hcontent.
Qed.

Lemma media_schema_declared (item : pyval) (m : descriptor) :
  declares is_url item m ->
  validate parse_json is_url media_schema item = Ok (descriptor_tuple m).
Proof.
  destruct m as [[media_id protocol] path].
  intros [d [-> [Hid [Hprotocol [Hpath Hurl]]]]].
  unfold media_schema, union_get. cbn [validate rbind map].
  rewrite Hid, Hprotocol, Hpath. cbn [isinstance rbind]. rewrite Hurl.
  reflexivity.
Qed.

Lemma media_list_declared (items : list pyval) (ms : list descriptor) :
  Forall2 (declares is_url) items ms ->
  validate parse_json is_url (SList [media_schema]) (PList items)
  = Ok (PList (map descriptor_tuple ms)).
Proof.
  induction 1 as [|item m items ms Hitem _ IH]; [reflexivity |].
  cbn [validate] in *.
  pose proof (media_schema_declared item m Hitem) as Hm.
  rewrite Hm. cbn [rbind].
  match goal with
  | |- rbind (rbind ?loop _) _ = _ => destruct loop as [xs | e]
  end; cbn [rbind] in *; [| discriminate].
  injection IH as ->. reflexivity.
Qed.

Lemma playback_schema_declared (v : pyval) (media : option (list descriptor)) :
  playback_declares parse_json is_url v media ->
  validate parse_json is_url playback_schema v = Ok (media_value media).
Proof.
  destruct media as [ms |]; cbn [playback_declares media_value].
  - intros [text [d [items [-> [Hparse [Hmedia Hitems]]]]]].
    pose proof (media_list_declared items ms Hitems) as Hlist.
    unfold playback_schema. cbn [validate is_None isinstance rbind].
    rewrite Hparse. cbn [rbind]. rewrite Hmedia.
    cbn [validate] in Hlist. rewrite Hlist. reflexivity.
  - intros ->. reflexivity.
Qed.

Section Content.

Variables (c ch : list (string * pyval)).
Variables (status name : string) (liveId playback : pyval).
Variables (liveTitle liveCategory : option string) (adult : bool).
Variable media : option (list descriptor).

Hypothesis content_status : dict_get "status" c = Some (PStr status).
Hypothesis content_liveId : dict_get "liveId" c = Some liveId.
Hypothesis liveId_int : isinstance liveId Tint = true.
Hypothesis content_liveTitle : dict_get "liveTitle" c = Some (str_or_None liveTitle).
Hypothesis content_liveCategory :
  dict_get "liveCategory" c = Some (str_or_None liveCategory).
Hypothesis content_adult : dict_get "adult" c = Some (PBool adult).
Hypothesis content_channel : dict_get "channel" c = Some (PDict ch).
Hypothesis channel_name : dict_get "channelName" ch = Some (PStr name).
Hypothesis content_playback : dict_get "livePlaybackJson" c = Some playback.
Hypothesis playback_media : playback_declares parse_json is_url playback media.

Lemma str_or_None_valid (o : option string) :
  validate parse_json is_url any_str_None (str_or_None o) = Ok (str_or_None o).
Proof. destruct o; reflexivity. Qed.

Lemma channel_schema_valid :
  validate parse_json is_url channel_schema (PDict ch) = Ok (PStr name).
Proof.
  unfold channel_schema. cbn [validate rbind]. now rewrite channel_name.
Qed.

Lemma live_detail_content :
  validate parse_json is_url (SAll live_detail_schemas) (PDict c)
  = Ok (PTuple [ media_value media; PStr status; liveId; PStr name;
                 str_or_None liveCategory; str_or_None liveTitle; PBool adult ]).
Proof.
  pose proof (str_or_None_valid liveTitle) as Htitle.
  pose proof (str_or_None_valid liveCategory) as Hcategory.
  pose proof channel_schema_valid as Hchannel.
  pose proof (playback_schema_declared _ _ playback_media) as Hplayback.
  unfold live_detail_schemas, live_detail_fields, union_get.
  cbn [validate rbind map].
  rewrite content_status. cbn [rbind].
  change (isinstance (PStr status) Tstr) with true. cbn [rbind].
  rewrite content_liveId. cbn [rbind]. rewrite liveId_int. cbn [rbind].
  rewrite content_liveTitle. cbn [rbind]. rewrite Htitle. cbn [rbind].
  rewrite content_liveCategory. cbn [rbind]. rewrite Hcategory. cbn [rbind].
  rewrite content_adult. cbn [rbind].
  change (isinstance (PBool adult) Tbool) with true. cbn [rbind].
  rewrite content_channel. cbn [rbind]. rewrite Hchannel. cbn [rbind].
  rewrite content_playback. cbn [rbind]. rewrite Hplayback. cbn [rbind].
  reflexivity.
Qed.

End Content.

(** Steps in sequence: the first ones, then the others on their result. *)
Lemma validate_all_app (l1 l2 : list schema) (v : pyval) :
  validate parse_json is_url (SAll (l1 ++ l2)) v
  = rbind (validate parse_json is_url (SAll l1) v)
          (validate parse_json is_url (SAll l2)).
Proof.
  revert v. induction l1 as [|s l1 IH]; intros v; [reflexivity |].
  cbn [validate app] in *.
  destruct (validate parse_json is_url s v) as [x | e]; cbn [rbind];
    [apply IH | reflexivity].
Qed.

Lemma data_shape_content (schemas : list schema) (d c : list (string * pyval))
    (code : pyval) :
  dict_get "code" d = Some code ->
  eq_int code 200 = true ->
  dict_get "content" d = Some (PDict c) ->
  validate parse_json is_url (data_shape schemas) (PDict d)
  = rbind (validate parse_json is_url (SAll schemas) (PDict c))
          (fun data => Ok (PTuple [PStr "success"; data])).
Proof.
  intros Hcode H200 Hcontent. unfold data_shape.
  rewrite validate_all_app.
  cbn [validate rbind]. rewrite Hcode. cbn [equals rbind]. rewrite H200.
  cbn [rbind]. rewrite Hcontent. cbn [isinstance rbind].
  change (dict_get "content" [("code", code); ("content", PDict c)])
    with (Some (PDict c)).
  cbn [rbind].
  pose proof (validate_all_app schemas
                [STransform (fun data => Ok (PTuple [PStr "success"; data]))]
                (PDict c)) as Hrest.
  cbn [validate] in Hrest. rewrite Hrest.
  match goal with
  | |- rbind ?r _ = _ => destruct r; reflexivity
  end.
Qed.

(** The three shapes are tried in order on the parsed response. *)
Lemma classify_cases (schemas : list schema) (text : string) (j : pyval) :
  parse_json text = Some j ->
  classify parse_json is_url schemas text
  = match validate parse_json is_url error_shape j with
    | Raise ValidationError =>
        match validate parse_json is_url empty_shape j with
        | Raise ValidationError =>
            match validate parse_json is_url (data_shape schemas) j with
            | Raise ValidationError =>
                Raise (PluginError "Unable to validate response text")
            | r => r
            end
        | r => r
        end
    | r => r
    end.
Proof.
  intros Hparse. unfold classify, Schema, _query_api_schema.
  cbn [validate rbind]. rewrite Hparse. cbn [rbind].
  destruct (validate parse_json is_url error_shape j) as [x | []]; try reflexivity.
  destruct (validate parse_json is_url empty_shape j) as [x | []]; try reflexivity.
  destruct (validate parse_json is_url (data_shape schemas) j) as [x | []];
    reflexivity.
Qed.

Lemma empty_shape_fails (d c : list (string * pyval)) :
  dict_get "content" d = Some (PDict c) ->
  validate parse_json is_url empty_shape (PDict d) = Raise ValidationError.
Proof.
  intros Hcontent. unfold empty_shape. cbn [validate rbind].
  destruct (dict_get "code" d) as [code |]; [| reflexivity].
  destruct (equals (LInt 200) code); [| reflexivity]. cbn [rbind].
  now rewrite Hcontent.
Qed.

End Classify.

(** C3, as stated, fails for the data shape: the error shape is tried
    first, so a response with code 200 and a valid [content] that also
    carries a [str] under [message] is classified as an error. *)
Lemma classify_message_beats_content :
  exists d c,
    sample_parse_json "<live-detail with message>" = Some (PDict d)
    /\ dict_get "code" d = Some (PInt 200)
    /\ dict_get "content" d = Some (PDict c)
    /\ validate sample_parse_json sample_is_url (SAll live_detail_schemas) (PDict c)
       = Ok (PTuple [ PList [PTuple [PStr "HLS"; PStr "HLS"; PStr "https://x/hls.m3u8"]];
                      PStr "OPEN"; PInt 5; PStr "n"; PStr "c"; PStr "t";
                      PBool false ])
    /\ classify sample_parse_json sample_is_url live_detail_schemas
         "<live-detail with message>"
       = Ok (PTuple [PStr "error"; PStr "OK"]).
Proof.
  eexists. eexists. split; [reflexivity |]. split; [reflexivity |].
  split; [reflexivity |]. split; reflexivity.
Qed.

(** ** Reading a reordered object *)

Lemma reordered_get (d d' : list (string * pyval)) (k : string) (v : pyval) :
  reordered (PDict d) (PDict d') ->
  dict_get k d = Some v ->
  exists v', dict_get k d' = Some v' /\ reordered v v'.
Proof.
  intros H Hk. inversion H as [| | | | | | | ? ? Hnone Hsome]; subst.
  destruct (dict_get k d') as [v' |] eqn:E.
  - exists v'. split; [reflexivity | now apply (Hsome k)].
  - apply Hnone in E. congruence.
Qed.

Lemma reordered_get_back (d d' : list (string * pyval)) (k : string) (v' : pyval) :
  reordered (PDict d) (PDict d') ->
  dict_get k d' = Some v' ->
  exists v, dict_get k d = Some v /\ reordered v v'.
Proof.
  intros H Hk. inversion H as [| | | | | | | ? ? Hnone Hsome]; subst.
  destruct (dict_get k d) as [v |] eqn:E.
  - exists v. split; [reflexivity | now apply (Hsome k)].
  - apply Hnone in E. congruence.
Qed.

(** Every value is a reordering of itself, and so is an object whose
    bindings are permuted. *)
Lemma reordered_refl : forall v, reordered v v.
Proof.
  fix IH 1. intros [| b | n | f | s | l | l | d].
  - constructor.
  - constructor.
  - constructor.
  - constructor.
  - constructor.
  - constructor. induction l as [|x l IHl]; constructor; [apply IH | exact IHl].
  - constructor. induction l as [|x l IHl]; constructor; [apply IH | exact IHl].
  - constructor; [intros k; reflexivity |].
    induction d as [|[k0 x] d IHd]; intros k v v'; cbn [dict_get].
    + discriminate.
    + destruct (String.eqb k0 k).
      * intros H1 H2. injection H1 as <-. injection H2 as <-. apply IH.
      * apply IHd.
Qed.

Lemma dict_get_Permutation (d d' : list (string * pyval)) (k : string) :
  NoDup (map fst d) -> Permutation d d' -> dict_get k d' = dict_get k d.
Proof.
  intros Hnd Hperm. induction Hperm as [| [k0 x] d d' Hperm IH
                                       | [k1 x1] [k2 x2] d
                                       | d d' d'' H1 IH1 H2 IH2].
  - reflexivity.
  - cbn [dict_get]. cbn [map fst] in Hnd. inversion Hnd; subst.
    now rewrite IH.
  - cbn [dict_get]. cbn [map fst] in Hnd. inversion Hnd as [| ? ? Hnotin _]; subst.
    destruct (String.eqb_spec k1 k) as [-> | H1]; [| reflexivity].
    destruct (String.eqb_spec k2 k) as [-> | H2]; [| reflexivity].
    elim Hnotin. now left.
  - rewrite IH2, IH1; [reflexivity | assumption |].
    apply (Permutation_NoDup (l := map fst d)); [| assumption].
    now apply Permutation_map.
Qed.

Lemma reordered_Permutation (d d' : list (string * pyval)) :
  NoDup (map fst d) -> Permutation d d' -> reordered (PDict d) (PDict d').
Proof.
  intros Hnd Hperm. constructor.
  - intros k. now rewrite (dict_get_Permutation d d' k Hnd Hperm).
  - intros k v v'. rewrite (dict_get_Permutation d d' k Hnd Hperm).
    intros H1 H2. rewrite H1 in H2. injection H2 as <-. apply reordered_refl.
Qed.

Lemma reordered_isinstance (v v' : pyval) (t : pytype) :
  reordered v v' -> isinstance v' t = isinstance v t.
Proof. intros H. inversion H; subst; reflexivity. Qed.

Lemma reordered_eq_int (v v' : pyval) (z : Z) :
  reordered v v' -> eq_int v' z = eq_int v z.
Proof. intros H. inversion H; subst; reflexivity. Qed.

Lemma reordered_int (v v' : pyval) :
  reordered v v' -> isinstance v Tint = true -> v' = v.
Proof. intros H. inversion H; subst; try reflexivity; discriminate. Qed.

Lemma reordered_not_error_shape (d d' : list (string * pyval)) (code code' : pyval) :
  reordered (PDict d) (PDict d') ->
  reordered code code' ->
  not_error_shape d code ->
  not_error_shape d' code'.
Proof.
  intros Hd Hcode [Hint | Hmsg].
  - left. now rewrite (reordered_isinstance _ _ _ Hcode).
  - right. intros message Hm.
    destruct (reordered_get_back _ _ _ _ Hd Hm) as [v [Hv Hr]].
    inversion Hr; subst. now apply (Hmsg message).
Qed.

(** C3, amended: a response with code 200 that is not of the error
    shape is classified as the empty success when its [content] is
    [null], and, when its [content] is an object that satisfies the
    live-detail schema, as the data success whose payload lists
    [livePlaybackJson], [status], [liveId], [channel], [liveCategory],
    [liveTitle], [adult] in this order; every response that is the same
    JSON value up to the order of its keys gets the same payload. *)
Theorem classify_success :
  forall parse_json is_url (text : string) (d : list (string * pyval))
         (code : pyval),
    parse_json text = Some (PDict d) ->
    dict_get "code" d = Some code ->
    eq_int code 200 = true ->
    not_error_shape d code ->
    (forall schemas,
        dict_get "content" d = Some PNone ->
        classify parse_json is_url schemas text
        = Ok (PTuple [PStr "success"; PNone]))
    /\ (forall c ch status name liveId playback liveTitle liveCategory adult media,
          dict_get "content" d = Some (PDict c) ->
          dict_get "status" c = Some (PStr status) ->
          dict_get "liveId" c = Some liveId ->
          isinstance liveId Tint = true ->
          dict_get "liveTitle" c = Some (str_or_None liveTitle) ->
          dict_get "liveCategory" c = Some (str_or_None liveCategory) ->
          dict_get "adult" c = Some (PBool adult) ->
          dict_get "channel" c = Some (PDict ch) ->
          dict_get "channelName" ch = Some (PStr name) ->
          dict_get "livePlaybackJson" c = Some playback ->
          playback_declares parse_json is_url playback media ->
          let payload :=
            PTuple [ media_value media; PStr status; liveId; PStr name;
                     str_or_None liveCategory; str_or_None liveTitle;
                     PBool adult ] in
          classify parse_json is_url live_detail_schemas text
          = Ok (PTuple [PStr "success"; payload])
          /\ forall text' j',
               parse_json text' = Some j' ->
               reordered (PDict d) j' ->
               classify parse_json is_url live_detail_schemas text'
               = Ok (PTuple [PStr "success"; payload])).
Proof.
  intros parse_json is_url text d code Hparse Hcode H200 Hnot.
  pose proof (error_shape_fails parse_json is_url d code Hcode Hnot) as Herror.
  split.
  - intros schemas Hcontent.
    rewrite (classify_cases _ _ _ _ _ Hparse), Herror.
    now rewrite (empty_shape_matches _ _ _ _ Hcode H200 Hcontent).
  - assert (Hdata : forall text d code c ch status name liveId playback liveTitle
                      liveCategory adult media,
               parse_json text = Some (PDict d) ->
               dict_get "code" d = Some code ->
               eq_int code 200 = true ->
               not_error_shape d code ->
               dict_get "content" d = Some (PDict c) ->
               dict_get "status" c = Some (PStr status) ->
               dict_get "liveId" c = Some liveId ->
               isinstance liveId Tint = true ->
               dict_get "liveTitle" c = Some (str_or_None liveTitle) ->
               dict_get "liveCategory" c = Some (str_or_None liveCategory) ->
               dict_get "adult" c = Some (PBool adult) ->
               dict_get "channel" c = Some (PDict ch) ->
               dict_get "channelName" ch = Some (PStr name) ->
               dict_get "livePlaybackJson" c = Some playback ->
               playback_declares parse_json is_url playback media ->
               classify parse_json is_url live_detail_schemas text
               = Ok (PTuple [ PStr "success";
                              PTuple [ media_value media; PStr status; liveId;
                                       PStr name; str_or_None liveCategory;
                                       str_or_None liveTitle; PBool adult ] ])).
    { clear. intros text d code c ch status name liveId playback liveTitle
        liveCategory adult media Hparse Hcode H200 Hnot Hcontent Hstatus HliveId
        Hint Htitle Hcategory Hadult Hchannel Hname Hplayback Hmedia.
      rewrite (classify_cases _ _ _ _ _ Hparse).
      rewrite (error_shape_fails _ _ _ _ Hcode Hnot).
      rewrite (empty_shape_fails _ _ _ _ Hcontent).
      rewrite (data_shape_content _ _ _ _ _ _ Hcode H200 Hcontent).
      now rewrite (live_detail_content parse_json is_url c ch status name liveId
                     playback liveTitle liveCategory adult media). }
    intros c ch status name liveId playback liveTitle liveCategory adult media
      Hcontent Hstatus HliveId Hint Htitle Hcategory Hadult Hchannel Hname
      Hplayback Hmedia payload.
    split.
    { now apply (Hdata text d code c ch status name liveId playback liveTitle
                   liveCategory adult media). }
    intros text' j' Hparse' Hre.
    inversion Hre as [| | | | | | | ? d' Hnone Hsome]; subst.
    destruct (reordered_get _ _ _ _ Hre Hcode) as [code' [Hcode' Rcode]].
    destruct (reordered_get _ _ _ _ Hre Hcontent) as [content' [Hcontent' Rcontent]].
    inversion Rcontent as [| | | | | | | ? c' Hnone_c Hsome_c]; subst.
    destruct (reordered_get _ _ _ _ Rcontent Hstatus) as [x [Hstatus' R]];
      inversion R; subst; clear R.
    destruct (reordered_get _ _ _ _ Rcontent HliveId) as [liveId' [HliveId' R]].
    apply reordered_int in R; [subst liveId' | exact Hint].
    destruct (reordered_get _ _ _ _ Rcontent Htitle) as [x [Htitle' R]].
    assert (x = str_or_None liveTitle) as ->
      by (destruct liveTitle; inversion R; reflexivity). clear R.
    destruct (reordered_get _ _ _ _ Rcontent Hcategory) as [x [Hcategory' R]].
    assert (x = str_or_None liveCategory) as ->
      by (destruct liveCategory; inversion R; reflexivity). clear R.
    destruct (reordered_get _ _ _ _ Rcontent Hadult) as [x [Hadult' R]];
      inversion R; subst; clear R.
    destruct (reordered_get _ _ _ _ Rcontent Hchannel) as [x [Hchannel' Rchannel]].
    inversion Rchannel as [| | | | | | | ? ch' Hnone_ch Hsome_ch]; subst.
    destruct (reordered_get _ _ _ _ Rchannel Hname) as [x [Hname' R]];
      inversion R; subst; clear R.
    destruct (reordered_get _ _ _ _ Rcontent Hplayback) as [playback' [Hplayback' R]].
    assert (playback' = playback) as ->.
    { destruct media as [ms |]; cbn [playback_declares] in Hmedia.
      - destruct Hmedia as [t [dm [items [-> _]]]]. inversion R; reflexivity.
      - subst playback. inversion R; reflexivity. }
    apply (Hdata text' d' code' c' ch' status name liveId playback liveTitle
             liveCategory adult media); try assumption.
    + now rewrite (reordered_eq_int _ _ _ Rcode).
    + now apply (reordered_not_error_shape d d' code code').
Qed.

Lemma classify_error_witness :
  classify sample_parse_json sample_is_url live_detail_schemas
    "<live-detail with message>"
  = Ok (PTuple [PStr "error"; PStr "OK"]).
Proof.
  apply (classify_error sample_parse_json sample_is_url live_detail_schemas
           "<live-detail with message>"
           [ ("code", PInt 200); ("message", PStr "OK");
             ("content", sample_content) ]
           (PInt 200) "OK"); reflexivity.
Defined.

(** Case analysis on a key read in a literal object. *)
Ltac by_key k :=
  repeat match goal with
         | |- context [String.eqb ?a k] =>
             destruct (String.eqb_spec a k); [subst k; cbn |]
         end.

Ltac reorder :=
  try unfold sample_content;
  lazymatch goal with
  | |- reordered (PDict _) (PDict _) =>
      apply reordered_Dict;
      [ let k := fresh "k" in
        intros k; cbn [dict_get]; by_key k; split; congruence
      | let k := fresh "k" in
        let H1 := fresh in
        let H2 := fresh in
        intros k ? ? ; cbn [dict_get]; by_key k; intros H1 H2;
        first [ discriminate
              | injection H1 as <-; injection H2 as <-; reorder ] ]
  | |- reordered _ _ => constructor
  end.

Lemma classify_success_witness :
  let payload :=
    PTuple [ PList [PTuple [PStr "HLS"; PStr "HLS"; PStr "https://x/hls.m3u8"]];
             PStr "OPEN"; PInt 5; PStr "n"; PStr "c"; PStr "t"; PBool false ] in
  classify sample_parse_json sample_is_url live_detail_schemas "<live-detail>"
  = Ok (PTuple [PStr "success"; payload])
  /\ classify sample_parse_json sample_is_url live_detail_schemas
       "<live-detail, keys in another order>"
     = Ok (PTuple [PStr "success"; payload]).
Proof.
  cbv zeta.
  assert (Hnot : not_error_shape
                   [ ("code", PInt 200); ("message", PNone);
                     ("content", sample_content) ] (PInt 200)).
  { right. intros message H. discriminate H. }
  assert (Hmedia : playback_declares sample_parse_json sample_is_url
                     (PStr "<livePlaybackJson>")
                     (Some [("HLS", "HLS", "https://x/hls.m3u8")])).
  { exists "<livePlaybackJson>",
      [ ("media",
         PList [ PDict [ ("mediaId", PStr "HLS"); ("protocol", PStr "HLS");
                         ("path", PStr "https://x/hls.m3u8") ] ]) ],
      [ PDict [ ("mediaId", PStr "HLS"); ("protocol", PStr "HLS");
                ("path", PStr "https://x/hls.m3u8") ] ].
    split; [reflexivity |]. split; [reflexivity |]. split; [reflexivity |].
    constructor; [| constructor].
    exists [ ("mediaId", PStr "HLS"); ("protocol", PStr "HLS");
             ("path", PStr "https://x/hls.m3u8") ].
    repeat split. }
  destruct (proj2 (classify_success sample_parse_json sample_is_url "<live-detail>"
              [ ("code", PInt 200); ("message", PNone);
                ("content", sample_content) ] (PInt 200)
              eq_refl eq_refl eq_refl Hnot)
              [ ("status", PStr "OPEN"); ("liveId", PInt 5);
                ("liveTitle", PStr "t"); ("liveCategory", PStr "c");
                ("adult", PBool false);
                ("channel", PDict [ ("channelName", PStr "n") ]);
                ("livePlaybackJson", PStr "<livePlaybackJson>") ]
              [ ("channelName", PStr "n") ]
              "OPEN" "n" (PInt 5) (PStr "<livePlaybackJson>")
              (Some "t") (Some "c") false
              (Some [("HLS", "HLS", "https://x/hls.m3u8")])
              eq_refl eq_refl eq_refl eq_refl eq_refl eq_refl eq_refl eq_refl
              eq_refl eq_refl Hmedia) as [Hhere Hthere].
  split; [exact Hhere |].
  apply (Hthere "<live-detail, keys in another order>" _ eq_refl).
  reorder.
Defined.

End ChzzkApiSpec.

(* ================================================================== *)
(** * More on the Chzzk stream handle *)
(* ================================================================== *)

Module ChzzkStreamMore.
Import Py Validate Chzzk PyFacts ChzzkStreamSpec.

(** ** [str.replace] with the same text, and with no text *)

Lemma interleave_nothing (s : string) : interleave "" s = s.
Proof. induction s as [|c s IH]; cbn [interleave append]; [reflexivity | now rewrite IH]. Qed.

Lemma replace_from_same (o : ascii) (old : string) (n : nat) :
  forall s, (String.length s <= n)%nat ->
            replace_from (String o old) (String o old) 0 s = s.
Proof.
  induction n as [|n IH]; intros s Hlen.
  - destruct s; [reflexivity | cbn [String.length] in Hlen; lia].
  - destruct s as [|c s]; [reflexivity |].
    cbn [replace_from]. destruct (startswith (String c s) (String o old)) eqn:Hs.
    + apply startswith_drop in Hs. cbn [append String.length drop] in Hs.
      injection Hs as -> Hs.
      replace (String.length (String o old) - 1)%nat with (String.length old)
        by (cbn [String.length]; lia).
      assert (Hl : String.length s
                   = (String.length old + String.length (drop (String.length old) s))%nat)
        by (rewrite Hs at 1; apply length_append).
      rewrite Hs at 1. rewrite replace_from_skip.
      rewrite IH by (cbn [String.length] in Hlen; lia).
      cbn [append]. now rewrite <- Hs.
    + rewrite IH; [reflexivity | cbn [String.length] in Hlen; lia].
Qed.

(** Replacing a text by itself changes nothing. *)
Lemma replace_same (s t : string) : replace s t t = s.
Proof.
  unfold replace. destruct t as [|c t]; [apply interleave_nothing |].
  now apply (replace_from_same _ _ (String.length s)).
Qed.

Lemma length_interleave (new s : string) :
  String.length (interleave new s)
  = (String.length s + (String.length s + 1) * String.length new)%nat.
Proof.
  induction s as [|c s IH]; cbn [interleave String.length].
  - lia.
  - rewrite length_append. cbn [String.length]. rewrite IH. lia.
Qed.


(** ** The token of a path *)

(** The last separator of a text that has one. *)
Lemma last_sep (sep : ascii) (s : string) :
  contains (String sep "") s = true ->
  exists a b, s = a ++ String sep b /\ contains (String sep "") b = false.
Proof.
  induction s as [|c s IH]; intros H.
  - discriminate.
  - destruct (contains (String sep "") s) eqn:Hs.
    + destruct (IH eq_refl) as [a [b [-> Hb]]]. now exists (String c a), b.
    + exists "", s. split; [| exact Hs]. cbn [append].
      destruct (Ascii.eqb_spec c sep) as [-> | Hne]; [reflexivity |].
      assert (Hf : contains (String sep "") (String c s) = false)
        by now apply contains_char_cons.
      congruence.
Qed.

Lemma split_last (sep : ascii) (s : string) :
  contains (String sep "") s = true ->
  exists a b, s = a ++ String sep b
              /\ contains (String sep "") b = false
              /\ split sep s = (split sep a ++ [b])%list.
Proof.
  intros H. destruct (last_sep sep s H) as [a [b [-> Hb]]].
  exists a, b. split; [reflexivity |]. split; [exact Hb |].
  now rewrite split_app_sep, (split_no_sep _ _ Hb).
Qed.

Lemma getitem_single_penultimate {A} (x : A) : getitem [x] (-2) = Raise IndexError.
Proof. reflexivity. Qed.

Lemma getitem_pair_penultimate {A} (x y : A) : getitem [x; y] (-2) = Ok x.
Proof. reflexivity. Qed.

(** What [_get_token_from] finds in a path, shape by shape. *)
Lemma get_token_from_shape (path : string) :
  (contains "/" path = false /\ _get_token_from path = Raise IndexError)
  \/ (exists token last,
         contains "/" token = false /\ contains "/" last = false
         /\ path = token ++ "/" ++ last
         /\ _get_token_from path = Ok token)
  \/ (exists pre token last,
         contains "/" token = false /\ contains "/" last = false
         /\ path = with_token pre token last
         /\ _get_token_from path = Ok token).
Proof.
  destruct (contains "/" path) eqn:Hp.
  - right. destruct (split_last "/" path Hp) as [a [last [Hpath [Hlast Hsplit]]]].
    destruct (contains "/" a) eqn:Ha.
    + right. destruct (split_last "/" a Ha) as [pre [token [Ha' [Htoken Hsplit']]]].
      exists pre, token, last. split; [exact Htoken |]. split; [exact Hlast |].
      assert (Hshape : path = with_token pre token last).
      { rewrite Hpath, Ha'. unfold with_token. now rewrite append_assoc. }
      split; [exact Hshape |].
      rewrite Hshape. now apply get_token_from_with_token.
    + left. exists a, last. split; [exact Ha |]. split; [exact Hlast |].
      split; [exact Hpath |].
      unfold _get_token_from. rewrite Hsplit, (split_no_sep _ _ Ha). reflexivity.
  - left. split; [reflexivity |].
    unfold _get_token_from. now rewrite (split_no_sep _ _ Hp).
Qed.

(** X1: the token of a path is its segment before the last one.  A path
    without a slash has none, and asking for it raises [IndexError], the
    only exception the lookup can raise; a path [token/last] or
    [pre/token/last] whose [token] and [last] hold no slash has the token
    [token], and every token found is of that kind. *)
Theorem get_token_from_penultimate :
  forall path : string,
    (_get_token_from path = Raise IndexError <-> contains "/" path = false)
    /\ (forall e, _get_token_from path = Raise e -> e = IndexError)
    /\ (forall token,
          _get_token_from path = Ok token <->
          contains "/" token = false
          /\ exists last,
               contains "/" last = false
               /\ (path = token ++ "/" ++ last
                   \/ exists pre, path = with_token pre token last)).
Proof.
  intros path.
  destruct (get_token_from_shape path)
    as [[Hno Hraise] | [[token [last [Ht [Hl [Hpath Hok]]]]]
                       | [pre [token [last [Ht [Hl [Hpath Hok]]]]]]]].
  - split; [| split].
    + split; auto.
    + intros e H. congruence.
    + intros token. split; [congruence |].
      intros [_ [last [_ [-> | [pre ->]]]]]; exfalso.
      * apply contains_false_iff in Hno. apply Hno. now exists token, last.
      * apply contains_false_iff in Hno. apply Hno. unfold with_token.
        now exists pre, (token ++ "/" ++ last).
  - assert (Hyes : contains "/" path = true).
    { apply contains_iff. now exists token, last. }
    split; [| split].
    + split; congruence.
    + congruence.
    + intros token0. split.
      * intros H. assert (token0 = token) by congruence. subst token0.
        split; [exact Ht |]. exists last. split; [exact Hl |]. now left.
      * intros [Ht0 [last0 [Hl0 [Hp0 | [pre0 Hp0]]]]].
        -- rewrite Hp0. unfold _get_token_from. cbn [append].
           rewrite split_app_sep, (split_no_sep _ _ Ht0), (split_no_sep _ _ Hl0).
           reflexivity.
        -- rewrite Hp0. now apply get_token_from_with_token.
  - assert (Hyes : contains "/" path = true).
    { apply contains_iff. unfold with_token in Hpath.
      now exists pre, (token ++ "/" ++ last). }
    split; [| split].
    + split; congruence.
    + congruence.
    + intros token0. split.
      * intros H. assert (token0 = token) by congruence. subst token0.
        split; [exact Ht |]. exists last. split; [exact Hl |]. right. now exists pre.
      * intros [Ht0 [last0 [Hl0 [Hp0 | [pre0 Hp0]]]]].
        -- rewrite Hp0. unfold _get_token_from. cbn [append].
           rewrite split_app_sep, (split_no_sep _ _ Ht0), (split_no_sep _ _ Hl0).
           reflexivity.
        -- rewrite Hp0. now apply get_token_from_with_token.
Qed.

Lemma get_token_from_penultimate_witness :
  _get_token_from "https://cdn.example/abc123/chunklist.m3u8?exp=1000" = Ok "abc123"
  /\ _get_token_from "chunklist.m3u8" = Raise IndexError.
Proof.
  split.
  - apply (proj2 (proj2 (get_token_from_penultimate
                           "https://cdn.example/abc123/chunklist.m3u8?exp=1000"))).
    split; [reflexivity |]. exists "chunklist.m3u8?exp=1000".
    split; [reflexivity |]. right. now exists "https://cdn.example".
  - apply (proj1 (get_token_from_penultimate "chunklist.m3u8")). reflexivity.
Defined.

(** ** [_replace_token_from], whatever the URL *)

Lemma url_set_same (w : world) : url_set (_url (stream w)) w = w.
Proof. now destruct w as [[u c] l]. Qed.

Lemma replace_token_from_run (media_uri : string) (w : world) :
  _replace_token_from media_uri w
  = match _get_token_from (_url (stream w)) with
    | Raise e => (Raise e, w)
    | Ok prev_token =>
        match _get_token_from media_uri with
        | Raise e => (Raise e, w)
        | Ok current_token =>
            (Ok tt, url_set (replace (_url (stream w)) prev_token current_token) w)
        end
    end.
Proof.
  unfold _replace_token_from, bind, get_url, lift, set_url.
  destruct (_get_token_from (_url (stream w))); [| reflexivity].
  destruct (_get_token_from media_uri); reflexivity.
Qed.

(** X2: a media URI that carries the token the stream URL already has
    leaves the handle exactly as it was, whatever the URL looks like and
    however often the token occurs in it. *)
Theorem replace_token_from_same_token :
  forall (media_uri token : string) (w : world),
    _get_token_from (_url (stream w)) = Ok token ->
    _get_token_from media_uri = Ok token ->
    _replace_token_from media_uri w = (Ok tt, w).
Proof.
  intros media_uri token w Hprev Hcur.
  rewrite replace_token_from_run, Hprev, Hcur, replace_same.
  now rewrite url_set_same.
Qed.

Lemma replace_token_from_same_token_witness :
  _replace_token_from "https://edge.example/live/chunklist.m3u8"
    (sample_world "https://live.cdn.net/live/chunklist.m3u8?exp=1000")
  = (Ok tt, sample_world "https://live.cdn.net/live/chunklist.m3u8?exp=1000").
Proof.
  apply (replace_token_from_same_token
           "https://edge.example/live/chunklist.m3u8" "live"
           (sample_world "https://live.cdn.net/live/chunklist.m3u8?exp=1000"));
    reflexivity.
Defined.

(** X3: a stream URL whose token segment is empty (two slashes in a row
    before the last segment) is not repaired by a refresh: the new token
    is put before every character of the URL and after the last one, so
    the URL grows by one token per character and one more. *)
Theorem replace_token_from_empty_token :
  forall (media_uri current_token : string) (w : world),
    _get_token_from (_url (stream w)) = Ok "" ->
    _get_token_from media_uri = Ok current_token ->
    exists url',
      _replace_token_from media_uri w = (Ok tt, url_set url' w)
      /\ url' = interleave current_token (_url (stream w))
      /\ startswith url' current_token = true
      /\ String.length url'
         = (String.length (_url (stream w))
            + (String.length (_url (stream w)) + 1) * String.length current_token)%nat.
Proof.
  intros media_uri current_token w Hprev Hcur.
  exists (interleave current_token (_url (stream w))).
  split; [| split; [reflexivity | split]].
  - now rewrite replace_token_from_run, Hprev, Hcur.
  - destruct (_url (stream w)); cbn [interleave].
    + apply startswith_iff. exists "". now rewrite append_nil_r.
    + apply startswith_app.
  - apply length_interleave.
Qed.

Lemma replace_token_from_empty_token_witness :
  exists url',
    _replace_token_from "https://edge.example/t/chunklist.m3u8"
      (sample_world "cdn//x")
    = (Ok tt, url_set url' (sample_world "cdn//x"))
    /\ url' = "tctdtnt/t/txt"
    /\ startswith url' "t" = true
    /\ String.length url' = 13%nat.
Proof.
  apply (replace_token_from_empty_token
           "https://edge.example/t/chunklist.m3u8" "t" (sample_world "cdn//x"));
    reflexivity.
Defined.

(** ** [refresh_playlist], whatever the URL *)

Lemma refresh_from_media_outcome (net : network) (media : list pyval) (w : world) :
  forall r w',
    refresh_from_media net media w = (r, w') ->
    (forall e, r = Raise e -> w' = w)
    /\ (w' = w
        \/ exists media_path media_uri prev_token current_token,
             r = Ok tt
             /\ _get_media_uri net media_path = Ok media_uri
             /\ _get_token_from (_url (stream w)) = Ok prev_token
             /\ _get_token_from media_uri = Ok current_token
             /\ w' = refreshed (replace (_url (stream w)) prev_token current_token) w).
Proof.
  induction media as [|item rest IH]; intros r w'.
  - cbn [refresh_from_media]. unfold ret. intros H; injection H as <- <-.
    split; [reflexivity | now left].
  - cbn [refresh_from_media]. unfold bind at 1. unfold lift at 1.
    destruct (unpack3 item) as [[[media_id media_protocol] media_path] | e].
    2:{ intros H; injection H as <- <-. split; [reflexivity | now left]. }
    destruct (eq_str media_protocol "HLS" && eq_str media_id "HLS"); [| apply IH].
    unfold bind at 1. unfold lift at 1.
    destruct (_get_media_uri net media_path) as [media_uri | e] eqn:Huri.
    2:{ intros H; injection H as <- <-. split; [reflexivity | now left]. }
    unfold bind at 1. rewrite replace_token_from_run.
    destruct (_get_token_from (_url (stream w))) as [prev_token | e] eqn:Hprev.
    2:{ intros H; injection H as <- <-. split; [reflexivity | now left]. }
    destruct (_get_token_from media_uri) as [current_token | e] eqn:Hcur.
    2:{ intros H; injection H as <- <-. split; [reflexivity | now left]. }
    unfold bind, get_url, log_. cbn [url_set stream _url].
    intros H; injection H as <- <-. split; [discriminate |].
    right. now exists media_path, media_uri, prev_token, current_token.
Qed.

Lemma refresh_playlist_outcome :
  forall parse_json is_url (net : network) (w : world) r w',
    refresh_playlist parse_json is_url net w = (r, w') ->
    _channel_id (stream w') = _channel_id (stream w)
    /\ (forall e, r = Raise e -> w' = refreshing w)
    /\ (w' = refreshing w
        \/ exists media_path media_uri prev_token current_token,
             r = Ok tt
             /\ _get_media_uri net media_path = Ok media_uri
             /\ _get_token_from (_url (stream w)) = Ok prev_token
             /\ _get_token_from media_uri = Ok current_token
             /\ w' = refreshed (replace (_url (stream w)) prev_token current_token)
                               (refreshing w)).
Proof.
  intros parse_json is_url net w r w' Hrun.
  assert (Hmain :
    (forall e, r = Raise e -> w' = refreshing w)
    /\ (w' = refreshing w
        \/ exists media_path media_uri prev_token current_token,
             r = Ok tt
             /\ _get_media_uri net media_path = Ok media_uri
             /\ _get_token_from (_url (stream w)) = Ok prev_token
             /\ _get_token_from media_uri = Ok current_token
             /\ w' = refreshed (replace (_url (stream w)) prev_token current_token)
                               (refreshing w))).
  { revert Hrun. unfold refresh_playlist.
    unfold bind at 1. unfold log_ at 1.
    unfold bind at 1. unfold get_channel_id at 1.
    unfold bind at 1. unfold lift at 1.
    destruct (get_live_detail parse_json is_url net _) as [detail | e].
    2:{ intros H; injection H as <- <-. split; [reflexivity | now left]. }
    unfold bind at 1. unfold lift at 1.
    destruct (unpack2 detail) as [[datatype data] | e].
    2:{ intros H; injection H as <- <-. split; [reflexivity | now left]. }
    destruct (eq_str datatype "error").
    { unfold raise. intros H; injection H as <- <-. split; [reflexivity | now left]. }
    unfold bind at 1. unfold lift at 1.
    destruct (unpack2_star data) as [[media status] | e].
    2:{ intros H; injection H as <- <-. split; [reflexivity | now left]. }
    destruct (negb (eq_str status "OPEN") || is_None media).
    { unfold raise. intros H; injection H as <- <-. split; [reflexivity | now left]. }
    unfold bind at 1. unfold lift at 1.
    destruct (iter media) as [items | e].
    2:{ intros H; injection H as <- <-. split; [reflexivity | now left]. }
    intros Hloop. exact (refresh_from_media_outcome net items _ r w' Hloop). }
  split; [| exact Hmain].
  destruct Hmain as [_ [-> | [mp [mu [pt [ct [_ [_ [_ [_ ->]]]]]]]]]]; reflexivity.
Qed.

(** X4: a refresh is all or nothing.  A run of [refresh_playlist] that
    raises leaves the handle as it was, with the record that opens the
    refresh as its only trace; a run that returns has either changed
    nothing else, or has put the token of a media URI the network
    resolved in the place of every occurrence of the old token, in one
    assignment of the URL, and logged the new URL.  The channel id of the
    handle is never changed. *)
Theorem refresh_playlist_all_or_nothing :
  forall parse_json is_url (net : network) (w : world) r w',
    refresh_playlist parse_json is_url net w = (r, w') ->
    _channel_id (stream w') = _channel_id (stream w)
    /\ (forall e, r = Raise e -> w' = refreshing w)
    /\ (w' = refreshing w
        \/ exists media_path media_uri prev_token current_token,
             r = Ok tt
             /\ _get_media_uri net media_path = Ok media_uri
             /\ _get_token_from (_url (stream w)) = Ok prev_token
             /\ _get_token_from media_uri = Ok current_token
             /\ w' = refreshed (replace (_url (stream w)) prev_token current_token)
                               (refreshing w)).
Proof.
  intros parse_json is_url net w r w'. apply refresh_playlist_outcome.
Qed.

Lemma refresh_playlist_all_or_nothing_witness :
  let net := sample_network "<not found>" "https://edge.example/t/chunklist.m3u8" 0 in
  let w := sample_world "https://cdn.example/abc123/chunklist.m3u8?exp=1000" in
  snd (refresh_playlist sample_parse_json sample_is_url net w) = refreshing w.
Proof.
  intros net w.
  apply (proj1 (proj2 (refresh_playlist_all_or_nothing
                         sample_parse_json sample_is_url net w
                         (fst (refresh_playlist sample_parse_json sample_is_url net w))
                         (snd (refresh_playlist sample_parse_json sample_is_url net w))
                         eq_refl))
               (StreamError (PStr "CHANNEL_NOT_FOUND") None)).
  reflexivity.
Defined.

(** ** A success without content *)

(** C5, where the code departs from it: a live-detail response with
    code 200 and no content (not of the error shape) is a success without
    data, so there is no status and no media descriptor list, and the
    claim asks for a stream error.  [refresh_playlist] unpacks the data
    with no test for [None], and unpacking [None] raises [TypeError]:
    that exception goes up in the place of a stream error.  The URL of
    the handle is the one it had. *)
Theorem refresh_playlist_empty_success :
  forall parse_json is_url (net : network) (w : world) (text : string)
         (d : list (string * pyval)) (code : pyval),
    http_get net (_CHANNELS_LIVE_DETAIL_URL (_channel_id (stream w))) = Ok text ->
    parse_json text = Some (PDict d) ->
    dict_get "code" d = Some code ->
    eq_int code 200 = true ->
    not_error_shape d code ->
    dict_get "content" d = Some PNone ->
    get_live_detail parse_json is_url net (_channel_id (stream w))
    = Ok (PTuple [PStr "success"; PNone])
    /\ refresh_playlist parse_json is_url net w = (Raise TypeError, refreshing w)
    /\ (forall arg err,
          fst (refresh_playlist parse_json is_url net w) <> Raise (StreamError arg err))
    /\ _url (stream (snd (refresh_playlist parse_json is_url net w)))
       = _url (stream w).
Proof.
  intros parse_json is_url net w text d code Hget Hparse Hcode H200 Hnot Hcontent.
  assert (Hdetail : get_live_detail parse_json is_url net (_channel_id (stream w))
                    = Ok (PTuple [PStr "success"; PNone])).
  { unfold get_live_detail, _query_api. rewrite Hget. cbn [rbind].
    rewrite (ChzzkApiSpec.classify_cases _ _ _ _ _ Hparse).
    rewrite (ChzzkApiSpec.error_shape_fails _ _ _ _ Hcode Hnot).
    now rewrite (ChzzkApiSpec.empty_shape_matches _ _ _ _ Hcode H200 Hcontent). }
  assert (Hrun : refresh_playlist parse_json is_url net w
                 = (Raise TypeError, refreshing w)).
  { unfold refresh_playlist, bind, log_, get_channel_id, lift.
    cbn [logged stream]. now rewrite Hdetail. }
  split; [exact Hdetail |]. split; [exact Hrun |].
  rewrite Hrun. split; [discriminate | reflexivity].
Qed.

Lemma refresh_playlist_empty_success_witness :
  let net := sample_network "<live-detail, no content>"
                            "https://edge.example/def456/chunklist.m3u8" 0 in
  let w := sample_world "https://cdn.example/abc123/chunklist.m3u8?exp=1000" in
  refresh_playlist sample_more_json sample_is_url net w
  = (Raise TypeError, refreshing w).
Proof.
  intros net w.
  refine (proj1 (proj2 (refresh_playlist_empty_success sample_more_json sample_is_url
                          net w "<live-detail, no content>"
                          [ ("code", PInt 200); ("message", PNone); ("content", PNone) ]
                          (PInt 200) eq_refl eq_refl eq_refl eq_refl _ eq_refl))).
  right. intros message H. discriminate H.
Defined.

(** ** Which descriptor a refresh uses *)

Lemma refresh_from_media_skips (net : network) (skipped rest : list pyval) (w : world) :
  Forall not_hls skipped ->
  refresh_from_media net (skipped ++ rest) w = refresh_from_media net rest w.
Proof.
  induction 1 as [|item more [media_id [media_protocol [media_path [-> Hno]]]] _ IH].
  - reflexivity.
  - cbn [app refresh_from_media]. unfold bind at 1. unfold lift at 1.
    cbn [unpack3 iter rbind]. now rewrite Hno.
Qed.

(** X5: the refresh uses the first media descriptor whose protocol and
    id are both ["HLS"], and stops there.  The descriptors before it are
    passed over; the ones after it are never looked at, whatever they
    are.  When the playlist of that descriptor resolves, its token goes
    into the URL; when it does not, the refresh raises what the lookup
    raised and tries no other descriptor. *)
Theorem refresh_uses_first_hls :
  forall parse_json is_url (net : network) (w : world)
         (skipped rest others : list pyval) (media_path : pyval),
    get_live_detail parse_json is_url net (_channel_id (stream w))
    = Ok (PTuple [PStr "success";
                  PTuple (PList (skipped
                                 ++ PTuple [PStr "HLS"; PStr "HLS"; media_path] :: rest)
                          :: PStr "OPEN" :: others)]) ->
    Forall not_hls skipped ->
    (forall media_uri prev_token current_token,
        _get_media_uri net media_path = Ok media_uri ->
        _get_token_from (_url (stream w)) = Ok prev_token ->
        _get_token_from media_uri = Ok current_token ->
        refresh_playlist parse_json is_url net w
        = (Ok tt, refreshed (replace (_url (stream w)) prev_token current_token)
                            (refreshing w)))
    /\ (forall e,
          _get_media_uri net media_path = Raise e ->
          refresh_playlist parse_json is_url net w = (Raise e, refreshing w)).
Proof.
  intros parse_json is_url net w skipped rest others media_path Hdetail Hskipped.
  assert (Hrun :
    refresh_playlist parse_json is_url net w
    = refresh_from_media net
        (PTuple [PStr "HLS"; PStr "HLS"; media_path] :: rest) (refreshing w)).
  { unfold refresh_playlist. unfold bind at 1. unfold log_ at 1.
    unfold bind at 1. unfold get_channel_id at 1. cbn [logged stream].
    unfold bind at 1. unfold lift at 1. rewrite Hdetail.
    unfold bind at 1. unfold lift at 1. cbn [unpack2 iter rbind].
    cbn [eq_str String.eqb Ascii.eqb Bool.eqb].
    unfold bind at 1. unfold lift at 1. cbn [unpack2_star iter rbind].
    cbn [eq_str is_None negb orb]. rewrite String.eqb_refl. cbn [negb orb].
    unfold bind at 1. unfold lift at 1.
    now apply refresh_from_media_skips. }
  rewrite Hrun. cbn [refresh_from_media]. unfold bind at 1. unfold lift at 1.
  cbn [unpack3 iter rbind]. cbn [eq_str]. rewrite String.eqb_refl. cbn [andb].
  split.
  - intros media_uri prev_token current_token Huri Hprev Hcur.
    unfold bind at 1. unfold lift at 1. rewrite Huri.
    unfold bind at 1. rewrite replace_token_from_run.
    unfold refreshing at 1 2. cbn [logged stream].
    rewrite Hprev, Hcur. reflexivity.
  - intros e Huri. unfold bind at 1. unfold lift at 1. now rewrite Huri.
Qed.

Lemma refresh_uses_first_hls_witness :
  let net := sample_network "<live-detail, three media>"
                            "https://edge.example/def456/chunklist.m3u8" 0 in
  let w := sample_world "https://cdn.example/abc123/chunklist.m3u8?exp=1000" in
  refresh_playlist sample_more_json sample_is_url net w
  = (Ok tt, refreshed "https://cdn.example/def456/chunklist.m3u8?exp=1000"
                      (refreshing w)).
Proof.
  intros net w.
  refine (proj1 (refresh_uses_first_hls sample_more_json sample_is_url net w
                   [PTuple [PStr "LLHLS"; PStr "HLS"; PStr "https://x/llhls.m3u8"]]
                   [PTuple [PStr "HLS"; PStr "HLS"; PStr "https://x/backup.m3u8"]]
                   [PInt 5; PStr "n"; PStr "c"; PStr "t"; PBool false]
                   (PStr "https://x/hls.m3u8") eq_refl _)
                "https://edge.example/def456/chunklist.m3u8" "abc123" "def456"
                eq_refl eq_refl eq_refl).
  constructor; [| constructor].
  exists (PStr "LLHLS"), (PStr "HLS"), (PStr "https://x/llhls.m3u8").
  split; reflexivity.
Defined.

(** ** The expiry, read back *)

Lemma take_digits_boundary (s : string) :
  exists post,
    s = take_digits s ++ post
    /\ digits_only (take_digits s) = true
    /\ (forall c r, post = String c r -> isdigit c = false).
Proof.
  induction s as [|c s [post [Hs [Hd Hp]]]]; cbn [take_digits].
  - exists "". split; [reflexivity |]. split; [reflexivity | discriminate].
  - destruct (isdigit c) eqn:Hc.
    + exists post. split; [cbn [append]; now rewrite <- Hs |].
      split; [cbn [digits_only]; now rewrite Hc, Hd | exact Hp].
    + exists (String c s). split; [reflexivity |]. split; [reflexivity |].
      intros c0 r H; injection H as <- <-. exact Hc.
Qed.

Lemma EXPIRE_match_shape (s ds : string) :
  _EXPIRE_match s = Some ds ->
  exists post,
    s = "exp=" ++ ds ++ post
    /\ ds <> ""
    /\ digits_only ds = true
    /\ (forall c r, post = String c r -> isdigit c = false).
Proof.
  unfold _EXPIRE_match. destruct (startswith s "exp=") eqn:Hs; [| discriminate].
  apply startswith_drop in Hs. cbn [String.length] in Hs.
  destruct (take_digits_boundary (drop 4 s)) as [post [Hsplit [Hd Hp]]].
  destruct (take_digits (drop 4 s)) as [|d ds'] eqn:Ht; [discriminate |].
  intros H; injection H as <-.
  exists post. split; [| split; [discriminate | split; assumption]].
  rewrite Hs at 1. now rewrite Hsplit at 1.
Qed.

(** A match at the start of a text is a match at the start of every
    text that extends it. *)
Lemma EXPIRE_match_extends (p x ds : string) :
  _EXPIRE_match p = Some ds -> _EXPIRE_match (p ++ x) <> None.
Proof.
  intros H. destruct (EXPIRE_match_some _ _ H) as [d [ds' [post [-> [Hd ->]]]]].
  unfold _EXPIRE_match. cbn [append startswith Ascii.eqb Bool.eqb andb drop take_digits].
  now rewrite Hd.
Qed.

Lemma EXPIRE_search_shape (s ds : string) :
  _EXPIRE_search s = Some ds ->
  exists pre post,
    s = pre ++ "exp=" ++ ds ++ post
    /\ _EXPIRE_search pre = None
    /\ ds <> ""
    /\ digits_only ds = true
    /\ (forall c r, post = String c r -> isdigit c = false).
Proof.
  induction s as [|c s IH]; cbn [_EXPIRE_search].
  - destruct (_EXPIRE_match "") eqn:Hm; [| discriminate]. discriminate.
  - destruct (_EXPIRE_match (String c s)) as [ds0 |] eqn:Hm.
    + intros H; injection H as ->.
      destruct (EXPIRE_match_shape _ _ Hm) as [post [Hs [Hne [Hd Hp]]]].
      exists "", post. cbn [append]. repeat split; try assumption.
    + intros H. destruct (IH H) as [pre [post [-> [Hpre [Hne [Hd Hp]]]]]].
      exists (String c pre), post. split; [reflexivity |].
      split; [| split; [exact Hne | split; assumption]].
      cbn [_EXPIRE_search].
      destruct (_EXPIRE_match (String c pre)) as [ds1 |] eqn:Hm1; [| exact Hpre].
      exfalso. apply (EXPIRE_match_extends _ ("exp=" ++ ds ++ post) _ Hm1).
      exact Hm.
Qed.

Lemma digit_value_nonneg (c : ascii) : isdigit c = true -> 0 <= digit_value c.
Proof.
  unfold isdigit, digit_value. cbv zeta.
  rewrite andb_true_iff, Nat.leb_le. lia.
Qed.

Lemma int_of_digits_acc_nonneg (ds : string) :
  forall acc, 0 <= acc -> digits_only ds = true -> 0 <= int_of_digits_acc acc ds.
Proof.
  induction ds as [|c ds IH]; intros acc Hacc; cbn [digits_only int_of_digits_acc].
  - intros _. exact Hacc.
  - rewrite andb_true_iff. intros [Hc Hds]. apply IH; [| exact Hds].
    pose proof (digit_value_nonneg c Hc). lia.
Qed.

(** X6: an expiry is never made up.  When a URL has the expiry [n],
    the URL reads [pre ++ "exp=" ++ ds ++ post], where [ds] is a
    non-empty run of digits that a digit does not follow, no expiry is
    found in [pre] alone, and [n] is the number [ds] writes; [n] is never
    negative. *)
Theorem expire_is_written :
  forall (url : string) (n : Z),
    _expire url = Some n ->
    0 <= n
    /\ exists pre ds post,
         url = pre ++ "exp=" ++ ds ++ post
         /\ _expire pre = None
         /\ ds <> ""
         /\ digits_only ds = true
         /\ (forall c r, post = String c r -> isdigit c = false)
         /\ n = int ds.
Proof.
  intros url n. unfold _expire at 1.
  destruct (_EXPIRE_search url) as [ds |] eqn:Hs; [| discriminate].
  intros H; injection H as <-.
  destruct (EXPIRE_search_shape _ _ Hs) as [pre [post [-> [Hpre [Hne [Hd Hp]]]]]].
  split.
  - apply int_of_digits_acc_nonneg; [lia | exact Hd].
  - exists pre, ds, post. repeat split; try assumption.
    unfold _expire. now rewrite Hpre.
Qed.

Lemma expire_is_written_witness :
  0 <= 1700000000
  /\ exists pre ds post,
       "https://cdn/abc123/chunklist.m3u8?hdnts=st=5~exp=1700000000~acl=*"
       = pre ++ "exp=" ++ ds ++ post
       /\ _expire pre = None
       /\ ds <> ""
       /\ digits_only ds = true
       /\ (forall c r, post = String c r -> isdigit c = false)
       /\ 1700000000 = int ds.
Proof.
  apply (expire_is_written
           "https://cdn/abc123/chunklist.m3u8?hdnts=st=5~exp=1700000000~acl=*"
           1700000000).
  reflexivity.
Defined.

(** ** The [url] property, whatever the URL *)

(** X7: reading [url] either returns the URL the handle holds when the
    read ends, or raises and leaves the handle as it was before the
    read; and a handle whose URL has no expiry is returned its URL with
    nothing done at all, at any time. *)
Theorem url_read_is_atomic :
  forall parse_json is_url (net : network) (w : world) r w',
    url parse_json is_url net w = (r, w') ->
    (forall u, r = Ok u -> u = _url (stream w'))
    /\ (forall e, r = Raise e -> stream w' = stream w)
    /\ _channel_id (stream w') = _channel_id (stream w)
    /\ (_expire (_url (stream w)) = None -> r = Ok (_url (stream w)) /\ w' = w).
Proof.
  intros parse_json is_url net w r w'. rewrite url_cases.
  destruct (_expire (_url (stream w))) as [expire |].
  - destruct (Qle_bool _ _).
    + destruct (refresh_playlist parse_json is_url net w) as [[[] | e] w1] eqn:Hrun;
        intros H; injection H as <- <-;
        destruct (refresh_playlist_outcome _ _ _ _ _ _ Hrun) as [Hid [Hraise _]].
      * split; [now intros u H; injection H as <- |].
        split; [discriminate |]. split; [exact Hid | discriminate].
      * split; [discriminate |].
        split; [| split; [exact Hid | discriminate]].
        intros e0 _. now rewrite (Hraise e eq_refl).
    + intros H; injection H as <- <-.
      split; [now intros u H; injection H as <- |].
      split; [discriminate |]. split; [reflexivity | discriminate].
  - intros H; injection H as <- <-.
    split; [now intros u H; injection H as <- |].
    split; [discriminate |]. split; [reflexivity |]. now split.
Qed.

Lemma url_read_is_atomic_witness :
  let net := sample_network "<not found>" "https://edge.example/t/chunklist.m3u8" 0 in
  let w := sample_world "https://cdn.example/abc123/chunklist.m3u8?exp=1000" in
  stream (snd (url sample_parse_json sample_is_url net w)) = stream w.
Proof.
  intros net w.
  apply (proj1 (proj2 (url_read_is_atomic sample_parse_json sample_is_url net w
                         (fst (url sample_parse_json sample_is_url net w))
                         (snd (url sample_parse_json sample_is_url net w))
                         eq_refl))
               (StreamError (PStr "CHANNEL_NOT_FOUND") None)).
  reflexivity.
Defined.

(** ** The worker, whatever the fetch does *)

(** X8: the worker never turns the outcome of a fetch into a success or
    a different success; it runs a refresh exactly when the fetch failed
    with a stream error whose response has a status of 400 or more, once,
    and in every other case leaves the world as the fetch left it. *)
Theorem fetch_playlist_refreshes_on_http_error :
  forall parse_json is_url (super_fetch : M string) (net : network)
         (w w1 : world) (r : result string),
    super_fetch w = (r, w1) ->
    (forall text,
        fst (_fetch_playlist parse_json is_url super_fetch net w) = Ok text
        <-> r = Ok text)
    /\ refreshes (log (snd (_fetch_playlist parse_json is_url super_fetch net w)))
       = (refreshes (log w1) + (if http_error r then 1 else 0))%nat
    /\ (http_error r = false ->
        snd (_fetch_playlist parse_json is_url super_fetch net w) = w1).
Proof.
  intros parse_json is_url super_fetch net w w1 r Hsuper.
  destruct r as [text0 | e].
  - rewrite (fetch_playlist_passes _ _ _ _ _ _ _ Hsuper) by discriminate.
    cbn [fst snd http_error]. split; [tauto |]. split; [lia | reflexivity].
  - destruct e as [arg err | | | | | | | |];
      try (rewrite (fetch_playlist_passes _ _ _ _ _ _ _ Hsuper) by discriminate;
           cbn [fst snd http_error]; split; [tauto |]; split; [lia | reflexivity]).
    cbn [http_error].
    destruct err as [rerr |].
    2:{ unfold _fetch_playlist. rewrite Hsuper. unfold bind, lift.
        cbn [status_code_of fst snd].
        split; [split; discriminate |]. split; [lia | reflexivity]. }
    destruct (response rerr) as [res |] eqn:Hres.
    2:{ unfold _fetch_playlist. rewrite Hsuper. unfold bind, lift.
        cbn [status_code_of]. rewrite Hres. cbn [fst snd].
        split; [split; discriminate |]. split; [lia | reflexivity]. }
    destruct (400 <=? status_code res) eqn:Hstatus.
    + apply Z.leb_le in Hstatus.
      destruct (fetch_playlist_on_error_status parse_json is_url _ net _ _ _ _ _
                  Hsuper Hres Hstatus) as [Hrun Hcount].
      split; [| split; [rewrite Hcount; lia | discriminate]].
      intros text. rewrite Hrun.
      destruct (refresh_playlist parse_json is_url net w1) as [[[] | e] w2];
        split; discriminate.
    + apply Z.leb_gt in Hstatus.
      rewrite (fetch_playlist_on_other_status parse_json is_url _ net _ _ _ _ _
                 Hsuper Hres Hstatus).
      cbn [fst snd]. split; [split; discriminate |]. split; [lia | reflexivity].
Qed.

Lemma fetch_playlist_refreshes_on_http_error_witness :
  let fetch : M string :=
    fun w => (Raise (StreamError (PStr "Unable to open URL")
                       (Some {| response := Some {| status_code := 403 |} |})), w) in
  let net := sample_network "<live-detail>"
                            "https://edge.example/def456/chunklist.m3u8" 0 in
  let w := sample_world "https://cdn.example/abc123/chunklist.m3u8?exp=1000" in
  refreshes (log (snd (_fetch_playlist sample_parse_json sample_is_url fetch net w)))
  = 1%nat.
Proof.
  intros fetch net w.
  apply (proj1 (proj2 (fetch_playlist_refreshes_on_http_error
                         sample_parse_json sample_is_url fetch net w w
                         (Raise (StreamError (PStr "Unable to open URL")
                            (Some {| response := Some {| status_code := 403 |} |})))
                         eq_refl))).
Defined.

End ChzzkStreamMore.

(* ================================================================== *)
(** * Properties of the Chzzk plugin class *)
(* ================================================================== *)

Module ChzzkPluginSpec.
Import Py Validate Chzzk ChzzkPlugin PyFacts.

(** ** The plugin matchers *)

Lemma take_id_split (s : string) :
  exists rest,
    s = take_id s ++ rest
    /\ contains "/" (take_id s) = false
    /\ contains "?" (take_id s) = false
    /\ (forall c r, rest = String c r -> c = "/"%char \/ c = "?"%char).
Proof.
  induction s as [|c s [rest [Hs [Hslash [Hq Hrest]]]]]; cbn [take_id].
  - exists "". repeat split; discriminate.
  - destruct (Ascii.eqb c "/" || Ascii.eqb c "?") eqn:Hc.
    + exists (String c s). split; [reflexivity |]. split; [reflexivity |].
      split; [reflexivity |].
      intros c0 r H; injection H as <- <-.
      apply orb_true_iff in Hc. now rewrite !Ascii.eqb_eq in Hc.
    + apply orb_false_iff in Hc as [Hc1 Hc2]. apply Ascii.eqb_neq in Hc1, Hc2.
      exists rest. split; [cbn [append]; now rewrite <- Hs |].
      split; [| split; [| exact Hrest]].
      * apply contains_char_cons. now split.
      * apply contains_char_cons. now split.
Qed.

Lemma after_some (p s rest : string) : after p s = Some rest -> s = p ++ rest.
Proof.
  unfold after. destruct (startswith s p) eqn:H; [| discriminate].
  intros E; injection E as <-. now apply startswith_drop.
Qed.

Lemma pattern_match_shape (kind url id : string) :
  pattern_match kind url = Some id ->
  id <> ""
  /\ contains "/" id = false
  /\ contains "?" id = false
  /\ exists scheme rest,
       (scheme = "http" \/ scheme = "https")
       /\ url = scheme ++ "://chzzk.naver.com/" ++ kind ++ "/" ++ id ++ rest
       /\ (forall c r, rest = String c r -> c = "/"%char \/ c = "?"%char).
Proof.
  unfold pattern_match.
  destruct (after "http" url) as [rest1 |] eqn:H1; [| discriminate].
  apply after_some in H1.
  set (rest2 := match after "s" rest1 with Some r => r | None => rest1 end).
  assert (H2 : exists scheme, (scheme = "http" \/ scheme = "https")
                              /\ url = scheme ++ rest2).
  { subst rest2. destruct (after "s" rest1) as [r |] eqn:Hs.
    - apply after_some in Hs. exists "https". split; [now right |].
      now rewrite H1, Hs.
    - exists "http". split; [now left | exact H1]. }
  destruct H2 as [scheme [Hscheme Hurl]].
  destruct (after ("://chzzk.naver.com/" ++ kind ++ "/") rest2) as [rest3 |] eqn:H3;
    [| discriminate].
  apply after_some in H3.
  destruct (take_id_split rest3) as [rest [Hsplit [Hslash [Hq Hrest]]]].
  destruct (take_id rest3) as [|c id'] eqn:Hid; [discriminate |].
  intros H; injection H as <-.
  split; [discriminate |]. split; [exact Hslash |]. split; [exact Hq |].
  exists scheme, rest. split; [exact Hscheme |]. split; [| exact Hrest].
  rewrite Hurl, H3, Hsplit. now rewrite !append_assoc.
Qed.

(** Two kinds that differ in their first letter do not match the same
    URL. *)
Lemma pattern_match_kind (a b : ascii) (k1 k2 url id1 id2 : string) :
  a <> b ->
  pattern_match (String a k1) url = Some id1 ->
  pattern_match (String b k2) url = Some id2 ->
  False.
Proof.
  intros Hab. unfold pattern_match.
  destruct (after "http" url) as [rest1 |]; [| discriminate].
  set (rest2 := match after "s" rest1 with Some r => r | None => rest1 end).
  destruct (after ("://chzzk.naver.com/" ++ String a k1 ++ "/") rest2) as [r1 |] eqn:H1;
    [| discriminate].
  destruct (after ("://chzzk.naver.com/" ++ String b k2 ++ "/") rest2) as [r2 |] eqn:H2;
    [| discriminate].
  intros _ _. apply after_some in H1, H2. rewrite H1 in H2.
  cbn [append] in H2. congruence.
Qed.

(** X9: the three URL patterns of the plugin are disjoint: no URL is
    matched, from its start, by two of them, so the order in which
    [_get_streams] asks for them decides nothing.  A matched id is not
    empty, holds neither a slash nor a question mark, and stands right
    after [http://chzzk.naver.com/<kind>/] or its [https] form, up to the
    next slash or question mark or the end of the URL. *)
Theorem matchers_are_disjoint :
  forall url : string,
    (forall id1 id2, live_match url = Some id1 -> video_match url = Some id2 -> False)
    /\ (forall id1 id2, live_match url = Some id1 -> clip_match url = Some id2 -> False)
    /\ (forall id1 id2, video_match url = Some id1 -> clip_match url = Some id2 -> False)
    /\ (forall kind id,
          pattern_match kind url = Some id ->
          id <> ""
          /\ contains "/" id = false
          /\ contains "?" id = false
          /\ exists scheme rest,
               (scheme = "http" \/ scheme = "https")
               /\ url = scheme ++ "://chzzk.naver.com/" ++ kind ++ "/" ++ id ++ rest
               /\ (forall c r, rest = String c r -> c = "/"%char \/ c = "?"%char)).
Proof.
  intros url. unfold live_match, video_match, clip_match.
  split; [| split; [| split]].
  - intros id1 id2. apply pattern_match_kind. discriminate.
  - intros id1 id2. apply pattern_match_kind. discriminate.
  - intros id1 id2. apply pattern_match_kind. discriminate.
  - intros kind id. apply pattern_match_shape.
Qed.

Lemma matchers_are_disjoint_witness :
  live_match "https://chzzk.naver.com/live/c0ffee?ref=home" = Some "c0ffee"
  /\ (forall id, video_match "https://chzzk.naver.com/live/c0ffee?ref=home" = Some id
                 -> False).
Proof.
  split; [reflexivity |].
  intros id.
  apply (proj1 (matchers_are_disjoint "https://chzzk.naver.com/live/c0ffee?ref=home")
               "c0ffee" id).
  reflexivity.
Defined.

(** ** [_get_live] *)

Section Live.

Variable parse_json : string -> option pyval.
Variable is_url : string -> bool.
Variable Streams : Type.
Variable parse_variant_playlist : pyval -> string -> result Streams.

Lemma live_from_media_skips (channel_id : string) (skipped rest : list pyval) :
  Forall passed_over skipped ->
  live_from_media parse_variant_playlist channel_id (skipped ++ rest)
  = live_from_media parse_variant_playlist channel_id rest.
Proof.
  induction 1 as [|item more [media_id [media_protocol [media_path [-> Hno]]]] _ IH].
  - reflexivity.
  - cbn [app live_from_media unpack3 iter rbind]. now rewrite Hno.
Qed.

Lemma live_from_media_origin (channel_id : string) (media : list pyval)
    (found : Streams) :
  live_from_media parse_variant_playlist channel_id media = Ok (Some found) ->
  exists media_path, parse_variant_playlist media_path channel_id = Ok found.
Proof.
  induction media as [|item rest IH]; cbn [live_from_media]; [discriminate |].
  destruct (unpack3 item) as [[[media_id media_protocol] media_path] | e];
    cbn [rbind]; [| discriminate].
  destruct (eq_str media_protocol "HLS" && eq_str media_id "HLS"); [| exact IH].
  destruct (parse_variant_playlist media_path channel_id) as [found0 | e] eqn:Hp;
    cbn [rbind]; [| discriminate].
  intros H; injection H as <-. now exists media_path.
Qed.

(** X10: what [_get_live] leaves on the plugin.  An error answer is
    logged and nothing else changes; an answer without content changes
    nothing.  An answer with content gives the plugin its id, author,
    category and title, whether or not the stream is live; [is_live] is
    switched on exactly when the status is ["OPEN"] and the media list is
    not [None], and it is never switched off. *)
Theorem get_live_sets_metadata :
  forall (net : network) (channel_id : string) (live_check_only : bool)
         (self : plugin),
    let out := _get_live parse_json is_url parse_variant_playlist
                         net channel_id live_check_only self in
    (forall message,
        get_live_detail parse_json is_url net channel_id
        = Ok (PTuple [PStr "error"; message]) ->
        out = (Ok None, logged ERROR (Value message) self))
    /\ (get_live_detail parse_json is_url net channel_id
        = Ok (PTuple [PStr "success"; PNone]) ->
        out = (Ok None, self))
    /\ (forall media status id' author' category' title' adult,
          get_live_detail parse_json is_url net channel_id
          = Ok (PTuple [PStr "success";
                        PTuple [media; status; id'; author'; category'; title'; adult]]) ->
          id (snd out) = id'
          /\ author (snd out) = author'
          /\ category (snd out) = category'
          /\ title (snd out) = title'
          /\ is_live (snd out)
             = (eq_str status "OPEN" && negb (is_None media)) || is_live self)
    /\ (is_live self = true -> is_live (snd out) = true).
Proof.
  intros net channel_id lco self out. subst out. unfold _get_live.
  split; [| split; [| split]].
  - intros message ->. reflexivity.
  - intros ->. reflexivity.
  - intros media status id' author' category' title' adult ->.
    cbn [rbind unpack2 iter eq_str String.eqb Ascii.eqb Bool.eqb is_None
         unpack7]. cbv zeta. unfold _STATUS_OPEN.
    destruct (eq_str status "OPEN"); cbn [negb andb orb].
    + destruct (is_None media); cbn [negb orb snd logged with_metadata
                                      id author category title is_live].
      * now repeat split.
      * destruct lco; cbn [snd with_is_live with_metadata
                           id author category title is_live]; now repeat split.
    + cbn [snd logged with_metadata id author category title is_live].
      now repeat split.
  - intros Hlive.
    destruct (rbind (get_live_detail parse_json is_url net channel_id) unpack2)
      as [[datatype data] | e]; [| exact Hlive].
    destruct (eq_str datatype "error"); [exact Hlive |].
    destruct (is_None data); [exact Hlive |].
    destruct (unpack7 data)
      as [[[[[[[media status] id'] author'] category'] title'] adult] | e];
      [| exact Hlive].
    cbv zeta. destruct (negb (eq_str status _STATUS_OPEN)); [exact Hlive |].
    destruct (is_None media); [exact Hlive |].
    destruct lco; reflexivity.
Qed.

(** X11: the streams of a live channel come from the first media
    descriptor whose protocol and id are both ["HLS"]: the descriptors
    before it are passed over, the ones after it are never looked at, and
    what [parse_variant_playlist] returns or raises for its path is the
    outcome of [_get_live].  When no descriptor is of that kind, the
    method returns [None] although it has marked the plugin as live.
    With [live_check_only], the same plugin state is reached and [None]
    is returned. *)
Theorem get_live_uses_first_hls :
  forall (net : network) (channel_id : string) (self : plugin)
         (media : list pyval) (id' author' category' title' adult : pyval),
    get_live_detail parse_json is_url net channel_id
    = Ok (PTuple [PStr "success";
                  PTuple [PList media; PStr "OPEN";
                          id'; author'; category'; title'; adult]]) ->
    let live := with_is_live true
                  (with_metadata id' author' category' title' self) in
    _get_live parse_json is_url parse_variant_playlist net channel_id true self
    = (Ok None, live)
    /\ (forall skipped media_path rest,
          media = (skipped ++ PTuple [PStr "HLS"; PStr "HLS"; media_path] :: rest)%list ->
          Forall passed_over skipped ->
          _get_live parse_json is_url parse_variant_playlist net channel_id false self
          = (rbind (parse_variant_playlist media_path channel_id)
                   (fun found => Ok (Some found)),
             live))
    /\ (Forall passed_over media ->
        _get_live parse_json is_url parse_variant_playlist net channel_id false self
        = (Ok None, live)).
Proof.
  intros net channel_id self media id' author' category' title' adult Hdetail live.
  subst live. unfold _get_live. rewrite Hdetail.
  cbn [rbind unpack2 iter eq_str String.eqb Ascii.eqb Bool.eqb is_None unpack7].
  cbv zeta. unfold _STATUS_OPEN.
  cbn [eq_str String.eqb Ascii.eqb Bool.eqb negb is_None].
  split; [reflexivity |]. split.
  - intros skipped media_path rest -> Hskipped.
    rewrite (live_from_media_skips _ _ _ Hskipped).
    cbn [live_from_media unpack3 iter rbind eq_str]. rewrite String.eqb_refl.
    reflexivity.
  - intros Hnone.
    rewrite <- (app_nil_r media), (live_from_media_skips _ _ _ Hnone). reflexivity.
Qed.

(** X12: [_get_live] returns streams only for a call without
    [live_check_only] that has marked the plugin as live, and they are
    what [parse_variant_playlist] returned for a media path and this
    channel id.  With [live_check_only], the variant playlist is never
    asked for: the outcome is the same whatever it would answer. *)
Theorem get_live_streams_origin :
  forall (net : network) (channel_id : string) (self : plugin),
    (forall live_check_only found self',
        _get_live parse_json is_url parse_variant_playlist
                  net channel_id live_check_only self
        = (Ok (Some found), self') ->
        live_check_only = false
        /\ is_live self' = true
        /\ exists media_path, parse_variant_playlist media_path channel_id = Ok found)
    /\ (forall other : pyval -> string -> result Streams,
          _get_live parse_json is_url other net channel_id true self
          = _get_live parse_json is_url parse_variant_playlist net channel_id true self).
Proof.
  intros net channel_id self. split.
  - intros lco found self'. unfold _get_live.
    destruct (rbind (get_live_detail parse_json is_url net channel_id) unpack2)
      as [[datatype data] | e]; [| discriminate].
    destruct (eq_str datatype "error"); [discriminate |].
    destruct (is_None data); [discriminate |].
    destruct (unpack7 data)
      as [[[[[[[media status] id'] author'] category'] title'] adult] | e];
      [| discriminate].
    cbv zeta. destruct (negb (eq_str status _STATUS_OPEN)); [discriminate |].
    destruct (is_None media); [discriminate |].
    destruct lco; [discriminate |].
    destruct (iter media) as [items | e]; cbn [rbind]; [| discriminate].
    intros H; injection H as Hfound <-.
    split; [reflexivity |]. split; [reflexivity |].
    now apply (live_from_media_origin channel_id items).
  - intros other. unfold _get_live.
    destruct (rbind (get_live_detail parse_json is_url net channel_id) unpack2)
      as [[datatype data] | e]; [| reflexivity].
    destruct (eq_str datatype "error"); [reflexivity |].
    destruct (is_None data); [reflexivity |].
    destruct (unpack7 data)
      as [[[[[[[media status] id'] author'] category'] title'] adult] | e];
      reflexivity.
Qed.

End Live.

Lemma get_live_sets_metadata_witness :
  let net := sample_network "<live-detail>" "https://edge.example/t/chunklist.m3u8" 0 in
  let out := _get_live sample_parse_json sample_is_url
                       (fun media_path channel_id => Ok (media_path, channel_id))
                       net "c0ffee" true new_plugin in
  id (snd out) = PInt 5
  /\ author (snd out) = PStr "n"
  /\ category (snd out) = PStr "c"
  /\ title (snd out) = PStr "t"
  /\ is_live (snd out) = true.
Proof.
  intros net out.
  apply (proj1 (proj2 (proj2 (get_live_sets_metadata
                                sample_parse_json sample_is_url _
                                (fun media_path channel_id => Ok (media_path, channel_id))
                                net "c0ffee" true new_plugin)))
               (PList [PTuple [PStr "HLS"; PStr "HLS"; PStr "https://x/hls.m3u8"]])
               (PStr "OPEN") (PInt 5) (PStr "n") (PStr "c") (PStr "t") (PBool false)).
  reflexivity.
Defined.

Lemma get_live_uses_first_hls_witness :
  let net := sample_network "<live-detail, three media>"
                            "https://edge.example/t/chunklist.m3u8" 0 in
  _get_live sample_more_json sample_is_url
            (fun media_path channel_id => Ok (media_path, channel_id))
            net "c0ffee" false new_plugin
  = (Ok (Some (PStr "https://x/hls.m3u8", "c0ffee")),
     with_is_live true
       (with_metadata (PInt 5) (PStr "n") (PStr "c") (PStr "t") new_plugin)).
Proof.
  intros net.
  refine (proj1 (proj2 (get_live_uses_first_hls
                          sample_more_json sample_is_url _
                          (fun media_path channel_id => Ok (media_path, channel_id))
                          net "c0ffee" new_plugin
                          [PTuple [PStr "LLHLS"; PStr "HLS"; PStr "https://x/llhls.m3u8"];
                           PTuple [PStr "HLS"; PStr "HLS"; PStr "https://x/hls.m3u8"];
                           PTuple [PStr "HLS"; PStr "HLS"; PStr "https://x/backup.m3u8"]]
                          (PInt 5) (PStr "n") (PStr "c") (PStr "t") (PBool false)
                          eq_refl))
                [PTuple [PStr "LLHLS"; PStr "HLS"; PStr "https://x/llhls.m3u8"]]
                (PStr "https://x/hls.m3u8")
                [PTuple [PStr "HLS"; PStr "HLS"; PStr "https://x/backup.m3u8"]]
                eq_refl _).
  constructor; [| constructor].
  exists (PStr "LLHLS"), (PStr "HLS"), (PStr "https://x/llhls.m3u8").
  split; reflexivity.
Defined.

Lemma get_live_streams_origin_witness :
  let net := sample_network "<live-detail>" "https://edge.example/t/chunklist.m3u8" 0 in
  exists media_path,
    (fun media_path channel_id => Ok (media_path, channel_id)) media_path "c0ffee"
    = @Ok (pyval * string) (PStr "https://x/hls.m3u8", "c0ffee").
Proof.
  intros net.
  apply (proj1 (get_live_streams_origin
                  sample_parse_json sample_is_url _
                  (fun media_path channel_id => Ok (media_path, channel_id))
                  net "c0ffee" new_plugin)
               false (PStr "https://x/hls.m3u8", "c0ffee")
               (with_is_live true
                  (with_metadata (PInt 5) (PStr "n") (PStr "c") (PStr "t") new_plugin))
               eq_refl).
Defined.

(** ** [_get_vod_playback] *)

Section Vod.

Variable DASH : Type.
Variable parse_manifest : string -> result (list (string * DASH)).
Variable mimeType : DASH -> result pyval.
Variable format_ : pyval -> string.

(** The loop yields the streams of type [video/mp2t] in the order of the
    manifest, up to the first stream whose type cannot be read. *)
Lemma each_stream_yields (items : list (string * DASH)) :
  forall yielded r,
    each_stream mimeType items = (yielded, r) ->
    exists k,
      yielded = filter (is_mp2t mimeType) (firstn k items)
      /\ (r = Ok tt -> yielded = filter (is_mp2t mimeType) items)
      /\ (forall e, r = Raise e ->
            exists item, nth_error items k = Some item
                         /\ mimeType (snd item) = Raise e).
Proof.
  induction items as [|[name stream] rest IH]; intros yielded r; cbn [each_stream].
  - intros H; injection H as <- <-. exists 0%nat.
    split; [reflexivity |]. split; [reflexivity | discriminate].
  - destruct (mimeType stream) as [m | e] eqn:Hm.
    + destruct (each_stream mimeType rest) as [ys r0] eqn:Hrest.
      destruct (IH ys r0 eq_refl) as [k [Hys [Hok Hraise]]].
      assert (Hhere : is_mp2t mimeType (name, stream) = eq_str m "video/mp2t")
        by (unfold is_mp2t; cbn [snd]; now rewrite Hm).
      destruct (eq_str m "video/mp2t") eqn:Heq;
        intros H; injection H as <- <-; exists (S k);
        cbn [firstn filter nth_error]; rewrite Hhere.
      * split; [now rewrite Hys |].
        split; [intros Hr; now rewrite (Hok Hr) | exact Hraise].
      * split; [exact Hys |]. split; [exact Hok | exact Hraise].
    + intros H; injection H as <- <-. exists 0%nat.
      split; [reflexivity |]. split; [discriminate |].
      intros e0 H; injection H as <-. exists (name, stream). now split.
Qed.

(** X13: what a run of [_get_vod_playback] yields.  Every stream it
    yields is a stream of the manifest of the playback URL whose type is
    [video/mp2t]; a run that ends without an exception has either logged
    one error and yielded nothing, or has taken the metadata from the
    answer and yielded all the [video/mp2t] streams of the manifest, in
    the order of the manifest.  The method never marks the plugin as
    live. *)
Theorem vod_playback_yields_mp2t :
  forall (datatype data : pyval) (self : plugin) yielded r self',
    _get_vod_playback parse_manifest mimeType format_ datatype data self
    = (yielded, r, self') ->
    is_live self' = is_live self
    /\ (forall item,
          In item yielded ->
          is_mp2t mimeType item = true
          /\ exists adult in_key vod_id metadata items,
               unpack3_star data = Ok (adult, in_key, vod_id, metadata)
               /\ parse_manifest
                    (_API_VOD_PLAYBACK_URL (format_ vod_id) (format_ in_key))
                  = Ok items
               /\ In item items)
    /\ (r = Ok tt ->
        (yielded = [] /\ exists msg, self' = logged ERROR msg self)
        \/ exists adult in_key vod_id id' author' title' category' items,
             unpack3_star data
             = Ok (adult, in_key, vod_id, [id'; author'; title'; category'])
             /\ is_None in_key = false
             /\ is_None vod_id = false
             /\ parse_manifest
                  (_API_VOD_PLAYBACK_URL (format_ vod_id) (format_ in_key))
                = Ok items
             /\ yielded = filter (is_mp2t mimeType) items
             /\ self' = with_metadata id' author' category' title' self).
Proof.
  intros datatype data self yielded r self'. unfold _get_vod_playback.
  destruct (eq_str datatype "error").
  { intros H; injection H as <- <- <-. split; [reflexivity |].
    split; [intros item [] |]. intros _. left. split; [reflexivity | eauto]. }
  destruct (unpack3_star data) as [[[[adult in_key] vod_id] metadata] | e].
  2:{ intros H; injection H as <- <- <-. split; [reflexivity |].
      split; [intros item [] | discriminate]. }
  destruct (is_None in_key || is_None vod_id) eqn:Hnone.
  { intros H; injection H as <- <- <-. split; [reflexivity |].
    split; [intros item [] |]. intros _. left. split; [reflexivity | eauto]. }
  apply orb_false_iff in Hnone as [Hkey Hvod].
  destruct (unpack4 metadata) as [[[[id' author'] title'] category'] | e] eqn:Hmeta.
  2:{ intros H; injection H as <- <- <-. split; [reflexivity |].
      split; [intros item [] | discriminate]. }
  assert (Hfour : metadata = [id'; author'; title'; category']).
  { unfold unpack4 in Hmeta.
    destruct metadata as [|a [|b [|c [|d [|x l]]]]]; try discriminate.
    now injection Hmeta as -> -> -> ->. }
  cbv zeta.
  destruct (parse_manifest _) as [items | e] eqn:Hitems.
  2:{ intros H; injection H as <- <- <-. split; [reflexivity |].
      split; [intros item [] | discriminate]. }
  destruct (each_stream mimeType items) as [ys r0] eqn:Hloop.
  intros H; injection H as <- <- <-.
  destruct (each_stream_yields items ys r0 Hloop) as [k [Hys [Hok _]]].
  split; [reflexivity |]. split.
  - intros item Hin. rewrite Hys in Hin. apply filter_In in Hin as [Hin Hmp2t].
    split; [exact Hmp2t |].
    exists adult, in_key, vod_id, metadata, items.
    split; [reflexivity |]. split; [exact Hitems |].
    rewrite <- (firstn_skipn k items). apply in_or_app. now left.
  - intros Hr. right.
    exists adult, in_key, vod_id, id', author', title', category', items.
    subst metadata. repeat split; try assumption. now apply Hok.
Qed.

(** X14: an answer that is not an error must unpack.  [None] in the
    place of the data makes [_get_vod_playback] raise [TypeError], and
    fewer than three values make it raise [ValueError]; with three values
    or more of which the key or the video id is [None], it logs that the
    stream is for adults only when the adult flag is true, and that it is
    unavailable otherwise, whatever follows the three values; with a key
    and a video id, anything but four more values makes it raise
    [ValueError].  In all these cases nothing is yielded and the metadata
    of the plugin stay as they were. *)
Theorem vod_playback_rejects :
  forall (datatype : pyval) (self : plugin),
    eq_str datatype "error" = false ->
    _get_vod_playback parse_manifest mimeType format_ datatype PNone self
    = ([], Raise TypeError, self)
    /\ (forall values,
          (List.length values < 3)%nat ->
          _get_vod_playback parse_manifest mimeType format_ datatype (PTuple values) self
          = ([], Raise ValueError, self))
    /\ (forall adult in_key vod_id metadata,
          in_key = PNone \/ vod_id = PNone ->
          _get_vod_playback parse_manifest mimeType format_ datatype
            (PTuple (adult :: in_key :: vod_id :: metadata)) self
          = ([], Ok tt,
             logged ERROR
               (Literal (if truthy adult then "This stream is for adults only"
                         else "This stream is unavailable")) self))
    /\ (forall adult in_key vod_id metadata,
          in_key <> PNone ->
          vod_id <> PNone ->
          List.length metadata <> 4%nat ->
          _get_vod_playback parse_manifest mimeType format_ datatype
            (PTuple (adult :: in_key :: vod_id :: metadata)) self
          = ([], Raise ValueError, self)).
Proof.
  intros datatype self Herr. unfold _get_vod_playback. rewrite Herr.
  split; [reflexivity |]. split; [| split].
  - intros values Hlen. cbn [unpack3_star iter rbind].
    destruct values as [|a [|b [|c l]]]; try reflexivity.
    cbn [List.length] in Hlen. lia.
  - intros adult in_key vod_id metadata Hnone.
    cbn [unpack3_star iter rbind].
    assert (H : is_None in_key || is_None vod_id = true).
    { destruct Hnone as [-> | ->]; [reflexivity | apply orb_true_r]. }
    rewrite H. unfold unavailable. now destruct (truthy adult).
  - intros adult in_key vod_id metadata Hkey Hvod Hlen.
    cbn [unpack3_star iter rbind].
    assert (H : is_None in_key || is_None vod_id = false).
    { apply orb_false_iff. split; [now destruct in_key | now destruct vod_id]. }
    rewrite H. unfold unpack4.
    destruct metadata as [|a [|b [|c [|d [|x l]]]]]; try reflexivity.
    now elim Hlen.
Qed.

End Vod.

Lemma vod_playback_yields_mp2t_witness :
  let manifest : string -> result (list (string * string)) :=
    fun _ => Ok [("1080p", "video/mp2t"); ("1080p_alt", "video/mp4");
                 ("720p", "video/mp2t")] in
  let out := _get_vod_playback manifest (fun t => Ok (PStr t))
               (fun v => match v with PStr t => t | _ => "" end)
               (PStr "success")
               (PTuple [PBool false; PStr "key"; PStr "vod"; PInt 7;
                        PStr "n"; PStr "t"; PStr "c"])
               ChzzkPlugin.new_plugin in
  is_live (snd out) = false.
Proof.
  intros manifest out.
  apply (proj1 (vod_playback_yields_mp2t _ manifest (fun t => Ok (PStr t))
                  (fun v => match v with PStr t => t | _ => "" end)
                  (PStr "success")
                  (PTuple [PBool false; PStr "key"; PStr "vod"; PInt 7;
                           PStr "n"; PStr "t"; PStr "c"])
                  ChzzkPlugin.new_plugin
                  (fst (fst out)) (snd (fst out)) (snd out) eq_refl)).
Defined.

Lemma vod_playback_rejects_witness :
  _get_vod_playback (fun _ => @Ok (list (string * string)) [])
    (fun t => Ok (PStr t)) (fun _ => "") (PStr "success") PNone
    ChzzkPlugin.new_plugin
  = ([], Raise TypeError, ChzzkPlugin.new_plugin).
Proof.
  apply (proj1 (vod_playback_rejects _ (fun _ => @Ok (list (string * string)) [])
                  (fun t => Ok (PStr t)) (fun _ => "") (PStr "success")
                  ChzzkPlugin.new_plugin eq_refl)).
Defined.

(** ** The outcomes of a query, and the metadata of a clip *)

Section Outcomes.

Variable parse_json : string -> option pyval.
Variable is_url : string -> bool.

Lemma error_shape_result (j x : pyval) :
  validate parse_json is_url error_shape j = Ok x ->
  exists message, x = PTuple [PStr "error"; message].
Proof.
  unfold error_shape. cbn [validate].
  destruct j; try discriminate.
  match goal with
  | |- rbind (rbind ?e _) _ = _ -> _ => destruct e as [new | e0]
  end; cbn [rbind subscript]; [| discriminate].
  destruct (dict_get "message" new) as [message |]; cbn [rbind]; [| discriminate].
  intros H; injection H as <-. now exists message.
Qed.

Lemma empty_shape_result (j x : pyval) :
  validate parse_json is_url empty_shape j = Ok x ->
  x = PTuple [PStr "success"; PNone].
Proof.
  unfold empty_shape. cbn [validate].
  destruct j; try discriminate.
  match goal with
  | |- rbind (rbind ?e _) _ = _ -> _ => destruct e as [new | e0]
  end; cbn [rbind]; [| discriminate].
  now intros H; injection H as <-.
Qed.

Lemma data_shape_result (schemas : list schema) (j x : pyval) :
  validate parse_json is_url (data_shape schemas) j = Ok x ->
  exists content data,
    validate parse_json is_url (SAll schemas) content = Ok data
    /\ x = PTuple [PStr "success"; data].
Proof.
  unfold data_shape.
  rewrite ChzzkApiSpec.validate_all_app.
  destruct (validate parse_json is_url (SAll [_; _]) j) as [content | e];
    cbn [rbind]; [| discriminate].
  rewrite ChzzkApiSpec.validate_all_app.
  destruct (validate parse_json is_url (SAll schemas) content) as [data | e] eqn:Hd;
    cbn [rbind]; [| discriminate].
  intros H. exists content, data. split; [exact Hd |].
  cbn [validate rbind] in H. now injection H as <-.
Qed.

(** The three outcomes of a query. *)
Lemma classify_shapes (schemas : list schema) (text : string) (x : pyval) :
  classify parse_json is_url schemas text = Ok x ->
  (exists message, x = PTuple [PStr "error"; message])
  \/ x = PTuple [PStr "success"; PNone]
  \/ exists content data,
       validate parse_json is_url (SAll schemas) content = Ok data
       /\ x = PTuple [PStr "success"; data].
Proof.
  destruct (parse_json text) as [j |] eqn:Hparse.
  - rewrite (ChzzkApiSpec.classify_cases _ _ _ _ _ Hparse).
    destruct (validate parse_json is_url error_shape j) as [x0 | e] eqn:H1.
    { intros H; injection H as <-. left. now apply (error_shape_result j). }
    destruct e; try discriminate.
    destruct (validate parse_json is_url empty_shape j) as [x0 | e] eqn:H2.
    { intros H; injection H as <-. right. left. now apply (empty_shape_result j). }
    destruct e; try discriminate.
    destruct (validate parse_json is_url (data_shape schemas) j) as [x0 | e] eqn:H3.
    { intros H; injection H as <-. right. right.
      now apply (data_shape_result schemas j). }
    destruct e; discriminate.
  - unfold classify, Schema, _query_api_schema. cbn [validate rbind].
    rewrite Hparse. discriminate.
Qed.

(** What [get_clips] declares makes a tuple of seven values, the last of
    which is [None]. *)
Lemma clips_schemas_result (content data : pyval) :
  validate parse_json is_url (SAll clips_schemas) content = Ok data ->
  exists adult in_key video_id content_id owner content_title,
    data = PTuple [adult; in_key; video_id; content_id; owner; content_title; PNone].
Proof.
  unfold clips_schemas. cbn [validate].
  destruct (validate parse_json is_url clips_fields content) as [fields | e] eqn:Hf;
    cbn [rbind]; [| discriminate].
  assert (Hdict : exists d, fields = PDict d).
  { revert Hf. unfold clips_fields. cbn [validate].
    destruct content; try discriminate.
    match goal with
    | |- rbind ?e _ = _ -> _ => destruct e as [new | e0]
    end; cbn [rbind]; [| discriminate].
    intros H; injection H as <-. now exists new. }
  destruct Hdict as [d ->]. cbn [rbind].
  repeat match goal with
         | |- context [dict_get ?k d] => destruct (dict_get k d)
         end;
    cbn [rbind]; intros H; injection H as <-;
  repeat eexists.
Qed.

End Outcomes.

Section Clip.

Variable parse_json : string -> option pyval.
Variable is_url : string -> bool.
Variable DASH : Type.
Variable parse_manifest : string -> result (list (string * DASH)).
Variable mimeType : DASH -> result pyval.
Variable format_ : pyval -> string.

(** X15: a clip has no category.  Whatever the API answers,
    [_get_clip] either leaves the id, author, category and title of the
    plugin as they were, or sets the category to [None]: the schema of
    [get_clips] puts [None] in the place the video endpoint has for the
    category.  The method never marks the plugin as live. *)
Theorem get_clip_has_no_category :
  forall (net : network) (clip_id : string) (self : plugin) yielded r self',
    _get_clip parse_json is_url parse_manifest mimeType format_ net clip_id self
    = (yielded, r, self') ->
    is_live self' = is_live self
    /\ ((id self' = id self /\ author self' = author self
         /\ category self' = category self /\ title self' = title self)
        \/ category self' = PNone).
Proof.
  intros net clip_id self yielded r self'. unfold _get_clip.
  destruct (get_clips parse_json is_url net clip_id) as [args | e] eqn:Hget.
  2:{ intros H; injection H as <- <- <-. split; [reflexivity | now left]. }
  unfold get_clips, _query_api in Hget.
  destruct (http_get net (_CLIP_URL clip_id)) as [text | e]; cbn [rbind] in Hget;
    [| discriminate].
  unfold _get_vod_playback_star.
  destruct (classify_shapes _ _ _ _ _ Hget)
    as [[message ->] | [-> | [content [data [Hdata ->]]]]]; cbn [iter].
  - unfold _get_vod_playback. cbn [eq_str String.eqb Ascii.eqb Bool.eqb].
    intros H; injection H as <- <- <-. split; [reflexivity | now left].
  - unfold _get_vod_playback. cbn [eq_str String.eqb Ascii.eqb Bool.eqb].
    cbn [unpack3_star iter rbind].
    intros H; injection H as <- <- <-. split; [reflexivity | now left].
  - destruct (clips_schemas_result _ _ _ _ Hdata)
      as [adult [in_key [video_id [content_id [owner [content_title ->]]]]]].
    unfold _get_vod_playback. cbn [eq_str String.eqb Ascii.eqb Bool.eqb].
    cbn [unpack3_star iter rbind].
    destruct (is_None in_key || is_None video_id).
    { intros H; injection H as <- <- <-. split; [reflexivity | now left]. }
    cbn [unpack4]. cbv zeta.
    destruct (parse_manifest _) as [items | e].
    2:{ intros H; injection H as <- <- <-. split; [reflexivity | now right]. }
    destruct (each_stream mimeType items) as [ys r0].
    intros H; injection H as <- <- <-. split; [reflexivity | now right].
Qed.

End Clip.

Lemma get_clip_has_no_category_witness :
  let net := sample_network "<not found>" "https://edge.example/t/chunklist.m3u8" 0 in
  let out := _get_clip sample_parse_json sample_is_url
               (fun _ => @Ok (list (string * string)) [])
               (fun t => Ok (PStr t)) (fun _ => "") net "clip" ChzzkPlugin.new_plugin in
  is_live (snd out) = false.
Proof.
  intros net out.
  apply (proj1 (get_clip_has_no_category sample_parse_json sample_is_url _
                  (fun _ => @Ok (list (string * string)) [])
                  (fun t => Ok (PStr t)) (fun _ => "") net "clip"
                  ChzzkPlugin.new_plugin
                  (fst (fst out)) (snd (fst out)) (snd out) eq_refl)).
Defined.

(** ** A video, from the response to the metadata *)

Section Video.

Variable parse_json : string -> option pyval.
Variable is_url : string -> bool.

Lemma int_or_None_valid (o : option Z) :
  validate parse_json is_url any_int_None (int_or_None o) = Ok (int_or_None o).
Proof. destruct o; reflexivity. Qed.

Lemma videos_content (c ch : list (string * pyval)) (name : string)
    (in_key video_id video_title video_category : option string)
    (video_no : option Z) (adult : bool) :
  dict_get "inKey" c = Some (str_or_None in_key) ->
  dict_get "videoNo" c = Some (int_or_None video_no) ->
  dict_get "videoId" c = Some (str_or_None video_id) ->
  dict_get "videoTitle" c = Some (str_or_None video_title) ->
  dict_get "videoCategory" c = Some (str_or_None video_category) ->
  dict_get "adult" c = Some (PBool adult) ->
  dict_get "channel" c = Some (PDict ch) ->
  dict_get "channelName" ch = Some (PStr name) ->
  validate parse_json is_url (SAll videos_schemas) (PDict c)
  = Ok (PTuple [ PBool adult; str_or_None in_key; str_or_None video_id;
                 int_or_None video_no; PStr name;
                 str_or_None video_title; str_or_None video_category ]).
Proof.
  intros Hkey Hno Hid Htitle Hcategory Hadult Hchannel Hname.
  pose proof (ChzzkApiSpec.str_or_None_valid parse_json is_url) as Hstr.
  pose proof (int_or_None_valid video_no) as Hint.
  pose proof (ChzzkApiSpec.channel_schema_valid parse_json is_url ch name Hname)
    as Hch.
  unfold videos_schemas, videos_fields, union_get.
  cbn [validate rbind map].
  rewrite Hkey. cbn [rbind]. rewrite Hstr. cbn [rbind].
  rewrite Hno. cbn [rbind]. rewrite Hint. cbn [rbind].
  rewrite Hid. cbn [rbind]. rewrite Hstr. cbn [rbind].
  rewrite Htitle. cbn [rbind]. rewrite Hstr. cbn [rbind].
  rewrite Hcategory. cbn [rbind]. rewrite Hstr. cbn [rbind].
  rewrite Hadult. cbn [rbind].
  change (isinstance (PBool adult) Tbool) with true. cbn [rbind].
  rewrite Hchannel. cbn [rbind]. rewrite Hch. cbn [rbind].
  reflexivity.
Qed.

Variable DASH : Type.
Variable parse_manifest : string -> result (list (string * DASH)).
Variable mimeType : DASH -> result pyval.
Variable format_ : pyval -> string.

(** X16: a video, end to end.  For a response with code 200, not of
    the error shape, whose content holds the seven fields the video
    endpoint declares, [_get_video] takes the id from [videoNo], the
    author from the channel name, the title from [videoTitle] and the
    category from [videoCategory], and asks for the manifest at the
    playback URL made of [videoId] and [inKey]; when [inKey] or [videoId]
    is [None] it yields nothing, leaves the metadata as they were, and
    logs that the stream is for adults only exactly when [adult] is true,
    and that it is unavailable otherwise. *)
Theorem get_video_takes_metadata :
  forall (net : network) (video text : string) (self : plugin)
         (d c ch : list (string * pyval)) (code : pyval) (name : string)
         (in_key video_id video_title video_category : option string)
         (video_no : option Z) (adult : bool),
    http_get net (_VIDEOS_URL video) = Ok text ->
    parse_json text = Some (PDict d) ->
    dict_get "code" d = Some code ->
    eq_int code 200 = true ->
    not_error_shape d code ->
    dict_get "content" d = Some (PDict c) ->
    dict_get "inKey" c = Some (str_or_None in_key) ->
    dict_get "videoNo" c = Some (int_or_None video_no) ->
    dict_get "videoId" c = Some (str_or_None video_id) ->
    dict_get "videoTitle" c = Some (str_or_None video_title) ->
    dict_get "videoCategory" c = Some (str_or_None video_category) ->
    dict_get "adult" c = Some (PBool adult) ->
    dict_get "channel" c = Some (PDict ch) ->
    dict_get "channelName" ch = Some (PStr name) ->
    (forall key vod,
        in_key = Some key ->
        video_id = Some vod ->
        _get_video parse_json is_url parse_manifest mimeType format_ net video self
        = match parse_manifest
                  (_API_VOD_PLAYBACK_URL (format_ (PStr vod)) (format_ (PStr key))) with
          | Ok items =>
              (each_stream mimeType items,
               with_metadata (int_or_None video_no) (PStr name)
                             (str_or_None video_category) (str_or_None video_title)
                             self)
          | Raise e =>
              ([], Raise e,
               with_metadata (int_or_None video_no) (PStr name)
                             (str_or_None video_category) (str_or_None video_title)
                             self)
          end)
    /\ (in_key = None \/ video_id = None ->
        _get_video parse_json is_url parse_manifest mimeType format_ net video self
        = ([], Ok tt,
           logged ERROR
             (Literal (if adult then "This stream is for adults only"
                       else "This stream is unavailable")) self)).
Proof.
  intros net video text self d c ch code name in_key video_id video_title
    video_category video_no adult Hget Hparse Hcode H200 Hnot Hcontent
    Hkey Hno Hid Htitle Hcategory Hadult Hchannel Hname.
  assert (Hanswer :
    get_videos parse_json is_url net video
    = Ok (PTuple [PStr "success";
                  PTuple [ PBool adult; str_or_None in_key; str_or_None video_id;
                           int_or_None video_no; PStr name;
                           str_or_None video_title; str_or_None video_category ]])).
  { unfold get_videos, _query_api. rewrite Hget. cbn [rbind].
    rewrite (ChzzkApiSpec.classify_cases _ _ _ _ _ Hparse).
    rewrite (ChzzkApiSpec.error_shape_fails _ _ _ _ Hcode Hnot).
    rewrite (ChzzkApiSpec.empty_shape_fails _ _ _ _ Hcontent).
    rewrite (ChzzkApiSpec.data_shape_content _ _ _ _ _ _ Hcode H200 Hcontent).
    rewrite (videos_content _ _ _ _ _ _ _ _ _
               Hkey Hno Hid Htitle Hcategory Hadult Hchannel Hname).
    reflexivity. }
  unfold _get_video. rewrite Hanswer.
  unfold _get_vod_playback_star, _get_vod_playback.
  cbn [iter eq_str String.eqb Ascii.eqb Bool.eqb unpack3_star rbind].
  split.
  - intros key vod -> ->. cbn [str_or_None is_None orb unpack4]. cbv zeta.
    destruct (parse_manifest _); reflexivity.
  - intros Hnone.
    assert (H : is_None (str_or_None in_key) || is_None (str_or_None video_id) = true).
    { destruct Hnone as [-> | ->]; [reflexivity | apply orb_true_r]. }
    rewrite H. unfold unavailable. cbn [truthy]. now destruct adult.
Qed.

End Video.

Lemma get_video_takes_metadata_witness :
  _get_video sample_video_json sample_is_url
    (fun _ => @Ok (list (string * string)) [])
    (fun t => Ok (PStr t)) (fun _ => "")
    (sample_video_network "<adult video>") "v1" ChzzkPlugin.new_plugin
  = ([], Ok tt,
     logged ERROR (Literal "This stream is for adults only") ChzzkPlugin.new_plugin).
Proof.
  refine (proj2 (get_video_takes_metadata sample_video_json sample_is_url _
                  (fun _ => @Ok (list (string * string)) [])
                  (fun t => Ok (PStr t)) (fun _ => "")
                  (sample_video_network "<adult video>") "v1" "<adult video>"
                  ChzzkPlugin.new_plugin
                  [ ("code", PInt 200); ("message", PNone);
                    ("content",
                     PDict [ ("inKey", PNone);
                             ("videoNo", PInt 8);
                             ("videoId", PNone);
                             ("videoTitle", PStr "t");
                             ("videoCategory", PNone);
                             ("adult", PBool true);
                             ("channel", PDict [ ("channelName", PStr "n") ]) ]) ]
                  [ ("inKey", PNone);
                    ("videoNo", PInt 8);
                    ("videoId", PNone);
                    ("videoTitle", PStr "t");
                    ("videoCategory", PNone);
                    ("adult", PBool true);
                    ("channel", PDict [ ("channelName", PStr "n") ]) ]
                  [ ("channelName", PStr "n") ]
                  (PInt 200) "n" None None (Some "t") None (Some 8) true
                  eq_refl eq_refl eq_refl eq_refl
                  _
                  eq_refl eq_refl eq_refl eq_refl eq_refl eq_refl eq_refl
                  eq_refl eq_refl) _).
  - right. intros message H. discriminate H.
  - now left.
Defined.

End ChzzkPluginSpec.

(* ================================================================== *)
(** * More on the AfreecaTV plugin *)
(* ================================================================== *)

Module AfreecaMore.
Import Py Afreeca AfreecaUrl PyFacts.

(** ** What the statements keep *)

Lemma keeps_bind {R A B C} (f : AfreecaTV -> C) (m : M R A) (k : A -> M R B) :
  keeps f m -> (forall a, keeps f (k a)) -> keeps f (bind m k).
Proof.
  intros Hm Hk st o st'. unfold bind.
  destruct (m st) as [[a | v | e] st0] eqn:E.
  - intros H. rewrite (Hk a _ _ _ H). apply (Hm _ _ _ E).
  - intros H; injection H as <- <-. apply (Hm _ _ _ E).
  - intros H; injection H as <- <-. apply (Hm _ _ _ E).
Qed.

Lemma keeps_next {R A C} (f : AfreecaTV -> C) (a : A) : keeps f (@next R A a).
Proof. intros st o st' H; now injection H as <- <-. Qed.

Lemma keeps_return {R A C} (f : AfreecaTV -> C) (v : R) : keeps f (@return_ R A v).
Proof. intros st o st' H; now injection H as <- <-. Qed.

Lemma keeps_raise {R A C} (f : AfreecaTV -> C) (e : exn) : keeps f (@raise R A e).
Proof. intros st o st' H; now injection H as <- <-. Qed.

Lemma keeps_lift {R A C} (f : AfreecaTV -> C) (r : result A) : keeps f (@lift R A r).
Proof. intros st o st'; unfold lift; destruct r; intros H; now injection H as <- <-. Qed.

Lemma keeps_read {R A C} (f : AfreecaTV -> C) (g : AfreecaTV -> A) :
  keeps f (@read R A g).
Proof. intros st o st' H; now injection H as <- <-. Qed.

Lemma keeps_update {R C} (f : AfreecaTV -> C) (g : AfreecaTV -> AfreecaTV) :
  (forall st, f (g st) = f st) -> keeps f (@update R g).
Proof. intros Hg st o st' H; injection H as <- <-. apply Hg. Qed.

Lemma keeps_call {R A C} (f : AfreecaTV -> C)
    (h : AfreecaTV -> result A * AfreecaTV) :
  (forall st r st', h st = (r, st') -> f st' = f st) -> keeps f (@call R A h).
Proof.
  intros Hh st o st'. unfold call.
  destruct (h st) as [[a | e] st0] eqn:E; intros H; injection H as <- <-;
    apply (Hh _ _ _ E).
Qed.

Lemma def_keeps {R C} (f : AfreecaTV -> C) (body : M (option R) unit) :
  keeps f body -> forall st r st', def body st = (r, st') -> f st' = f st.
Proof.
  intros Hb st r st'. unfold def.
  destruct (body st) as [[a | v | e] st0] eqn:E; intros H; injection H as <- <-;
    apply (Hb _ _ _ E).
Qed.

Ltac keeps :=
  repeat first
    [ apply keeps_next | apply keeps_return | apply keeps_raise
    | apply keeps_lift | apply keeps_read
    | apply keeps_update; intros ?; reflexivity
    | apply keeps_bind; [| intros ?]
    | match goal with
      | |- keeps _ (match ?x with _ => _ end) => destruct x
      | |- keeps _ (if ?x then _ else _) => destruct x
      | |- keeps _ (let '(_, _) := ?x in _) => destruct x
      end ].

(** The loop over the presets only asks the network: it leaves the
    plugin as it was and never returns from the function. *)
Lemma each_preset_state (env : site) broadcast username rmd stream_password
    (items : list Preset) :
  forall acc st o st',
    each_preset env broadcast username rmd stream_password items acc st = (o, st') ->
    st' = st /\ forall v, o <> Return v.
Proof.
  induction items as [|item rest IH]; intros acc st o st'; cbn [each_preset].
  - intros H; injection H as <- <-. split; [reflexivity | discriminate].
  - destruct (String.eqb (name item) "auto"); [apply IH |].
    unfold bind, lift.
    destruct (_get_hls_stream env broadcast username (name item) rmd stream_password)
      as [[hls |] | e].
    + apply IH.
    + apply IH.
    + intros H; injection H as <- <-. split; [reflexivity | discriminate].
Qed.

Lemma each_preset_keeps {C} (f : AfreecaTV -> C) (env : site)
    broadcast username rmd stream_password items acc :
  keeps f (each_preset env broadcast username rmd stream_password items acc).
Proof.
  intros st o st' H. now destruct (each_preset_state _ _ _ _ _ _ _ _ _ _ H) as [-> _].
Qed.

(** ** [_login] *)

(** X17: a login succeeds exactly when the login endpoint answers an
    object whose [RESULT] equals 1, and the cookies are saved exactly
    then, once.  A reply that is not an object makes [_login] raise
    [AttributeError] after the reply was logged; an exception of the
    endpoint goes up with nothing logged.  Nothing else of the plugin
    changes: a successful login does not mark the plugin as
    authenticated. *)
Theorem login_saves_cookies_on_success :
  forall (env : site) (username password : string) (st : AfreecaTV) r st',
    _login env username password st = (r, st') ->
    (r = Ok (Some true) <->
     exists d v,
       login_reply env username password = Ok (PDict d)
       /\ dict_get "RESULT" d = Some v
       /\ eq_int v 1 = true)
    /\ cookie_ops st'
       = (cookie_ops st ++ match r with
                           | Ok (Some true) => [save_cookies]
                           | _ => []
                           end)%list
    /\ (forall e, login_reply env username password = Raise e ->
                  r = Raise e /\ st' = st)
    /\ (forall data, login_reply env username password = Ok data ->
                     log st' = (log st ++ [(TRACE, ReprData data)])%list
                     /\ ((forall d, data <> PDict d) -> r = Raise AttributeError))
    /\ r <> Ok None
    /\ _authed st' = _authed st
    /\ is_live st' = is_live st
    /\ id st' = id st.
Proof.
  intros env username password st r st'.
  unfold _login, def. unfold bind at 1. unfold lift at 1.
  destruct (login_reply env username password) as [data | e] eqn:Hreply.
  2:{ intros H; injection H as <- <-.
      split; [split; [discriminate | now intros [d [v [H _]]]] |].
      split; [now rewrite app_nil_r |].
      split; [intros e0 H; injection H as <-; now split |].
      split; [discriminate |]. now repeat split. }
  unfold bind at 1. unfold log_ at 1, update at 1.
  unfold bind at 1. unfold lift at 1.
  destruct data as [| b | n | f | s | l | l | d]; cbn [login_failed];
    try (intros H; injection H as <- <-;
         split; [split; [discriminate | intros [d [v [H _]]]; discriminate] |];
         split; [cbn [logged cookie_ops]; now rewrite app_nil_r |];
         split; [discriminate |];
         split; [intros data H; injection H as <-; split; [reflexivity | reflexivity] |];
         split; [discriminate |]; now repeat split).
  destruct (dict_get "RESULT" d) as [v |] eqn:Hres.
  - destruct (eq_int v CHANNEL_RESULT_OK) eqn:Hok; cbn [negb];
      unfold bind, return_, next, cookies, update; intros H; injection H as <- <-.
    + split; [split; [intros _; now exists d, v | reflexivity] |].
      split; [reflexivity |]. split; [discriminate |].
      split; [| split; [discriminate | now repeat split]].
      intros data H; injection H as <-. split; [reflexivity |].
      intros Hno. now elim (Hno d).
    + split.
      { split; [discriminate |]. intros [d0 [v0 [H0 [H1 H2]]]].
        injection H0 as <-. rewrite Hres in H1. injection H1 as <-.
        unfold CHANNEL_RESULT_OK in Hok. congruence. }
      split; [cbn [logged cookie_ops]; now rewrite app_nil_r |].
      split; [discriminate |].
      split; [| split; [discriminate | now repeat split]].
      intros data H; injection H as <-. split; [reflexivity |].
      intros Hno. now elim (Hno d).
  - unfold bind, return_; intros H; injection H as <- <-.
    split.
    { split; [discriminate |]. intros [d0 [v0 [H0 [H1 H2]]]].
      injection H0 as <-. congruence. }
    split; [cbn [logged cookie_ops]; now rewrite app_nil_r |].
    split; [discriminate |].
    split; [| split; [discriminate | now repeat split]].
    intros data H; injection H as <-. split; [reflexivity |].
    intros Hno. now elim (Hno d).
Qed.

Lemma login_saves_cookies_on_success_witness :
  cookie_ops (snd (_login sample_page_site "user" "secret" Afreeca.new_plugin))
  = [save_cookies].
Proof.
  apply (proj1 (proj2 (login_saves_cookies_on_success sample_page_site "user" "secret"
                         Afreeca.new_plugin
                         (fst (_login sample_page_site "user" "secret" Afreeca.new_plugin))
                         (snd (_login sample_page_site "user" "secret" Afreeca.new_plugin))
                         eq_refl))).
Defined.

(** ** What a run of [_get_streams] keeps *)

Lemma login_keeps {C} (f : AfreecaTV -> C) (env : site) (username password : string) :
  (forall st lv msg, f (logged lv msg st) = f st) ->
  (forall st op,
      f {| _authed := _authed st; id := id st; author := author st;
           title := title st; broadcast_start_time := broadcast_start_time st;
           is_live := is_live st; headers := headers st;
           cookie_ops := cookie_ops st ++ [op]; log := log st |} = f st) ->
  forall st r st', _login env username password st = (r, st') -> f st' = f st.
Proof.
  intros Hlog Hcookie. apply def_keeps.
  unfold log_, cookies.
  repeat first
    [ apply keeps_next | apply keeps_return | apply keeps_lift
    | apply keeps_update; intros ?; first [apply Hlog | apply Hcookie]
    | apply keeps_bind; [| intros ?]
    | match goal with
      | |- keeps _ (if ?x then _ else _) => destruct x
      end ].
Qed.

Lemma scrape_page_keeps {C} (f : AfreecaTV -> C) (env : site) :
  (forall st lv msg, f (logged lv msg st) = f st) ->
  (forall st a b c d e,
      f {| _authed := _authed st; id := a; author := b; title := c;
           broadcast_start_time := d; is_live := e; headers := headers st;
           cookie_ops := cookie_ops st; log := log st |} = f st) ->
  keeps f (scrape_page env).
Proof.
  intros Hlog Hmeta.
  unfold scrape_page, log_, set_id, set_author, set_title,
    set_broadcast_start_time, set_is_live.
  repeat first
    [ apply keeps_next | apply keeps_return | apply keeps_lift
    | apply keeps_update; intros ?; first [apply Hlog | apply Hmeta]
    | apply keeps_bind; [| intros ?]
    | match goal with
      | |- keeps _ (match ?x with _ => _ end) => destruct x
      end ].
Qed.

Lemma from_channel_keeps {C} (f : AfreecaTV -> C) (env : site)
    bno username stream_password :
  (forall st lv msg, f (logged lv msg st) = f st) ->
  (forall st a b c d e,
      f {| _authed := _authed st; id := a; author := b; title := c;
           broadcast_start_time := d; is_live := e; headers := headers st;
           cookie_ops := cookie_ops st; log := log st |} = f st) ->
  keeps f (from_channel env bno username stream_password).
Proof.
  intros Hlog Hmeta.
  unfold from_channel, log_, set_id, set_author, set_title, set_is_live.
  repeat first
    [ apply keeps_next | apply keeps_return | apply keeps_lift | apply keeps_raise
    | apply each_preset_keeps
    | apply keeps_update; intros ?; first [apply Hlog | apply Hmeta]
    | apply keeps_bind; [| intros ?]
    | match goal with
      | |- keeps _ (match ?x with _ => _ end) => destruct x
      | |- keeps _ (if ?x then _ else _) => destruct x
      end ].
Qed.

(** The statements of [before_live_check] after the update of the
    headers and the purge of the credentials. *)
Lemma authenticate_keeps {C} (f : AfreecaTV -> C) (env : site)
    (k : string * option string
         -> M (option streams) (string * string * option string * option string)) :
  (forall st lv msg, f (logged lv msg st) = f st) ->
  (forall st op,
      f {| _authed := _authed st; id := id st; author := author st;
           title := title st; broadcast_start_time := broadcast_start_time st;
           is_live := is_live st; headers := headers st;
           cookie_ops := cookie_ops st ++ [op]; log := log st |} = f st) ->
  (forall st a b c d e,
      f {| _authed := _authed st; id := a; author := b; title := c;
           broadcast_start_time := d; is_live := e; headers := headers st;
           cookie_ops := cookie_ops st; log := log st |} = f st) ->
  (forall found, keeps f (k found)) ->
  keeps f
    (authed <- read _authed ;;
     (if authed : bool then
        log_ DEBUG (Msg "Attempting to authenticate using cached cookies")
      else
        match option_username env, option_password env with
        | Some (String a u), Some (String b p) =>
            log_ DEBUG (Msg "Attempting to login using username and password") ;;
            ok <- call (_login env (String a u) (String b p)) ;;
            match ok with
            | Some true => log_ INFO (Msg "Login was successful")
            | _ => log_ ERROR (Msg "Failed to login")
            end
        | _, _ => next tt
        end) ;;
     found <- match match_bno env with
              | Some bno => next (bno, None)
              | None => scrape_page env
              end ;;
     k found).
Proof.
  intros Hlog Hcookie Hmeta Hk. unfold log_.
  repeat first
    [ apply keeps_next | apply keeps_read | apply Hk
    | apply scrape_page_keeps; assumption
    | apply keeps_call; apply login_keeps; assumption
    | apply keeps_update; intros ?; apply Hlog
    | apply keeps_bind; [| intros ?]
    | match goal with
      | |- keeps _ (match ?x with _ => _ end) => destruct x
      | |- keeps _ (if ?x then _ else _) => destruct x
      end ].
Qed.

Lemma lookup_dict_set_same {V} (k : string) (v : V) (d : list (string * V)) :
  lookup k (dict_set k v d) = Some v.
Proof.
  induction d as [|[k' v'] d IH]; cbn [dict_set lookup].
  - now rewrite String.eqb_refl.
  - destruct (String.eqb k' k) eqn:E; cbn [lookup]; [now rewrite String.eqb_refl |].
    now rewrite E.
Qed.

Lemma lookup_dict_set_other {V} (k k0 : string) (v : V) (d : list (string * V)) :
  k <> k0 -> lookup k0 (dict_set k v d) = lookup k0 d.
Proof.
  intros Hne. induction d as [|[k' v'] d IH]; cbn [dict_set lookup].
  - apply String.eqb_neq in Hne. now rewrite Hne.
  - destruct (String.eqb k' k) eqn:E; cbn [lookup].
    + apply String.eqb_eq in E; subst k'. apply String.eqb_neq in Hne. now rewrite Hne.
    + now rewrite IH.
Qed.

(** The whole of [_get_streams] after the update of the headers and the
    purge keeps what logging, the cookie cache and the metadata do not
    touch. *)
Lemma get_streams_tail_keeps {C} (f : AfreecaTV -> C) (env : site)
    (live_check_only : bool) :
  (forall st lv msg, f (logged lv msg st) = f st) ->
  (forall st op,
      f {| _authed := _authed st; id := id st; author := author st;
           title := title st; broadcast_start_time := broadcast_start_time st;
           is_live := is_live st; headers := headers st;
           cookie_ops := cookie_ops st ++ [op]; log := log st |} = f st) ->
  (forall st a b c d e,
      f {| _authed := _authed st; id := a; author := b; title := c;
           broadcast_start_time := d; is_live := e; headers := headers st;
           cookie_ops := cookie_ops st; log := log st |} = f st) ->
  forall st r st',
    _get_streams env live_check_only st = (r, st') ->
    f st'
    = f (let st1 :=
           {| _authed := _authed st; id := id st; author := author st;
              title := title st; broadcast_start_time := broadcast_start_time st;
              is_live := is_live st;
              headers := dict_set "Origin" "https://play.afreecatv.com"
                           (dict_set "Referer" (plugin_url env) (headers st));
              cookie_ops := cookie_ops st; log := log st |} in
         if option_purge_credentials env then
           {| _authed := false; id := id st1; author := author st1;
              title := title st1; broadcast_start_time := broadcast_start_time st1;
              is_live := is_live st1; headers := headers st1;
              cookie_ops := cookie_ops st1 ++ [clear_cookies]; log := log st1 |}
         else st1).
Proof.
  intros Hlog Hcookie Hmeta st r st'.
  unfold _get_streams, _get_streams_with, def, before_live_check.
  unfold bind at 1. unfold bind at 1.
  unfold headers_update at 1, update at 1. cbn [fold_left fst snd].
  set (st1 := {| _authed := _authed st; id := id st; author := author st;
                 title := title st; broadcast_start_time := broadcast_start_time st;
                 is_live := is_live st;
                 headers := dict_set "Origin" "https://play.afreecatv.com"
                              (dict_set "Referer" (plugin_url env) (headers st));
                 cookie_ops := cookie_ops st; log := log st |}).
  unfold bind at 1.
  set (st2 := if option_purge_credentials env then
                {| _authed := false; id := id st1; author := author st1;
                   title := title st1;
                   broadcast_start_time := broadcast_start_time st1;
                   is_live := is_live st1; headers := headers st1;
                   cookie_ops := cookie_ops st1 ++ [clear_cookies]; log := log st1 |}
              else st1).
  assert (Hpurge :
    (if option_purge_credentials env
     then cookies clear_cookies ;; set__authed false ;;
          log_ INFO (Msg "All credentials were successfully removed")
     else @next (option streams) unit tt) st1
    = (Next tt, if option_purge_credentials env
                then logged INFO (Msg "All credentials were successfully removed") st2
                else st2)).
  { subst st2. destruct (option_purge_credentials env); reflexivity. }
  rewrite Hpurge. clear Hpurge.
  set (st3 := if option_purge_credentials env
              then logged INFO (Msg "All credentials were successfully removed") st2
              else st2).
  assert (H3 : f st3 = f st2).
  { subst st3. destruct (option_purge_credentials env); [apply Hlog | reflexivity]. }
  rewrite <- H3. clear H3.
  match goal with
  | |- match match ?m st3 with _ => _ end with _ => _ end = _ -> _ =>
      pose proof (authenticate_keeps f env
                    (fun found => next (fst found, match_username env,
                                        option_stream_password env, snd found))
                    Hlog Hcookie Hmeta (fun found => keeps_next f _)) as Hauth;
      destruct (m st3) as [[[[[bno username] pw] res] | v | e] st4] eqn:Hbefore
  end.
  - apply Hauth in Hbefore. rewrite <- Hbefore.
    destruct live_check_only.
    + unfold bind, return_. intros H; injection H as _ <-. reflexivity.
    + unfold bind at 1. unfold next at 1.
      pose proof (from_channel_keeps f env bno username pw Hlog Hmeta) as Hfrom.
      destruct (from_channel env bno username pw st4) as [[a | v | e] st5] eqn:E;
        intros H; injection H as _ <-; apply (Hfrom _ _ _ E).
  - apply Hauth in Hbefore. intros H; injection H as _ <-. exact Hbefore.
  - apply Hauth in Hbefore. intros H; injection H as _ <-. exact Hbefore.
Qed.

(** X18: every run of [_get_streams], however it ends, leaves the
    session with the [Referer] header set to the URL of the plugin and
    the [Origin] header set to the player site. *)
Theorem get_streams_sets_headers :
  forall (env : site) (live_check_only : bool) (st : AfreecaTV),
    let st' := snd (_get_streams env live_check_only st) in
    lookup "Referer" (headers st') = Some (plugin_url env)
    /\ lookup "Origin" (headers st') = Some "https://play.afreecatv.com".
Proof.
  intros env lco st st'. subst st'.
  destruct (_get_streams env lco st) as [r st'] eqn:Hrun. cbn [snd].
  rewrite (get_streams_tail_keeps headers env lco
             (fun _ _ _ => eq_refl) (fun _ _ => eq_refl)
             (fun _ _ _ _ _ _ => eq_refl) _ _ _ Hrun).
  assert (H : forall b (x y : AfreecaTV), headers x = headers y ->
                headers (if b : bool then x else y) = headers y)
    by (intros [] x y Hxy; [exact Hxy | reflexivity]).
  cbv zeta. rewrite H by reflexivity. cbn [headers].
  split.
  - rewrite lookup_dict_set_other by discriminate. apply lookup_dict_set_same.
  - apply lookup_dict_set_same.
Qed.

(** X19: [_get_streams] never marks the plugin as authenticated.  After
    any run, [_authed] holds only if it held before and the credentials
    were not purged; in particular it stays false after a successful
    login with the user name and the password. *)
Theorem get_streams_never_sets_authed :
  forall (env : site) (live_check_only : bool) (st : AfreecaTV) r st',
    _get_streams env live_check_only st = (r, st') ->
    _authed st' = _authed st && negb (option_purge_credentials env).
Proof.
  intros env lco st r st' Hrun.
  rewrite (get_streams_tail_keeps _authed env lco
             (fun _ _ _ => eq_refl) (fun _ _ => eq_refl)
             (fun _ _ _ _ _ _ => eq_refl) _ _ _ Hrun).
  cbv zeta. destruct (option_purge_credentials env); cbn [_authed negb].
  - now rewrite andb_false_r.
  - now rewrite andb_true_r.
Qed.

Lemma get_streams_never_sets_authed_witness :
  _authed (snd (_get_streams sample_page_site false
                  {| _authed := true; id := None; author := None; title := None;
                     broadcast_start_time := None; is_live := false;
                     headers := []; cookie_ops := []; log := [] |}))
  = false.
Proof.
  apply (get_streams_never_sets_authed sample_page_site false
           {| _authed := true; id := None; author := None; title := None;
              broadcast_start_time := None; is_live := false;
              headers := []; cookie_ops := []; log := [] |}
           (fst (_get_streams sample_page_site false
                   {| _authed := true; id := None; author := None; title := None;
                      broadcast_start_time := None; is_live := false;
                      headers := []; cookie_ops := []; log := [] |}))
           _ eq_refl).
Defined.

(** ** Taking a run apart *)

Lemma bind_inv {R A B} (m : M R A) (k : A -> M R B) (st : AfreecaTV) o st' :
  bind m k st = (o, st') ->
  (exists a st1, m st = (Next a, st1) /\ k a st1 = (o, st'))
  \/ (exists v, m st = (Return v, st') /\ o = Return v)
  \/ (exists e, m st = (Raised e, st') /\ o = Raised e).
Proof.
  unfold bind. destruct (m st) as [[a | v | e] st1].
  - intros H. left. now exists a, st1.
  - intros H; injection H as <- <-. right. left. now exists v.
  - intros H; injection H as <- <-. right. right. now exists e.
Qed.

(** The authentication leaves the metadata alone and does not return
    from the function. *)
Lemma authenticate_inv (env : site) (st : AfreecaTV) o st' :
  authenticate env st = (o, st') ->
  same_metadata st' st /\ forall v, o <> Return v.
Proof.
  intros H. split.
  - assert (K : keeps (fun s => (id s, author s, title s, broadcast_start_time s,
                                 is_live s)) (authenticate env)).
    { unfold authenticate, log_.
      repeat first
        [ apply keeps_next | apply keeps_read
        | apply keeps_call; apply login_keeps; reflexivity
        | apply keeps_update; intros ?; reflexivity
        | apply keeps_bind; [| intros ?]
        | match goal with
          | |- keeps _ (match ?x with _ => _ end) => destruct x
          | |- keeps _ (if ?x then _ else _) => destruct x
          end ]. }
    apply K in H. unfold same_metadata. injection H; intros. now repeat split.
  - intros v ->.
    assert (N : returns_None (authenticate env)).
    { unfold authenticate, log_.
      repeat first
        [ apply AfreecaSpec.returns_None_next | apply AfreecaSpec.returns_None_update
        | apply AfreecaSpec.returns_None_read | apply AfreecaSpec.returns_None_call
        | apply AfreecaSpec.returns_None_bind; [| intros ?]
        | match goal with
          | |- returns_None (match ?x with _ => _ end) => destruct x
          | |- returns_None (if ?x then _ else _) => destruct x
          end ]. }
    revert H. unfold authenticate. unfold bind at 1. unfold read at 1.
    destruct (_authed st).
    + discriminate.
    + destruct (option_username env) as [[|a u] |]; try discriminate.
      destruct (option_password env) as [[|b p] |]; try discriminate.
      unfold bind at 1. unfold log_ at 1, update at 1.
      unfold bind at 1. unfold call.
      destruct (_login env (String a u) (String b p) _) as [[ok | e] st1];
        [| discriminate].
      destruct ok as [[|] |]; discriminate.
Qed.

Lemma bind_assoc {R A B C} (m : M R A) (k : A -> M R B) (k2 : B -> M R C)
    (st : AfreecaTV) :
  bind (bind m k) k2 st = bind m (fun a => bind (k a) k2) st.
Proof. unfold bind. destruct (m st) as [[a | v | e] st1]; reflexivity. Qed.

(** Two continuations that agree where the first statement leads give
    the same sequence. *)
Lemma bind_ext_at {R A B} (m : M R A) (k1 k2 : A -> M R B) (st : AfreecaTV) :
  (forall a st', m st = (Next a, st') -> k1 a st' = k2 a st') ->
  bind m k1 st = bind m k2 st.
Proof.
  intros H. unfold bind. destruct (m st) as [[a | v | e] st']; auto.
Qed.

(** [before_live_check], statement by statement. *)
Lemma before_live_check_steps (env : site) (st : AfreecaTV) :
  before_live_check env st
  = (headers_update [("Referer", plugin_url env);
                     ("Origin", "https://play.afreecatv.com")] ;;
     (if option_purge_credentials env then
        cookies clear_cookies ;;
        set__authed false ;;
        log_ INFO (Msg "All credentials were successfully removed")
      else next tt) ;;
     authenticate env ;;
     found <- match match_bno env with
              | Some bno => next (bno, None)
              | None => scrape_page env
              end ;;
     next (fst found, match_username env, option_stream_password env, snd found)) st.
Proof.
  unfold before_live_check, authenticate. cbv zeta.
  apply AfreecaSpec.bind_ext; intros [] st1.
  apply AfreecaSpec.bind_ext; intros [] st2.
  symmetry. apply bind_assoc.
Qed.

(** [before_live_check] is the authentication, which leaves the
    metadata alone and can only raise, and then either the broadcast
    number of the URL or the page. *)
Lemma before_live_check_inv (env : site) (st : AfreecaTV) o st' :
  before_live_check env st = (o, st') ->
  exists st1,
    same_metadata st1 st
    /\ ((st' = st1 /\ exists e, o = Raised e)
        \/ exists o',
             match match_bno env with
             | Some bno => next (bno, None)
             | None => scrape_page env
             end st1 = (o', st')
             /\ o = match o' with
                    | Next found =>
                        Next (fst found, match_username env,
                              option_stream_password env, snd found)
                    | Return v => Return v
                    | Raised e => Raised e
                    end).
Proof.
  rewrite before_live_check_steps. intros H.
  apply bind_inv in H as [[[] [st1 [H1 H]]] | [[v [H1 _]] | [e [H1 _]]]];
    [| discriminate H1 | discriminate H1].
  assert (M1 : same_metadata st1 st) by (injection H1 as <-; now repeat split).
  clear H1.
  apply bind_inv in H as [[[] [st2 [H2 H]]] | [[v [H2 _]] | [e [H2 _]]]].
  2:{ destruct (option_purge_credentials env); discriminate H2. }
  2:{ destruct (option_purge_credentials env); discriminate H2. }
  assert (M2 : same_metadata st2 st).
  { destruct (option_purge_credentials env); injection H2 as <-; exact M1. }
  clear H2 M1 st1.
  apply bind_inv in H as [[[] [st3 [H3 H]]] | [[v [H3 ->]] | [e [H3 ->]]]].
  - apply authenticate_inv in H3 as [M3 _].
    exists st3. split.
    { unfold same_metadata in *. intuition congruence. }
    right.
    apply bind_inv in H as [[found [st4 [H4 H]]] | [[v [H4 ->]] | [e [H4 ->]]]].
    + injection H as <- <-. now exists (Next found).
    + now exists (Return v).
    + now exists (Raised e).
  - apply authenticate_inv in H3 as [_ N]. now elim (N v).
  - apply authenticate_inv in H3 as [M3 _].
    exists st'. split.
    { unfold same_metadata in *. intuition congruence. }
    left. split; [reflexivity | now exists e].
Qed.

(** ** The live check *)

Lemma scrape_page_inv (env : site) (st : AfreecaTV) o st' :
  scrape_page env st = (o, st') ->
  (exists text bno bjnick title' bstart_time t,
      page_text env (plugin_url env) = Ok text
      /\ _re_bno env text = Some bno
      /\ _re_bjnick env text = Some bjnick
      /\ _re_title env text = Some title'
      /\ _re_bstart_time env text = Some bstart_time
      /\ strptime env (bstart_time ++ "+0900") "%Y-%m-%d %H:%M:%S%z" = Ok t
      /\ o = Next (bno, Some text)
      /\ id st' = Some bno
      /\ author st' = Some bjnick
      /\ title st' = Some title'
      /\ broadcast_start_time st' = Some t
      /\ is_live st' = true)
  \/ ((forall found, o <> Next found) /\ is_live st' = is_live st).
Proof.
  unfold scrape_page. unfold bind at 1. unfold lift at 1.
  destruct (page_text env (plugin_url env)) as [text | e] eqn:Hpage.
  2:{ intros H; injection H as <- <-. right. split; [discriminate | reflexivity]. }
  destruct (_re_bno env text) as [bno |] eqn:Hbno.
  2:{ intros H; injection H as <- <-. right. split; [discriminate | reflexivity]. }
  unfold bind at 1. unfold set_id at 1, update at 1.
  destruct (_re_bjnick env text) as [bjnick |] eqn:Hbjnick.
  2:{ intros H; injection H as <- <-. right. split; [discriminate | reflexivity]. }
  unfold bind at 1. unfold set_author at 1, update at 1.
  destruct (_re_title env text) as [title' |] eqn:Htitle.
  2:{ intros H; injection H as <- <-. right. split; [discriminate | reflexivity]. }
  unfold bind at 1. unfold set_title at 1, update at 1.
  destruct (_re_bstart_time env text) as [bstart_time |] eqn:Hbstart.
  2:{ intros H; injection H as <- <-. right. split; [discriminate | reflexivity]. }
  unfold bind at 1. unfold lift at 1.
  destruct (strptime env _ _) as [t | e] eqn:Htime.
  2:{ intros H; injection H as <- <-. right. split; [discriminate | reflexivity]. }
  intros H; injection H as <- <-. left.
  exists text, bno, bjnick, title', bstart_time, t. now repeat split.
Qed.

(** X20: a live check ([live_check_only]) never returns streams, and
    it marks the plugin as live only from the page: when the URL gave no
    broadcast number and the page was fetched, the number, the nickname,
    the title and the start time were all found in it and the start time
    was parsed, which also give the plugin its id, author, title and
    start time.  When the URL carries a broadcast number, a live check
    leaves all the metadata, and the live mark, as they were. *)
Theorem live_check_reads_the_page :
  forall (env : site) (st : AfreecaTV) r st',
    _get_streams env true st = (r, st') ->
    (forall found, r <> Ok (Some found))
    /\ (forall bno, match_bno env = Some bno -> same_metadata st' st)
    /\ (match_bno env = None ->
        is_live st' = is_live st
        \/ (r = Ok None
            /\ exists text bno bjnick title' bstart_time t,
                 page_text env (plugin_url env) = Ok text
                 /\ _re_bno env text = Some bno
                 /\ _re_bjnick env text = Some bjnick
                 /\ _re_title env text = Some title'
                 /\ _re_bstart_time env text = Some bstart_time
                 /\ strptime env (bstart_time ++ "+0900") "%Y-%m-%d %H:%M:%S%z" = Ok t
                 /\ id st' = Some bno
                 /\ author st' = Some bjnick
                 /\ title st' = Some title'
                 /\ broadcast_start_time st' = Some t
                 /\ is_live st' = true)).
Proof.
  intros env st r st'. unfold _get_streams, _get_streams_with, def.
  unfold bind at 1.
  destruct (before_live_check env st) as [o st1] eqn:Hbefore.
  pose proof (AfreecaSpec.before_live_check_returns_None env) as Hnone.
  destruct (before_live_check_inv env st o st1 Hbefore)
    as [st0 [Hmeta [[-> [e ->]] | [o' [Hfound ->]]]]].
  - intros H; injection H as <- <-.
    split; [discriminate |]. split; [intros bno _; exact Hmeta |].
    intros _. left. apply Hmeta.
  - destruct (match_bno env) as [bno |] eqn:Hbno.
    + injection Hfound as <- <-. cbn [fst snd].
      unfold bind, return_. intros H; injection H as <- <-.
      split; [discriminate |]. split; [intros b _; exact Hmeta |]. discriminate.
    + split; [| split; [discriminate |]].
      * intros found ->. destruct o' as [[bno0 res0] | v | e].
        -- revert H. unfold bind, return_. discriminate.
        -- injection H as -> _. apply Hnone in Hbefore. discriminate.
        -- discriminate.
      * intros _.
        destruct (scrape_page_inv env st0 o' st1 Hfound)
          as [[text [bno [bjnick [title' [bstart [t
               [H1 [H2 [H3 [H4 [H5 [H6 [-> [I1 [I2 [I3 [I4 I5]]]]]]]]]]]]]]]]]
             | [Hnot Hlive]].
        -- cbn [fst snd] in H. unfold bind, return_ in H.
           injection H as <- <-. right. split; [reflexivity |].
           exists text, bno, bjnick, title', bstart, t. now repeat split.
        -- left. destruct o' as [found | v | e].
           ++ now elim (Hnot found).
           ++ injection H as _ <-. rewrite Hlive. apply Hmeta.
           ++ injection H as _ <-. rewrite Hlive. apply Hmeta.
Qed.

Lemma live_check_reads_the_page_witness :
  same_metadata (snd (_get_streams (sample_site 1) true Afreeca.new_plugin))
                Afreeca.new_plugin.
Proof.
  apply (proj1 (proj2 (live_check_reads_the_page (sample_site 1) Afreeca.new_plugin
                         (fst (_get_streams (sample_site 1) true Afreeca.new_plugin))
                         (snd (_get_streams (sample_site 1) true Afreeca.new_plugin))
                         eq_refl))
               "250001" eq_refl).
Defined.

(** ** Where the streams come from *)

Lemma dict_set_In {V} (k : string) (v : V) (d : list (string * V)) k' v' :
  In (k', v') (dict_set k v d) -> (k' = k /\ v' = v) \/ In (k', v') d.
Proof.
  induction d as [|[k0 v0] d IH]; cbn [dict_set].
  - intros [H | []]. injection H as <- <-. now left.
  - destruct (String.eqb k0 k).
    + intros [H | H]; [injection H as <- <-; now left | right; now right].
    + intros [H | H]; [right; now left |].
      destruct (IH H) as [? | ?]; [now left | right; now right].
Qed.

Lemma dict_set_keys {V} (k : string) (v : V) (d : list (string * V)) :
  forall x, In x (map fst (dict_set k v d)) -> x = k \/ In x (map fst d).
Proof.
  induction d as [|[k0 v0] d IH]; cbn [dict_set map fst]; intros x.
  - intros [<- | []]. now left.
  - destruct (String.eqb k0 k); cbn [map fst].
    + intros [<- | H]; [now left | right; now right].
    + intros [<- | H]; [right; now left |].
      destruct (IH x H) as [? | ?]; [now left | right; now right].
Qed.

Lemma dict_set_NoDup {V} (k : string) (v : V) (d : list (string * V)) :
  NoDup (map fst d) -> NoDup (map fst (dict_set k v d)).
Proof.
  induction d as [|[k0 v0] d IH]; cbn [dict_set map fst]; intros Hd.
  - constructor; [intros [] | constructor].
  - inversion Hd as [|x l Hnotin Hrest]; subst.
    destruct (String.eqb k0 k) eqn:E; cbn [map fst].
    + apply String.eqb_eq in E; subst k0. now constructor.
    + constructor; [| now apply IH].
      intros Hin. destruct (dict_set_keys k v d k0 Hin) as [-> | Hin'].
      * now rewrite String.eqb_refl in E.
      * now apply Hnotin.
Qed.

Lemma each_preset_origin (env : site) broadcast username rmd stream_password
    (items : list Preset) :
  forall acc st found st',
    each_preset env broadcast username rmd stream_password items acc st
    = (Next found, st') ->
    (NoDup (map fst acc) -> NoDup (map fst found))
    /\ (forall l hls,
          In (l, hls) found ->
          In (l, hls) acc
          \/ exists item,
               In item items
               /\ label item = l
               /\ name item <> "auto"
               /\ _get_hls_stream env broadcast username (name item) rmd
                                  stream_password = Ok (Some hls)).
Proof.
  induction items as [|item rest IH]; intros acc st found st'; cbn [each_preset].
  - intros H; injection H as <- <-. split; [auto | now left].
  - destruct (String.eqb (name item) "auto") eqn:Hauto.
    + intros H. destruct (IH _ _ _ _ H) as [Hnd Hin]. split; [exact Hnd |].
      intros l hls Hl. destruct (Hin l hls Hl) as [? | [it [? ?]]]; [now left |].
      right. exists it. split; [now right | assumption].
    + apply String.eqb_neq in Hauto. unfold bind, lift.
      destruct (_get_hls_stream env broadcast username (name item) rmd stream_password)
        as [[hls0 |] | e] eqn:Hstream; [| | discriminate].
      * intros H. destruct (IH _ _ _ _ H) as [Hnd Hin]. split.
        -- intros Hacc. apply Hnd. now apply dict_set_NoDup.
        -- intros l hls Hl. destruct (Hin l hls Hl) as [Hset | [it [? ?]]].
           ++ destruct (dict_set_In _ _ _ _ _ Hset) as [[-> ->] | ?]; [| now left].
              right. exists item. split; [now left |]. now repeat split.
           ++ right. exists it. split; [now right | assumption].
      * intros H. destruct (IH _ _ _ _ H) as [Hnd Hin]. split; [exact Hnd |].
        intros l hls Hl. destruct (Hin l hls Hl) as [? | [it [? ?]]]; [now left |].
        right. exists it. split; [now right | assumption].
Qed.

Lemma get_hls_stream_some (env : site) broadcast username quality rmd
    stream_password (hls : AfreecaHLSStream) :
  _get_hls_stream env broadcast username quality rmd stream_password = Ok (Some hls) ->
  exists keyjson info,
    hls_key_reply env broadcast username quality stream_password = Ok keyjson
    /\ RESULT keyjson = CHANNEL_RESULT_OK
    /\ stream_info_reply env broadcast quality rmd = Ok info
    /\ view_url info = Some (stream_url hls)
    /\ aid hls = AID keyjson.
Proof.
  unfold _get_hls_stream, _get_hls_key, _get_stream_info.
  destruct (hls_key_reply env broadcast username quality stream_password)
    as [keyjson | e]; cbn [rbind]; [| discriminate].
  destruct (RESULT keyjson =? CHANNEL_RESULT_OK) eqn:Hok; cbn [negb]; [| discriminate].
  apply Z.eqb_eq in Hok.
  destruct (stream_info_reply env broadcast quality rmd) as [info | e];
    cbn [rbind]; [| discriminate].
  destruct (view_url info) as [u |] eqn:Hurl; [| discriminate].
  intros H; injection H as <-. exists keyjson, info. now repeat split.
Qed.

(** The test [not streams and channel.get("BPWD") == "Y"]. *)
Lemma password_protected_cases {T} (found : streams) (pwd : option string) (A B : T) :
  match found, pwd with
  | [], Some "Y" => A
  | _, _ => B
  end
  = if match found with [] => true | _ => false end
       && match pwd with Some p => String.eqb p "Y" | None => false end
    then A else B.
Proof.
  destruct found as [|x l]; [| reflexivity].
  destruct pwd as [p |]; [| reflexivity].
  destruct p as [|c [|c1 s1]]; try reflexivity;
    destruct c as [[] [] [] [] [] [] [] []]; reflexivity.
Qed.

Lemma from_channel_inv (env : site) bno username stream_password
    (st st' : AfreecaTV) (found : streams) :
  from_channel env bno username stream_password st = (Return (Some found), st') ->
  exists channel broadcast rmd items,
    channel_reply env bno username = Ok channel
    /\ RESULT channel = CHANNEL_RESULT_OK
    /\ BNO channel = Some broadcast
    /\ RMD channel = Some rmd
    /\ VIEWPRESET channel = Some items
    /\ (found = [] -> BPWD channel <> Some "Y")
    /\ each_preset env broadcast username rmd stream_password items [] st'
       = (Next found, st')
    /\ id st' = Some broadcast
    /\ author st' = BJNICK channel
    /\ title st' = TITLE channel
    /\ is_live st' = true.
Proof.
  unfold from_channel, _get_channel_info. unfold bind at 1. unfold lift at 1.
  destruct (channel_reply env bno username) as [channel | e]; [| discriminate].
  unfold bind at 1. unfold log_ at 1, update at 1.
  destruct (RESULT channel =? CHANNEL_LOGIN_REQUIRED); [discriminate |].
  destruct (RESULT channel =? CHANNEL_RESULT_OK) eqn:Hok; cbn [negb]; [| discriminate].
  apply Z.eqb_eq in Hok.
  destruct (BNO channel) as [[|a b'] |] eqn:Hbno; try discriminate.
  destruct (RMD channel) as [[|c r'] |] eqn:Hrmd; try discriminate.
  cbv zeta.
  unfold bind at 1. unfold set_id at 1, update at 1.
  unfold bind at 1. unfold set_author at 1, update at 1.
  unfold bind at 1. unfold set_title at 1, update at 1.
  unfold bind at 1. unfold set_is_live at 1, update at 1.
  cbn [logged _authed id author title broadcast_start_time is_live headers
       cookie_ops log].
  unfold bind at 1.
  destruct (VIEWPRESET channel) as [items |] eqn:Hitems; [| discriminate].
  unfold next at 1. unfold bind at 1.
  match goal with
  | |- match each_preset ?e ?b ?u ?r ?p ?i ?a ?s with _ => _ end = _ -> _ =>
      destruct (each_preset e b u r p i a s) as [[found0 | v | e0] st2] eqn:Hloop
  end; [| | discriminate].
  2:{ destruct (each_preset_state _ _ _ _ _ _ _ _ _ _ Hloop) as [_ N].
      now elim (N v). }
  destruct (each_preset_state _ _ _ _ _ _ _ _ _ _ Hloop) as [E _].
  rewrite E in Hloop. rewrite E. clear E st2.
  rewrite password_protected_cases.
  destruct (match found0 with [] => true | _ => false end
            && match BPWD channel with Some p => String.eqb p "Y" | None => false end)
    eqn:Hprot.
  { unfold bind, log_, update, return_. discriminate. }
  unfold return_. intros H; injection H as <- <-.
  exists channel, (String a b'), (String c r'), items.
  repeat split; try assumption; try reflexivity.
  intros -> Hpwd. rewrite Hpwd in Hprot. discriminate Hprot.
Qed.

(** X21: where the streams of [_get_streams] come from.  Streams are
    returned only by a call without [live_check_only], after the channel
    API answered with a [RESULT] of 1, a broadcast number and a stream
    host, which mark the plugin as live and give it its id, author and
    title.  No two streams share a label; every stream stands under the
    label of a view preset of the answer that is not named ["auto"], for
    which the key request answered with a [RESULT] of 1 and the stream
    assignment gave a [view_url]: that URL is the URL of the stream, and
    the [AID] of the key answer is its [aid] parameter.  An empty [dict]
    is returned only when the broadcast is not password protected. *)
Theorem streams_come_from_presets :
  forall (env : site) (live_check_only : bool) (st : AfreecaTV)
         (found : streams) (st' : AfreecaTV),
    _get_streams env live_check_only st = (Ok (Some found), st') ->
    live_check_only = false
    /\ NoDup (map fst found)
    /\ is_live st' = true
    /\ exists bno channel broadcast rmd items,
         channel_reply env bno (match_username env) = Ok channel
         /\ RESULT channel = CHANNEL_RESULT_OK
         /\ BNO channel = Some broadcast
         /\ RMD channel = Some rmd
         /\ VIEWPRESET channel = Some items
         /\ id st' = Some broadcast
         /\ author st' = BJNICK channel
         /\ title st' = TITLE channel
         /\ (found = [] -> BPWD channel <> Some "Y")
         /\ forall l hls,
              In (l, hls) found ->
              exists item keyjson info,
                In item items
                /\ label item = l
                /\ name item <> "auto"
                /\ hls_key_reply env broadcast (match_username env) (name item)
                                 (option_stream_password env) = Ok keyjson
                /\ RESULT keyjson = CHANNEL_RESULT_OK
                /\ stream_info_reply env broadcast (name item) rmd = Ok info
                /\ view_url info = Some (stream_url hls)
                /\ aid hls = AID keyjson.
Proof.
  intros env lco st found st' Hrun.
  unfold _get_streams, _get_streams_with, def in Hrun. unfold bind at 1 in Hrun.
  destruct (before_live_check env st) as [o st1] eqn:Hbefore.
  pose proof (AfreecaSpec.before_live_check_returns_None env) as Hnone.
  destruct o as [[[[bno username] pw] res] | v | e]; [| | discriminate].
  2:{ injection Hrun as -> _. apply Hnone in Hbefore. discriminate. }
  destruct lco; [discriminate |]. cbn [bind next] in Hrun.
  destruct (from_channel env bno username pw st1) as [[[] | v | e] st2] eqn:Hfrom;
    try discriminate.
  injection Hrun as -> ->.
  assert (Hvars : username = match_username env /\ pw = option_stream_password env).
  { destruct (before_live_check_inv env st _ st1 Hbefore)
      as [st0 [_ [[_ [e H]] | [o' [_ H]]]]]; [discriminate |].
    destruct o' as [found0 | v | e]; try discriminate.
    injection H as _ -> ->. now split. }
  destruct Hvars as [-> ->].
  destruct (from_channel_inv _ _ _ _ _ _ _ Hfrom)
    as [channel [broadcast [rmd [items
         [Hreply [Hok [Hbno [Hrmd [Hitems [Hpwd [Hloop [I1 [I2 [I3 I4]]]]]]]]]]]]]].
  destruct (each_preset_origin _ _ _ _ _ _ _ _ _ _ Hloop) as [Hnd Hin].
  split; [reflexivity |]. split; [apply Hnd; constructor |]. split; [exact I4 |].
  exists bno, channel, broadcast, rmd, items.
  repeat split; try assumption.
  intros l hls Hl. destruct (Hin l hls Hl) as [[] | [item [Hitem [Hlabel [Hname Hs]]]]].
  destruct (get_hls_stream_some _ _ _ _ _ _ _ Hs)
    as [keyjson [info [H1 [H2 [H3 [H4 H5]]]]]].
  exists item, keyjson, info. now repeat split.
Qed.

Lemma streams_come_from_presets_witness :
  NoDup (map fst [("original",
                   {| stream_url := "https://cdn.example/live/playlist.m3u8";
                      aid := Some "key" |})]).
Proof.
  apply (proj1 (proj2 (streams_come_from_presets (sample_site 1) false
                         Afreeca.new_plugin
                         [("original",
                           {| stream_url := "https://cdn.example/live/playlist.m3u8";
                              aid := Some "key" |})]
                         (snd (_get_streams (sample_site 1) false Afreeca.new_plugin))
                         eq_refl))).
Defined.

(** ** What the channel answer does to the plugin *)

Lemma unset_cases (o : option string) :
  unset o \/ exists c s, o = Some (String c s).
Proof.
  destruct o as [[|c s] |]; [left; now right | right; now exists c, s | left; now left].
Qed.

(** [from_channel] once the channel API has answered a live broadcast. *)
Lemma from_channel_live (env : site) bno username stream_password (st : AfreecaTV)
    (channel : Channel) (a c : ascii) (b' r' : string) :
  channel_reply env bno username = Ok channel ->
  RESULT channel = CHANNEL_RESULT_OK ->
  BNO channel = Some (String a b') ->
  RMD channel = Some (String c r') ->
  from_channel env bno username stream_password st
  = let st2 := marked_live channel (logged TRACE (ReprChannel channel) st) in
    match VIEWPRESET channel with
    | None => (Raised TypeError, st2)
    | Some items =>
        match each_preset env (String a b') username (String c r') stream_password
                          items [] st2 with
        | (Next found, _) =>
            if match found with [] => true | _ => false end
               && match BPWD channel with
                  | Some p => String.eqb p "Y"
                  | None => false
                  end
            then (Return None, logged ERROR (Msg "Stream is password protected") st2)
            else (Return (Some found), st2)
        | (Return v, _) => (Return v, st2)
        | (Raised e, _) => (Raised e, st2)
        end
    end.
Proof.
  intros Hreply Hok Hbno Hrmd.
  unfold from_channel, _get_channel_info. unfold bind at 1. unfold lift at 1.
  rewrite Hreply. unfold bind at 1. unfold log_ at 1, update at 1.
  rewrite Hok. cbn [Z.eqb CHANNEL_RESULT_OK CHANNEL_LOGIN_REQUIRED negb Pos.eqb].
  rewrite Hbno, Hrmd. cbv zeta.
  unfold bind at 1. unfold set_id at 1, update at 1.
  unfold bind at 1. unfold set_author at 1, update at 1.
  unfold bind at 1. unfold set_title at 1, update at 1.
  unfold bind at 1. unfold set_is_live at 1, update at 1.
  cbn [logged _authed id author title broadcast_start_time is_live headers
       cookie_ops log].
  unfold marked_live.
  cbn [logged _authed id author title broadcast_start_time is_live headers
       cookie_ops log].
  rewrite Hbno.
  unfold bind at 1.
  destruct (VIEWPRESET channel) as [items |]; [| reflexivity].
  unfold next at 1. unfold bind at 1.
  match goal with
  | |- match each_preset ?e ?b ?u ?r ?p ?i ?a ?s with _ => _ end = _ =>
      destruct (each_preset e b u r p i a s) as [[found | v | e0] st3] eqn:Hloop;
      destruct (each_preset_state _ _ _ _ _ _ _ _ _ _ Hloop) as [-> N]
  end.
  - rewrite password_protected_cases.
    destruct (_ && _); reflexivity.
  - now elim (N v).
  - reflexivity.
Qed.

(** X22: what the channel answer does to the plugin.  After an answer
    with a [RESULT] of 1, a broadcast number and a stream host, the
    plugin has the id, author and title of the answer and is marked as
    live, however the run ends; an answer of that kind without view
    presets makes [_get_streams] raise [TypeError] after the plugin was
    marked.  After any other answer the run returns [None] and the
    metadata and the live mark are those the plugin had when the channel
    API was asked. *)
Theorem channel_answer_marks_live :
  forall (env : site) (st : AfreecaTV) bno username stream_password res st1
         (channel : Channel) r st',
    before_live_check env st = (Next (bno, username, stream_password, res), st1) ->
    channel_reply env bno username = Ok channel ->
    _get_streams env false st = (r, st') ->
    (RESULT channel = CHANNEL_RESULT_OK ->
     ~ unset (BNO channel) ->
     ~ unset (RMD channel) ->
     id st' = BNO channel
     /\ author st' = BJNICK channel
     /\ title st' = TITLE channel
     /\ is_live st' = true
     /\ (VIEWPRESET channel = None -> r = Raise TypeError))
    /\ (RESULT channel <> CHANNEL_RESULT_OK \/ unset (BNO channel) \/ unset (RMD channel) ->
        r = Ok None /\ same_metadata st' st1).
Proof.
  intros env st bno username pw res st1 channel r st' Hbefore Hreply.
  unfold _get_streams. rewrite (AfreecaSpec.get_streams_after_check _ _ _ _ _ _ _ _ Hbefore).
  unfold def. intros Hrun. split.
  - intros Hok Hbno Hrmd.
    destruct (unset_cases (BNO channel)) as [? | [a [b' Hb]]]; [contradiction |].
    destruct (unset_cases (RMD channel)) as [? | [c [r' Hr]]]; [contradiction |].
    rewrite (from_channel_live _ _ _ _ _ _ _ _ _ _ Hreply Hok Hb Hr) in Hrun.
    cbv zeta in Hrun.
    destruct (VIEWPRESET channel) as [items |].
    + destruct (each_preset env _ _ _ _ items [] _) as [[found | v | e] st3].
      * destruct (_ && _); injection Hrun as <- <-;
          (repeat split; try reflexivity; discriminate).
      * injection Hrun as <- <-. repeat split; try reflexivity; discriminate.
      * injection Hrun as <- <-. repeat split; try reflexivity; discriminate.
    + injection Hrun as <- <-. now repeat split.
  - intros Hnot. revert Hrun.
    unfold from_channel, _get_channel_info. unfold bind at 1. unfold lift at 1.
    rewrite Hreply. unfold bind at 1. unfold log_ at 1, update at 1.
    destruct (RESULT channel =? CHANNEL_LOGIN_REQUIRED).
    { unfold bind, log_, update, return_. intros H; injection H as <- <-.
      split; [reflexivity | now repeat split]. }
    destruct (RESULT channel =? CHANNEL_RESULT_OK) eqn:Hok; cbn [negb].
    2:{ unfold return_. intros H; injection H as <- <-.
        split; [reflexivity | now repeat split]. }
    apply Z.eqb_eq in Hok.
    destruct Hnot as [Hnot | [[Hb | Hb] | [Hr | Hr]]].
    + contradiction.
    + rewrite Hb. unfold return_. intros H; injection H as <- <-.
      split; [reflexivity | now repeat split].
    + rewrite Hb. unfold return_. intros H; injection H as <- <-.
      split; [reflexivity | now repeat split].
    + rewrite Hr. destruct (BNO channel) as [[|a b'] |];
        unfold return_; intros H; injection H as <- <-;
        (split; [reflexivity | now repeat split]).
    + rewrite Hr. destruct (BNO channel) as [[|a b'] |];
        unfold return_; intros H; injection H as <- <-;
        (split; [reflexivity | now repeat split]).
Qed.

Lemma channel_answer_marks_live_witness :
  let st' := snd (_get_streams (sample_site 1) false Afreeca.new_plugin) in
  id st' = Some "250001"
  /\ author st' = Some "bj"
  /\ title st' = Some "on air"
  /\ is_live st' = true
  /\ (VIEWPRESET (sample_channel 1) = None ->
      fst (_get_streams (sample_site 1) false Afreeca.new_plugin) = Raise TypeError).
Proof.
  intros st'.
  apply (proj1 (channel_answer_marks_live (sample_site 1) Afreeca.new_plugin
                  "250001" "bj" None None
                  (snd (before_live_check (sample_site 1) Afreeca.new_plugin))
                  (sample_channel 1)
                  (fst (_get_streams (sample_site 1) false Afreeca.new_plugin))
                  st' eq_refl eq_refl eq_refl)).
  - reflexivity.
  - intros [H | H]; discriminate H.
  - intros [H | H]; discriminate H.
Defined.

(** X23: a broadcast whose presets give no stream.  When the channel
    answer is that of a live broadcast and every view preset is either
    named ["auto"] or gives no stream, [_get_streams] returns an empty
    [dict], unless the answer says the broadcast is password protected
    ([BPWD] is ["Y"]): then it logs that and returns [None]. *)
Theorem no_stream_is_empty_or_protected :
  forall (env : site) (st : AfreecaTV) bno username stream_password res st1
         (channel : Channel) (a c : ascii) (b' r' : string) (items : list Preset),
    before_live_check env st = (Next (bno, username, stream_password, res), st1) ->
    channel_reply env bno username = Ok channel ->
    RESULT channel = CHANNEL_RESULT_OK ->
    BNO channel = Some (String a b') ->
    RMD channel = Some (String c r') ->
    VIEWPRESET channel = Some items ->
    Forall (fun item =>
              name item = "auto"
              \/ _get_hls_stream env (String a b') username (name item) (String c r')
                                 stream_password = Ok None) items ->
    let st2 := marked_live channel (logged TRACE (ReprChannel channel) st1) in
    (BPWD channel = Some "Y" ->
     _get_streams env false st
     = (Ok None, logged ERROR (Msg "Stream is password protected") st2))
    /\ (BPWD channel <> Some "Y" ->
        _get_streams env false st = (Ok (Some []), st2)).
Proof.
  intros env st bno username pw res st1 channel a c b' r' items
    Hbefore Hreply Hok Hbno Hrmd Hitems Hnone st2.
  unfold _get_streams. rewrite (AfreecaSpec.get_streams_after_check _ _ _ _ _ _ _ _ Hbefore).
  unfold def. rewrite (from_channel_live _ _ _ _ _ _ _ _ _ _ Hreply Hok Hbno Hrmd).
  cbv zeta. rewrite Hitems. fold st2.
  assert (Hloop : each_preset env (String a b') username (String c r') pw items [] st2
                  = (Next [], st2)).
  { generalize st2. clear -Hnone. induction Hnone as [|item rest Hitem _ IH];
      intros s; cbn [each_preset]; [reflexivity |].
    destruct (String.eqb (name item) "auto") eqn:Hauto; [apply IH |].
    destruct Hitem as [Hname | Hstream].
    - rewrite Hname in Hauto. discriminate Hauto.
    - unfold bind, lift. rewrite Hstream. apply IH. }
  rewrite Hloop. cbn [andb]. split.
  - intros ->. reflexivity.
  - intros Hpwd. destruct (BPWD channel) as [p |]; [| reflexivity].
    destruct (String.eqb p "Y") eqn:HY; [| reflexivity].
    apply String.eqb_eq in HY. subst p. now elim Hpwd.
Qed.

Lemma no_stream_is_empty_or_protected_witness :
  _get_streams sample_protected_site false Afreeca.new_plugin
  = (Ok None,
     logged ERROR (Msg "Stream is password protected")
       (marked_live sample_protected_channel
          (logged TRACE (ReprChannel sample_protected_channel)
             (snd (before_live_check sample_protected_site Afreeca.new_plugin))))).
Proof.
  refine (proj1 (no_stream_is_empty_or_protected sample_protected_site
                   Afreeca.new_plugin ":250001" "bj" None None
                   (snd (before_live_check sample_protected_site Afreeca.new_plugin))
                   sample_protected_channel "2" "h" "50001" "ttps://rmd.example"
                   [ {| label := "auto"; name := "auto" |} ]
                   eq_refl eq_refl eq_refl eq_refl eq_refl eq_refl _) eq_refl).
  constructor; [now left | constructor].
Defined.

(** ** The plugin matcher *)

Section Matcher.

Variable word : ascii -> bool.

Lemma take_word_split (s : string) :
  exists rest,
    s = take_word word s ++ rest
    /\ all_word word (take_word word s) = true
    /\ drop (String.length (take_word word s)) s = rest.
Proof.
  induction s as [|c s [rest [Hs [Hw Hd]]]]; cbn [take_word].
  - exists "". now repeat split.
  - destruct (word c) eqn:Hc.
    + exists rest. cbn [append all_word String.length drop].
      rewrite Hc, Hw. split; [now rewrite <- Hs | now split].
    + exists (String c s). now repeat split.
Qed.

Lemma take_word_app (username rest : string) :
  all_word word username = true ->
  (forall c r, rest = String c r -> word c = false) ->
  take_word word (username ++ rest) = username.
Proof.
  intros Hw Hrest. induction username as [|c u IH]; cbn [append take_word].
  - destruct rest as [|c r]; [reflexivity |]. cbn [take_word].
    now rewrite (Hrest c r eq_refl).
  - cbn [all_word] in Hw. apply andb_true_iff in Hw as [Hc Hu].
    now rewrite Hc, (IH Hu).
Qed.

Lemma drop_app (a b : string) : drop (String.length a) (a ++ b) = b.
Proof. induction a as [|c a IH]; [now destruct b | exact IH]. Qed.

Lemma after_app (p s : string) : ChzzkPlugin.after p (p ++ s) = Some s.
Proof. unfold ChzzkPlugin.after. now rewrite startswith_app, drop_app. Qed.

Lemma url_match_shape (url username : string) (bno : option string) :
  url_match word url = Some (username, bno) ->
  username <> ""
  /\ all_word word username = true
  /\ (exists scheme rest,
         (scheme = "http" \/ scheme = "https")
         /\ url = scheme ++ "://play.afreecatv.com/" ++ username ++ rest)
  /\ forall b, bno = Some b ->
               exists ds, b = ":" ++ ds /\ ds <> "" /\ digits_only ds = true.
Proof.
  unfold url_match.
  destruct (ChzzkPlugin.after "http" url) as [rest1 |] eqn:H1; [| discriminate].
  apply ChzzkPluginSpec.after_some in H1.
  set (rest2 := match ChzzkPlugin.after "s" rest1 with Some r => r | None => rest1 end).
  assert (H2 : exists scheme, (scheme = "http" \/ scheme = "https")
                              /\ url = scheme ++ rest2).
  { subst rest2. destruct (ChzzkPlugin.after "s" rest1) as [r |] eqn:Hs.
    - apply ChzzkPluginSpec.after_some in Hs. exists "https". split; [now right |].
      now rewrite H1, Hs.
    - exists "http". split; [now left | exact H1]. }
  destruct H2 as [scheme [Hscheme Hurl]].
  destruct (ChzzkPlugin.after "://play.afreecatv.com/" rest2) as [rest3 |] eqn:H3;
    [| discriminate].
  apply ChzzkPluginSpec.after_some in H3.
  destruct (take_word_split rest3) as [rest [Hsplit [Hw Hdrop]]].
  destruct (take_word word rest3) as [|c u] eqn:Hu; [discriminate |].
  cbv zeta. rewrite Hdrop.
  intros H; injection H as <- <-.
  split; [discriminate |]. split; [exact Hw |]. split.
  - exists scheme, rest. split; [exact Hscheme |].
    rewrite Hurl, H3, Hsplit. reflexivity.
  - intros b.
    destruct (ChzzkPlugin.after "/" rest) as [r1 |]; [| discriminate].
    destruct (ChzzkPlugin.after ":" r1) as [r2 |]; [| discriminate].
    destruct (take_digits_split r2) as [Hd _].
    destruct (take_digits r2) as [|d ds] eqn:Hds; [discriminate |].
    intros H; injection H as <-.
    exists (String d ds). split; [reflexivity |]. split; [discriminate | exact Hd].
Qed.

Lemma url_match_plain (scheme username rest : string) :
  scheme = "http" \/ scheme = "https" ->
  username <> "" ->
  all_word word username = true ->
  word "/" = false ->
  (forall r, rest <> String ":" r) ->
  url_match word (scheme ++ "://play.afreecatv.com/" ++ username ++ "/" ++ rest)
  = Some (username, None).
Proof.
  intros Hscheme Hne Hw Hslash Hrest.
  assert (Hword : take_word word (username ++ "/" ++ rest) = username).
  { apply take_word_app; [exact Hw |]. intros c r H; injection H as <- _. exact Hslash. }
  assert (Htail :
    match ChzzkPlugin.after "://play.afreecatv.com/"
            ("://play.afreecatv.com/" ++ username ++ "/" ++ rest) with
    | Some rest0 =>
        match take_word word rest0 with
        | "" => None
        | String a s =>
            let username0 := String a s in
            let rest1 := drop (String.length username0) rest0 in
            Some (username0,
                  match ChzzkPlugin.after "/" rest1 with
                  | Some rest2 =>
                      match ChzzkPlugin.after ":" rest2 with
                      | Some rest3 =>
                          match take_digits rest3 with
                          | "" => None
                          | String a0 s0 => Some (":" ++ String a0 s0)
                          end
                      | None => None
                      end
                  | None => None
                  end)
        end
    | None => None
    end = Some (username, None)).
  { rewrite after_app, Hword.
    destruct username as [|c u]; [congruence |].
    cbv zeta. rewrite drop_app. rewrite (after_app "/" rest).
    destruct rest as [|c0 r]; [reflexivity |].
    unfold ChzzkPlugin.after. cbn [startswith].
    destruct (Ascii.eqb_spec ":" c0) as [<- | Hc]; [now elim (Hrest r) |].
    reflexivity. }
  unfold url_match.
  destruct Hscheme as [-> | ->].
  - change ("http" ++ "://play.afreecatv.com/" ++ username ++ "/" ++ rest)
      with ("http" ++ ("://play.afreecatv.com/" ++ username ++ "/" ++ rest)).
    rewrite after_app.
    change (ChzzkPlugin.after "s" ("://play.afreecatv.com/" ++ username ++ "/" ++ rest))
      with (@None string).
    exact Htail.
  - change ("https" ++ "://play.afreecatv.com/" ++ username ++ "/" ++ rest)
      with ("http" ++ "s" ++ ("://play.afreecatv.com/" ++ username ++ "/" ++ rest)).
    rewrite after_app, after_app. exact Htail.
Qed.

(** X24: the broadcast number of the URL pattern needs a colon.  A
    match gives a non-empty user name of word characters, right after
    [http://play.afreecatv.com/] or its [https] form; the group [bno],
    when it is there, is a colon followed by digits.  So a URL with the
    user name, a slash and anything that does not start with a colon, a
    plain broadcast number for one, matches with no broadcast number. *)
Theorem url_match_bno_needs_colon :
  forall url : string,
    (forall username bno,
        url_match word url = Some (username, bno) ->
        username <> ""
        /\ all_word word username = true
        /\ (exists scheme rest,
               (scheme = "http" \/ scheme = "https")
               /\ url = scheme ++ "://play.afreecatv.com/" ++ username ++ rest)
        /\ forall b, bno = Some b ->
                     exists ds, b = ":" ++ ds /\ ds <> "" /\ digits_only ds = true)
    /\ (forall scheme username rest,
          scheme = "http" \/ scheme = "https" ->
          username <> "" ->
          all_word word username = true ->
          word "/" = false ->
          (forall r, rest <> String ":" r) ->
          url = scheme ++ "://play.afreecatv.com/" ++ username ++ "/" ++ rest ->
          url_match word url = Some (username, None)).
Proof.
  intros url. split.
  - intros username bno. apply url_match_shape.
  - intros scheme username rest Hs Hne Hw Hslash Hrest ->.
    now apply url_match_plain.
Qed.

(** X25: a URL with a plain broadcast number always reads the page.
    When the groups of the site are those of the pattern on a URL made of
    the user name, a slash and a text that does not start with a colon,
    the site has no broadcast number, and, with no user name set for the
    login, [_get_streams] fetches the page of the URL: an exception of
    that request is the outcome of the run. *)
Theorem plain_number_url_reads_the_page :
  forall (env : site) (scheme username rest : string),
    url_match word (plugin_url env) = Some (match_username env, match_bno env) ->
    plugin_url env = scheme ++ "://play.afreecatv.com/" ++ username ++ "/" ++ rest ->
    scheme = "http" \/ scheme = "https" ->
    username <> "" ->
    all_word word username = true ->
    word "/" = false ->
    (forall r, rest <> String ":" r) ->
    match_username env = username
    /\ match_bno env = None
    /\ (forall live_check_only st e,
          unset (option_username env) ->
          page_text env (plugin_url env) = Raise e ->
          fst (_get_streams env live_check_only st) = Raise e).
Proof.
  intros env scheme username rest Hmatch Hurl Hs Hne Hw Hslash Hrest.
  rewrite Hurl in Hmatch.
  rewrite (url_match_plain _ _ _ Hs Hne Hw Hslash Hrest) in Hmatch.
  injection Hmatch as Hu Hb. split; [now symmetry |]. split; [now symmetry |].
  intros lco st e Hunset Hpage.
  unfold _get_streams, _get_streams_with, def. unfold bind at 1.
  rewrite before_live_check_steps.
  unfold bind at 1. unfold headers_update at 1, update at 1.
  unfold bind at 1.
  match goal with
  | |- context [(if option_purge_credentials env then ?a else ?b) ?s] =>
      destruct ((if option_purge_credentials env then a else b) s)
        as [[[] | v | e0] st2] eqn:Hpurge
  end.
  2:{ destruct (option_purge_credentials env); discriminate Hpurge. }
  2:{ destruct (option_purge_credentials env); discriminate Hpurge. }
  unfold bind at 1.
  assert (Hauth : exists st3, authenticate env st2 = (Next tt, st3)).
  { unfold authenticate. unfold bind, read, log_, update.
    destruct (_authed st2); [now eexists |].
    destruct Hunset as [-> | ->]; now eexists. }
  destruct Hauth as [st3 ->].
  unfold bind at 1. rewrite <- Hb.
  unfold scrape_page. unfold bind at 1. unfold lift at 1. rewrite Hpage.
  reflexivity.
Qed.

End Matcher.

Lemma url_match_bno_needs_colon_witness :
  url_match ascii_word "https://play.afreecatv.com/bj/250001" = Some ("bj", None).
Proof.
  apply (proj2 (url_match_bno_needs_colon ascii_word
                  "https://play.afreecatv.com/bj/250001")
               "https" "bj" "250001").
  - now right.
  - discriminate.
  - reflexivity.
  - reflexivity.
  - discriminate.
  - reflexivity.
Defined.

Lemma plain_number_url_reads_the_page_witness :
  fst (_get_streams sample_page_site false Afreeca.new_plugin)
  = Raise (PluginError "Unable to open URL").
Proof.
  apply (proj2 (proj2 (plain_number_url_reads_the_page ascii_word sample_page_site
                         "https" "bj" "250001" eq_refl eq_refl
                         (or_intror eq_refl)
                         ltac:(discriminate) eq_refl eq_refl
                         ltac:(discriminate)))).
  - now left.
  - reflexivity.
Defined.

(** ** When no login is attempted *)

(** X26: the login endpoint is asked only when the plugin is not
    authenticated and both the user name and the password are set.  With
    cached cookies that are not purged, or without a user name or a
    password, a run of [_get_streams] is the same whatever the login
    endpoint would answer. *)
Theorem no_login_without_credentials :
  forall (env : site) (other : string -> string -> result pyval)
         (live_check_only : bool) (st : AfreecaTV),
    (_authed st = true /\ option_purge_credentials env = false)
    \/ unset (option_username env)
    \/ unset (option_password env) ->
    _get_streams (with_login_reply other env) live_check_only st
    = _get_streams env live_check_only st.
Proof.
  intros env other lco st Hno.
  unfold _get_streams, _get_streams_with, def.
  assert (Hbefore : before_live_check (with_login_reply other env) st
                    = before_live_check env st).
  { rewrite !before_live_check_steps.
    cbn [with_login_reply plugin_url option_purge_credentials match_bno
         match_username option_stream_password].
    apply bind_ext_at; intros [] st1 H1.
    apply bind_ext_at; intros [] st2 H2.
    assert (Hauth : authenticate (with_login_reply other env) st2
                    = authenticate env st2).
    { unfold authenticate. unfold bind at 1. unfold bind at 3. unfold read.
      cbn [with_login_reply option_username option_password].
      destruct Hno as [[Hauthed Hpurge] | [Hu | Hp]].
      - assert (H3 : _authed st2 = true).
        { rewrite Hpurge in H2. injection H2 as <-. injection H1 as <-.
          exact Hauthed. }
        now rewrite H3.
      - destruct (_authed st2); [reflexivity |].
        destruct Hu as [-> | ->]; reflexivity.
      - destruct (_authed st2); [reflexivity |].
        destruct (option_username env) as [[|a u] |]; try reflexivity.
        destruct Hp as [-> | ->]; reflexivity. }
    unfold bind at 1. unfold bind at 2. rewrite Hauth. reflexivity. }
  rewrite (AfreecaSpec.bind_ext
             (before_live_check (with_login_reply other env)) _
             (fun vars =>
                let '(bno, username, stream_password, res) := vars in
                (if lco then @return_ _ unit None ;; bstart_time_again env res
                 else next tt) ;;
                from_channel env bno username stream_password)).
  2:{ intros [[[bno username] pw] res] st1. destruct lco; reflexivity. }
  unfold bind at 1. unfold bind at 4. now rewrite Hbefore.
Qed.

Lemma no_login_without_credentials_witness :
  _get_streams (with_login_reply (fun _ _ => Raise ValueError) sample_page_site)
               false Afreeca.new_plugin
  = _get_streams sample_page_site false Afreeca.new_plugin.
Proof.
  apply (no_login_without_credentials sample_page_site (fun _ _ => Raise ValueError)
           false Afreeca.new_plugin).
  right. left. now left.
Defined.

End AfreecaMore.
